(** * The tabbed-panel controller of js/components/tabs.js

    A shallow embedding of class [Tabs]: the page fragment it works on,
    the controller's fields, the asynchronous [switchToTab] protocol cut
    at its suspension points, start-up resolution of the active tab, the
    accessibility pass, [removeTab], the content accessors, keyboard
    navigation, the responsive menu with resize handling, and the
    listeners that [bindEvents] installs; with them [debounce] of
    utils/helpers.js.

    Modelling boundary.
    - The container's subtree is a list of triggers (the [.tab-btn]
      elements, which are also the carriers of [data-tab]) and a list of
      panels (the [.tab-content] elements, the targets of [#id] lookups),
      both in document order.  An element is named by its position, which
      never changes: [remove()] clears the [attached] flag and every
      selector query skips detached elements, so a reference held across a
      removal still denotes the same JavaScript object.
    - The lookup [`#${targetTab}`] of [switchToTab] (line 250) is
      modelled with its exception: a [data-tab] made of name code points
      that does not start an identifier ([2024], [1a], the empty string)
      makes no selector, and the call throws there.  A [data-tab] with
      selector syntax of its own (a combinator, a class or attribute
      part, an escape) is not modelled; the lookup treats it as a plain
      id.  The same lookup in [updateTabAccessibility],
      [dispatchTabChangeEvent], [removeTab] and the accessors, and the
      attribute selectors built from tab names, are modelled for
      identifiers: on a page with a trigger whose [data-tab] is not one,
      the accessibility pass of the real code throws as well (in the
      constructor after the listeners are bound, later inside the [try]
      of [switchToTab]), which the model leaves out.  The [tab-<id>] ids
      written on triggers are taken not to shadow a panel id.
    - [location.hash] after [pushState] is what the URL parser makes of
      the pushed fragment; other writers of the fragment (the rest of
      the page, the Back button) are outside the model.
    - Fetched markup is opaque except for the [img[data-src]] elements it
      contains.
    - The responsive menu and the resize handling work on elements and
      style properties of their own; they are modelled apart from the
      controller state, as are the listener table of [bindEvents] and
      [destroy] and the [debounce] helper.  The capture-phase diagnostics
      of [init] only log and are left out.
    - [addTab] (it inserts elements, which would renumber positions),
      [setTabEnabled] (the [disabled] attribute) and [setTabLabel] are
      not modelled. *)

From Stdlib Require Import Ascii String List Bool Arith Lia.
From stdpp Require Import base option list strings.
Import ListNotations.
Open Scope string_scope.

(** ** The page fragment *)

Abbreviation handle := nat.

(** [innerHTML] of a panel: markup from the page or from a fetch, or the
    retry template that [preloadTabContent] writes in its catch clause. *)
Inductive Markup :=
| Html (source : string)
| RetryAffordance.

Record Inner := {
  markup : Markup;
  lazy_imgs : list string;   (* data-src of the img[data-src] descendants *)
  src_imgs : list string     (* src of images whose loading was started *)
}.

Record Button := {
  b_attached : bool;
  b_data_tab : option string;        (* getAttribute('data-tab') *)
  b_text : string;                   (* textContent.trim() *)
  b_active : bool;                   (* class active *)
  b_loading : bool;                  (* class tab-loading *)
  b_aria_selected : option string;
  b_tabindex : option string;
  b_role : option string;
  b_aria_controls : option string;
  b_id : option string
}.

Record Panel := {
  p_attached : bool;
  p_id : string;
  p_active : bool;                   (* class active *)
  p_opacity : option string;         (* style.opacity *)
  p_transform : option string;       (* style.transform *)
  p_data_load : bool;                (* hasAttribute('data-load') *)
  p_data_loaded : bool;              (* hasAttribute('data-loaded') *)
  p_data_load_url : option string;   (* getAttribute('data-load-url') *)
  p_inner : Inner;
  p_aria_hidden : option string;
  p_role : option string;
  p_aria_labelledby : option string
}.

Record Document := {
  buttons : list Button;
  panels : list Panel;
  title : option string   (* textContent of #active-tab-title, if present *)
}.

(** Element mutations used by the controller. *)

Definition b_set_active (v : bool) (b : Button) : Button :=
  {| b_attached := b_attached b; b_data_tab := b_data_tab b; b_text := b_text b;
     b_active := v; b_loading := b_loading b;
     b_aria_selected := b_aria_selected b; b_tabindex := b_tabindex b;
     b_role := b_role b; b_aria_controls := b_aria_controls b; b_id := b_id b |}.

Definition b_set_loading (v : bool) (b : Button) : Button :=
  {| b_attached := b_attached b; b_data_tab := b_data_tab b; b_text := b_text b;
     b_active := b_active b; b_loading := v;
     b_aria_selected := b_aria_selected b; b_tabindex := b_tabindex b;
     b_role := b_role b; b_aria_controls := b_aria_controls b; b_id := b_id b |}.

Definition b_remove (b : Button) : Button :=
  {| b_attached := false; b_data_tab := b_data_tab b; b_text := b_text b;
     b_active := b_active b; b_loading := b_loading b;
     b_aria_selected := b_aria_selected b; b_tabindex := b_tabindex b;
     b_role := b_role b; b_aria_controls := b_aria_controls b; b_id := b_id b |}.

(** [setAttribute] with a boolean stores its string form. *)
Definition js_bool (v : bool) : string := if v then "true" else "false".

(** A template literal prints a missing attribute as [null]. *)
Definition interp (v : option string) : string := default "null" v.

(** The trigger's share of one iteration of [updateTabAccessibility]. *)
Definition b_set_aria (isActive : bool) (tabId : option string) (b : Button) : Button :=
  {| b_attached := b_attached b; b_data_tab := b_data_tab b; b_text := b_text b;
     b_active := b_active b; b_loading := b_loading b;
     b_aria_selected := Some (js_bool isActive);
     b_tabindex := Some (if isActive then "0" else "-1");
     b_role := Some "tab";
     b_aria_controls := Some (interp tabId);
     b_id := Some ("tab-" ++ interp tabId) |}.

Definition p_set_active (v : bool) (p : Panel) : Panel :=
  {| p_attached := p_attached p; p_id := p_id p; p_active := v;
     p_opacity := p_opacity p; p_transform := p_transform p;
     p_data_load := p_data_load p; p_data_loaded := p_data_loaded p;
     p_data_load_url := p_data_load_url p; p_inner := p_inner p;
     p_aria_hidden := p_aria_hidden p; p_role := p_role p;
     p_aria_labelledby := p_aria_labelledby p |}.

Definition p_set_style (opacity transform : string) (p : Panel) : Panel :=
  {| p_attached := p_attached p; p_id := p_id p; p_active := p_active p;
     p_opacity := Some opacity; p_transform := Some transform;
     p_data_load := p_data_load p; p_data_loaded := p_data_loaded p;
     p_data_load_url := p_data_load_url p; p_inner := p_inner p;
     p_aria_hidden := p_aria_hidden p; p_role := p_role p;
     p_aria_labelledby := p_aria_labelledby p |}.

Definition p_set_inner (i : Inner) (p : Panel) : Panel :=
  {| p_attached := p_attached p; p_id := p_id p; p_active := p_active p;
     p_opacity := p_opacity p; p_transform := p_transform p;
     p_data_load := p_data_load p; p_data_loaded := p_data_loaded p;
     p_data_load_url := p_data_load_url p; p_inner := i;
     p_aria_hidden := p_aria_hidden p; p_role := p_role p;
     p_aria_labelledby := p_aria_labelledby p |}.

Definition p_set_loaded (p : Panel) : Panel :=
  {| p_attached := p_attached p; p_id := p_id p; p_active := p_active p;
     p_opacity := p_opacity p; p_transform := p_transform p;
     p_data_load := p_data_load p; p_data_loaded := true;
     p_data_load_url := p_data_load_url p; p_inner := p_inner p;
     p_aria_hidden := p_aria_hidden p; p_role := p_role p;
     p_aria_labelledby := p_aria_labelledby p |}.

Definition p_remove (p : Panel) : Panel :=
  {| p_attached := false; p_id := p_id p; p_active := p_active p;
     p_opacity := p_opacity p; p_transform := p_transform p;
     p_data_load := p_data_load p; p_data_loaded := p_data_loaded p;
     p_data_load_url := p_data_load_url p; p_inner := p_inner p;
     p_aria_hidden := p_aria_hidden p; p_role := p_role p;
     p_aria_labelledby := p_aria_labelledby p |}.

(** The panel's share of one iteration of [updateTabAccessibility]. *)
Definition p_set_aria (isActive : bool) (tabId : option string) (p : Panel) : Panel :=
  {| p_attached := p_attached p; p_id := p_id p; p_active := p_active p;
     p_opacity := p_opacity p; p_transform := p_transform p;
     p_data_load := p_data_load p; p_data_loaded := p_data_loaded p;
     p_data_load_url := p_data_load_url p; p_inner := p_inner p;
     p_aria_hidden := Some (js_bool (negb isActive));
     p_role := Some "tabpanel";
     p_aria_labelledby := Some ("tab-" ++ interp tabId) |}.

(** Every [img[data-src]] gets its [src] and loses [data-src]. *)
Definition start_images (i : Inner) : Inner :=
  {| markup := markup i; lazy_imgs := []; src_imgs := src_imgs i ++ lazy_imgs i |}.

(** ** Selector queries *)

(** [querySelector]: the first match in document order. *)
Definition first_match {A} (sel : A → bool) (l : list A) : option handle :=
  fst <$> list_find (λ x, sel x) l.

(** [querySelectorAll]: every match, in document order. *)
Fixpoint matches_from {A} (sel : A → bool) (i : handle) (l : list A) : list handle :=
  match l with
  | [] => []
  | x :: l' => if sel x then i :: matches_from sel (S i) l'
               else matches_from sel (S i) l'
  end.

Definition all_matches {A} (sel : A → bool) (l : list A) : list handle :=
  matches_from sel 0 l.

Definition sel_tab_btn (b : Button) : bool := b_attached b.
Definition sel_tab_btn_active (b : Button) : bool := b_attached b && b_active b.
Definition sel_tab_btn_data_active (b : Button) : bool :=
  b_attached b && bool_decide (b_data_tab b ≠ None) && b_active b.
Definition sel_data_tab (t : string) (b : Button) : bool :=
  b_attached b && bool_decide (b_data_tab b = Some t).
Definition sel_tab_content (p : Panel) : bool := p_attached p.
Definition sel_tab_content_active (p : Panel) : bool := p_attached p && p_active p.
Definition sel_id (id : string) (p : Panel) : bool :=
  p_attached p && bool_decide (p_id p = id).

(** [$(`#${id}`, container)] *)
Definition query_id (id : string) (d : Document) : option handle :=
  first_match (sel_id id) (panels d).

(** [$(`[data-tab="${t}"]`, container)] *)
Definition query_data_tab (t : string) (d : Document) : option handle :=
  first_match (sel_data_tab t) (buttons d).

(** *** When [`#${id}`] is no selector

    The tokenizer reads [#] followed by name code points (letters,
    digits, [-], [_] and everything outside ASCII) as one hash token.
    The token is an ID selector only if its value starts an identifier:
    a letter, [_] or a non-ASCII code point, or [-] followed by one of
    these or by a second [-].  Otherwise (a leading digit, [-] followed
    by a digit, [-] alone, the empty string, for which [#] is a lone
    delimiter) the string is no selector and [querySelector] throws
    [SyntaxError]. *)

Definition code (c : ascii) : nat := nat_of_ascii c.

Definition is_digit (c : ascii) : bool := Nat.leb 48 (code c) && Nat.leb (code c) 57.

Definition is_letter (c : ascii) : bool :=
  (Nat.leb 65 (code c) && Nat.leb (code c) 90) ||
  (Nat.leb 97 (code c) && Nat.leb (code c) 122).

Definition name_start (c : ascii) : bool :=
  is_letter c || Nat.eqb (code c) 95 || Nat.leb 128 (code c).

Definition name_char (c : ascii) : bool :=
  name_start c || is_digit c || Nat.eqb (code c) 45.

Fixpoint all_name_chars (id : string) : bool :=
  match id with
  | EmptyString => true
  | String c rest => name_char c && all_name_chars rest
  end.

Definition starts_ident (id : string) : bool :=
  match id with
  | EmptyString => false
  | String c rest =>
      if Nat.eqb (code c) 45 then
        match rest with
        | EmptyString => false
        | String c' _ => name_start c' || Nat.eqb (code c') 45
        end
      else name_start c
  end.

Definition no_id_selector (id : string) : bool :=
  all_name_chars id && negb (starts_ident id).

(** An identifier without escapes: for these every selector the code
    builds from the id is well formed and means what the id says. *)
Definition is_identifier (id : string) : bool :=
  all_name_chars id && starts_ident id.

(** What [$(`#${id}`, container)] gives at line 250: an element, [null],
    or the exception. *)
Inductive Selected := Found (h : handle) | Null | Invalid.

Definition select_id (id : string) (d : Document) : Selected :=
  if no_id_selector id then Invalid
  else match query_id id d with
       | Some content => Found content
       | None => Null
       end.

(** ** The controller and its runtime *)

Inductive JsError := NetworkError | BodyError | ImageError | TypeError | SyntaxError.

(** How the promise of an asynchronous call stands after a step. *)
Inductive Settlement := Fulfilled | Rejected (e : JsError).
Inductive Status := Suspended | Settled (r : Settlement).

(** What the controller does to the world outside the container. *)
Inductive Effect :=
| Warn (tab : string)                     (* console.warn, panel not found *)
| PushState (url : string)                (* history.pushState *)
| Fetch (url : string)
| ReadBody                                (* response.text() *)
| LoadImage (src : string)
| SetTimeout (ms : nat)
| ConsoleError (e : JsError)
| TabChangeContainer (tabId : option string)
| TabChangeWindow (tabId : option string).

(** The locals of a suspended [switchToTab]. *)
Record Frame := {
  button : handle;
  targetTab : option string;
  targetContent : handle;
  currentButton : option handle;
  currentContent : option handle
}.

(** Who awaits [preloadTabContent]: a [switchToTab] frame, or a caller
    outside the class that invoked the method directly. *)
Inductive Caller := Switch (fr : Frame) | Direct.

Inductive PreloadAwait := AwFetch | AwText | AwImages.
Inductive Fade := FadeOut | FadeIn.

(** A suspended call chain. *)
Inductive Task :=
| InPreload (content : handle) (aw : PreloadAwait) (k : Caller)
| InTransition (fr : Frame) (timer : Fade).

(** What the browser hands back to a suspended task. *)
Inductive Resolution :=
| FetchResolved
| FetchRejected
| BodyResolved (html : string) (imgs : list string)
| BodyRejected
| ImagesLoaded
| ImageFailed
| TimerFired.

Record State := {
  (* the Tabs instance *)
  tabContainers : nat;             (* this.tabContainers.length *)
  tabButtons : list handle;        (* NodeList *)
  tabContents : list handle;       (* NodeList *)
  activeTab : option string;
  transitioning : bool;
  (* the page *)
  doc : Document;
  location_hash : string;          (* window.location.hash *)
  has_pushState : bool;            (* history.pushState is defined *)
  (* the runtime *)
  tasks : list Task;
  log : list Effect                (* oldest first *)
}.

Definition set_transitioning (v : bool) (s : State) : State :=
  {| tabContainers := tabContainers s; tabButtons := tabButtons s;
     tabContents := tabContents s; activeTab := activeTab s; transitioning := v;
     doc := doc s; location_hash := location_hash s;
     has_pushState := has_pushState s; tasks := tasks s; log := log s |}.

Definition set_activeTab (v : option string) (s : State) : State :=
  {| tabContainers := tabContainers s; tabButtons := tabButtons s;
     tabContents := tabContents s; activeTab := v;
     transitioning := transitioning s;
     doc := doc s; location_hash := location_hash s;
     has_pushState := has_pushState s; tasks := tasks s; log := log s |}.

Definition set_nodelists (bs cs : list handle) (s : State) : State :=
  {| tabContainers := tabContainers s; tabButtons := bs;
     tabContents := cs; activeTab := activeTab s;
     transitioning := transitioning s;
     doc := doc s; location_hash := location_hash s;
     has_pushState := has_pushState s; tasks := tasks s; log := log s |}.

Definition set_doc (d : Document) (s : State) : State :=
  {| tabContainers := tabContainers s; tabButtons := tabButtons s;
     tabContents := tabContents s; activeTab := activeTab s;
     transitioning := transitioning s;
     doc := d; location_hash := location_hash s;
     has_pushState := has_pushState s; tasks := tasks s; log := log s |}.

Definition set_hash (h : string) (s : State) : State :=
  {| tabContainers := tabContainers s; tabButtons := tabButtons s;
     tabContents := tabContents s; activeTab := activeTab s;
     transitioning := transitioning s;
     doc := doc s; location_hash := h;
     has_pushState := has_pushState s; tasks := tasks s; log := log s |}.

Definition set_tasks (ts : list Task) (s : State) : State :=
  {| tabContainers := tabContainers s; tabButtons := tabButtons s;
     tabContents := tabContents s; activeTab := activeTab s;
     transitioning := transitioning s;
     doc := doc s; location_hash := location_hash s;
     has_pushState := has_pushState s; tasks := ts; log := log s |}.

Definition emit (es : list Effect) (s : State) : State :=
  {| tabContainers := tabContainers s; tabButtons := tabButtons s;
     tabContents := tabContents s; activeTab := activeTab s;
     transitioning := transitioning s;
     doc := doc s; location_hash := location_hash s;
     has_pushState := has_pushState s; tasks := tasks s; log := log s ++ es |}.

Definition spawn (t : Task) (s : State) : State := set_tasks (tasks s ++ [t]) s.

Definition upd_button (h : handle) (f : Button → Button) (s : State) : State :=
  set_doc {| buttons := alter f h (buttons (doc s)); panels := panels (doc s);
             title := title (doc s) |} s.

Definition upd_panel (h : handle) (f : Panel → Panel) (s : State) : State :=
  set_doc {| buttons := buttons (doc s); panels := alter f h (panels (doc s));
             title := title (doc s) |} s.

Definition upd_panel_opt (h : option handle) (f : Panel → Panel) (s : State) : State :=
  match h with Some c => upd_panel c f s | None => s end.

Definition upd_button_opt (h : option handle) (f : Button → Button) (s : State) : State :=
  match h with Some b => upd_button b f s | None => s end.

Definition forEach {A} (l : list A) (f : A → State → State) (s : State) : State :=
  foldl (λ acc x, f x acc) s l.

(** *** The fragment after [pushState]

    [history.pushState(null, null, `#${t}`)] runs the URL parser on its
    third argument.  The parser drops trailing C0 controls and spaces and
    every tab and newline, and percent-encodes in the fragment the C0
    controls, the space, the double quote, [<], [>] and the backquote,
    and every byte above [~]; [location.hash] then reports [#] and the
    encoded fragment, or the empty string if the fragment is empty. *)

Definition hex_digit (n : nat) : ascii :=
  ascii_of_nat (if Nat.ltb n 10 then 48 + n else 55 + n).

Definition percent_encoded (c : ascii) : string :=
  String "%"%char (String (hex_digit (code c / 16))
                (String (hex_digit (code c mod 16)) EmptyString)).

Definition in_fragment_encode_set (c : ascii) : bool :=
  Nat.leb (code c) 32 || Nat.leb 127 (code c) || Nat.eqb (code c) 34 ||
  Nat.eqb (code c) 60 || Nat.eqb (code c) 62 || Nat.eqb (code c) 96.

Definition is_tab_or_newline (c : ascii) : bool :=
  Nat.eqb (code c) 9 || Nat.eqb (code c) 10 || Nat.eqb (code c) 13.

Fixpoint strip_trailing (t : string) : string :=
  match t with
  | EmptyString => EmptyString
  | String c rest =>
      match strip_trailing rest with
      | EmptyString => if Nat.leb (code c) 32 then EmptyString
                       else String c EmptyString
      | rest' => String c rest'
      end
  end.

Fixpoint drop_tab_or_newline (t : string) : string :=
  match t with
  | EmptyString => EmptyString
  | String c rest =>
      if is_tab_or_newline c then drop_tab_or_newline rest
      else String c (drop_tab_or_newline rest)
  end.

Fixpoint encode_fragment (t : string) : string :=
  match t with
  | EmptyString => EmptyString
  | String c rest =>
      (if in_fragment_encode_set c then percent_encoded c else String c EmptyString)
      ++ encode_fragment rest
  end.

(** [location.hash] after [pushState] to [#t]. *)
Definition hash_after_push (t : string) : string :=
  match encode_fragment (drop_tab_or_newline (strip_trailing t)) with
  | EmptyString => ""
  | fragment => "#" ++ fragment
  end.

(** [hash.slice(1)] *)
Definition slice1 (h : string) : string :=
  match h with EmptyString => "" | String _ r => r end.

(** *** updateTabAccessibility (lines 390-414) *)

Definition accessibility_of (h : handle) (s : State) : State :=
  match buttons (doc s) !! h with
  | None => s
  | Some btn =>
      let isActive := b_active btn in
      let tabId := b_data_tab btn in
      let content := query_id (interp tabId) (doc s) in
      let s := upd_button h (b_set_aria isActive tabId) s in
      upd_panel_opt content (p_set_aria isActive tabId) s
  end.

Definition updateTabAccessibility (s : State) : State :=
  forEach (tabButtons s) accessibility_of s.

(** *** updateActiveStates and updateTabTitleDisplay (lines 360-388) *)

Definition updateTabTitleDisplay (activeButton : handle) (s : State) : State :=
  match title (doc s), buttons (doc s) !! activeButton with
  | Some _, Some btn =>
      set_doc {| buttons := buttons (doc s); panels := panels (doc s);
                 title := Some (b_text btn) |} s
  | _, _ => s
  end.

Definition fade_out (p : Panel) : Panel := p_set_style "0" "translateY(10px)" p.
Definition fade_in (p : Panel) : Panel := p_set_style "1" "translateY(0)" p.

(** Lines 361-376: classes, styles and the title. *)
Definition mark_active (activeButton activeContent : handle) (s : State) : State :=
  let s := forEach (tabButtons s) (λ btn, upd_button btn (b_set_active false)) s in
  let s := forEach (tabContents s)
             (λ c, upd_panel c (λ p, fade_out (p_set_active false p))) s in
  let s := upd_button activeButton (b_set_active true) s in
  let s := upd_panel activeContent (λ p, fade_in (p_set_active true p)) s in
  updateTabTitleDisplay activeButton s.

Definition updateActiveStates (activeButton activeContent : handle) (s : State) : State :=
  updateTabAccessibility (mark_active activeButton activeContent s).

(** *** dispatchTabChangeEvent (lines 416-435) *)

Definition dispatchTabChangeEvent (tabId : option string) (s : State) : State :=
  emit [TabChangeContainer tabId; TabChangeWindow tabId] s.

(** *** performTabTransition (lines 333-358) *)

(** The promise executor: start the fade-out and arm the 300 ms timer. *)
Definition performTabTransition (fr : Frame) (s : State) : State * Status :=
  let s := upd_panel_opt (currentContent fr) fade_out s in
  let s := emit [SetTimeout 300] s in
  (spawn (InTransition fr FadeOut) s, Suspended).

(** The 300 ms callback: the class swap, then arm the 50 ms timer. *)
Definition swap_classes (fr : Frame) (s : State) : State :=
  let s := upd_button_opt (currentButton fr) (b_set_active false) s in
  let s := upd_panel_opt (currentContent fr) (p_set_active false) s in
  let s := upd_button (button fr) (b_set_active true) s in
  upd_panel (targetContent fr) (p_set_active true) s.

(** *** The tail of switchToTab (lines 277-289) *)

Definition switch_finally (fr : Frame) (s : State) : State * Status :=
  let s := upd_button (button fr) (b_set_loading false) s in
  (set_transitioning false s, Settled Fulfilled).

Definition switch_catch (e : JsError) (fr : Frame) (s : State) : State * Status :=
  switch_finally fr (emit [ConsoleError e] s).

Definition switch_complete (fr : Frame) (s : State) : State * Status :=
  let s := updateActiveStates (button fr) (targetContent fr) s in
  let s := set_activeTab (targetTab fr) s in
  let s := dispatchTabChangeEvent (targetTab fr) s in
  switch_finally fr s.

(** *** preloadTabContent (lines 292-331) *)

Definition preload_return (k : Caller) (s : State) : State * Status :=
  match k with
  | Switch fr => performTabTransition fr s
  | Direct => (s, Settled Fulfilled)
  end.

Definition preload_throw (e : JsError) (k : Caller) (s : State) : State * Status :=
  match k with
  | Switch fr => switch_catch e fr s
  | Direct => (s, Settled (Rejected e))
  end.

(** The catch clause around the fetch: write the retry template, rethrow. *)
Definition preload_catch (e : JsError) (content : handle) (k : Caller) (s : State)
  : State * Status :=
  let retry := {| markup := RetryAffordance; lazy_imgs := []; src_imgs := [] |} in
  preload_throw e k (upd_panel content (p_set_inner retry) s).

(** Lines 319-330.  [Promise.all] of no promises resolves without leaving
    the current turn of the event loop. *)
Definition preload_images (content : handle) (k : Caller) (s : State) : State * Status :=
  let imgs := match panels (doc s) !! content with
              | Some p => lazy_imgs (p_inner p)
              | None => []
              end in
  let s := upd_panel content (λ p, p_set_inner (start_images (p_inner p)) p) s in
  let s := emit (LoadImage <$> imgs) s in
  match imgs with
  | [] => preload_return k s
  | _ :: _ => (spawn (InPreload content AwImages k) s, Suspended)
  end.

Definition shouldLoad (p : Panel) : bool := p_data_load p && negb (p_data_loaded p).

Definition preloadTabContent (tabId : option string) (content : handle) (k : Caller)
    (s : State) : State * Status :=
  match panels (doc s) !! content with
  | Some p =>
      if shouldLoad p then
        match p_data_load_url p with
        | Some loadUrl =>
            if bool_decide (loadUrl = "") then preload_images content k s
            else (spawn (InPreload content AwFetch k) (emit [Fetch loadUrl] s),
                  Suspended)
        | None => preload_images content k s
        end
      else preload_images content k s
  | None => preload_images content k s
  end.

(** *** switchToTab (lines 242-290) *)

(** The call is an [async] function: the exception of the lookup at line
    250, which runs after [transitioning] was set and outside the [try],
    rejects the promise and leaves the flag set.

    Lines 262-265: the fragment is written when [history.pushState]
    exists. *)
Definition push_hash (tab : string) (s : State) : State :=
  if has_pushState s
  then emit [PushState ("#" ++ tab)] (set_hash (hash_after_push tab) s)
  else s.

Definition switchToTab (btn : handle) (s : State) : State * Status :=
  match buttons (doc s) !! btn with
  | None => (s, Settled Fulfilled)
  | Some b =>
      if transitioning s || b_active b then (s, Settled Fulfilled)
      else
        let s := set_transitioning true s in
        let tab := b_data_tab b in
        match select_id (interp tab) (doc s) with
        | Invalid => (s, Settled (Rejected SyntaxError))
        | Null =>
            let s := emit [Warn (interp tab)] s in
            (set_transitioning false s, Settled Fulfilled)
        | Found content =>
            let fr := {| button := btn; targetTab := tab; targetContent := content;
                         currentButton := first_match sel_tab_btn_active (buttons (doc s));
                         currentContent :=
                           first_match sel_tab_content_active (panels (doc s)) |} in
            let s := push_hash (interp tab) s in
            let s := upd_button btn (b_set_loading true) s in
            preloadTabContent tab content (Switch fr) s
        end
  end.

(** Resuming a suspended task with what the browser delivers. *)
Definition resume (t : Task) (r : Resolution) (s : State) : option (State * Status) :=
  match t, r with
  | InPreload c AwFetch k, FetchResolved =>
      Some (spawn (InPreload c AwText k) (emit [ReadBody] s), Suspended)
  | InPreload c AwFetch k, FetchRejected => Some (preload_catch NetworkError c k s)
  | InPreload c AwText k, BodyResolved html imgs =>
      let fresh := {| markup := Html html; lazy_imgs := imgs; src_imgs := [] |} in
      let s := upd_panel c (p_set_inner fresh) s in
      let s := upd_panel c p_set_loaded s in
      Some (preload_images c k s)
  | InPreload c AwText k, BodyRejected => Some (preload_catch BodyError c k s)
  | InPreload c AwImages k, ImagesLoaded => Some (preload_return k s)
  | InPreload c AwImages k, ImageFailed => Some (preload_throw ImageError k s)
  | InTransition fr FadeOut, TimerFired =>
      let s := swap_classes fr s in
      let s := emit [SetTimeout 50] s in
      Some (spawn (InTransition fr FadeIn) s, Suspended)
  | InTransition fr FadeIn, TimerFired =>
      let s := upd_panel (targetContent fr) fade_in s in
      Some (switch_complete fr s)
  | _, _ => None
  end.

(** *** setInitialActiveTab, init and the constructor (lines 4-23, 99-122) *)

Definition setInitialActiveTab (s : State) : State :=
  let fromHash :=
    if bool_decide (location_hash s = "") then None
    else query_data_tab (slice1 (location_hash s)) (doc s) in
  match fromHash with
  | Some tabFromHash => fst (switchToTab tabFromHash s)
  | None =>
      match first_match sel_tab_btn_data_active (buttons (doc s)) with
      | Some activeTabFromData => fst (switchToTab activeTabFromData s)
      | None =>
          match tabButtons s !! 0 with
          | Some firstTab => fst (switchToTab firstTab s)
          | None => s
          end
      end
  end.

Definition init (s : State) : State :=
  if Nat.eqb (tabContainers s) 0 then s
  else updateTabAccessibility (setInitialActiveTab s).

Definition new_Tabs (d : Document) (containers : nat) (hash : string) (push : bool)
  : State :=
  init {| tabContainers := containers;
          tabButtons := all_matches sel_tab_btn (buttons d);
          tabContents := all_matches sel_tab_content (panels d);
          activeTab := None; transitioning := false;
          doc := d; location_hash := hash; has_pushState := push;
          tasks := []; log := [] |}.

(** *** switchToTabById and removeTab (lines 500-505, 554-578) *)

Definition switchToTabById (tabId : string) (s : State) : State :=
  match query_data_tab tabId (doc s) with
  | Some btn => fst (switchToTab btn s)
  | None => s
  end.

Inductive Completion := Normal (s : State) | Throw (e : JsError) (s : State).

(** [this.tabButtons] always comes from [querySelectorAll]; a NodeList has
    [forEach], [length] and indexing but no [filter] property, so the
    call at line 561 finds nothing to call. *)
Definition NodeList_filter (l : list handle) (keep : handle → bool)
  : option (list handle) := None.

Definition removeTab (tabId : string) (s : State) : Completion :=
  match query_data_tab tabId (doc s), query_id tabId (doc s) with
  | Some btn, Some content =>
      let remove_elements (s : State) :=
        let s := upd_button btn b_remove s in
        let s := upd_panel content p_remove s in
        let s := set_nodelists (all_matches sel_tab_btn (buttons (doc s)))
                   (all_matches sel_tab_content (panels (doc s))) s in
        updateTabAccessibility s in
      let is_active := match buttons (doc s) !! btn with
                       | Some b => b_active b
                       | None => false
                       end in
      if is_active then
        match NodeList_filter (tabButtons s) (λ o, negb (Nat.eqb o btn)) with
        | None => Throw TypeError s
        | Some otherTabs =>
            match otherTabs with
            | other :: _ => Normal (remove_elements (fst (switchToTab other s)))
            | [] => Normal (remove_elements s)
            end
        end
      else Normal (remove_elements s)
  | _, _ => Normal s
  end.

(** ** The event loop *)

Inductive Event :=
| Activate (btn : handle)              (* click, Enter or Space on a trigger *)
| Resume (i : nat) (r : Resolution).   (* the browser resumes task [i] *)

Definition step (e : Event) (s : State) : State :=
  match e with
  | Activate btn => fst (switchToTab btn s)
  | Resume i r =>
      match tasks s !! i with
      | None => s
      | Some t =>
          match resume t r (set_tasks (delete i (tasks s)) s) with
          | Some (s', _) => s'
          | None => s
          end
      end
  end.

Definition run (es : list Event) (s : State) : State := foldl (λ acc e, step e acc) s es.

(** ** The rest of the public interface *)

(** The state a call leaves behind, however it completed. *)
Definition state_of (c : Completion) : State :=
  match c with Normal s => s | Throw _ s => s end.

(** *** getActiveTab, getTabContent and setTabContent (lines 489-497, 603-610) *)

Definition getActiveTab (s : State) : option string := activeTab s.

Definition getTabContent (tabId : string) (s : State) : option handle :=
  query_id tabId (doc s).

(** [newContent] is the markup handed over; [imgs] lists the [data-src]
    of the [img[data-src]] elements it holds. *)
Definition setTabContent (tabId newContent : string) (imgs : list string) (s : State)
  : State :=
  match query_id tabId (doc s) with
  | Some content =>
      let fresh := {| markup := Html newContent; lazy_imgs := imgs; src_imgs := [] |} in
      upd_panel content p_set_loaded (upd_panel content (p_set_inner fresh) s)
  | None => s
  end.

(** *** Keyboard navigation (lines 192-240) *)

(** [Array.from(list).indexOf(x)]: the first position of [x], or -1. *)
Definition indexOf (l : list handle) (x : handle) : Z :=
  match first_match (λ y, Nat.eqb y x) l with
  | Some i => Z.of_nat i
  | None => (-1)%Z
  end.

(** [list[i]] on a NodeList: [undefined] outside the list. *)
Definition item (l : list handle) (i : Z) : option handle :=
  if (i <? 0)%Z then None else l !! Z.to_nat i.

(** What a keydown handler did. *)
Inductive KeyOutcome :=
| NotHandled                       (* no case matched: the default is not prevented *)
| FocusCalled (h : handle)         (* preventDefault, then [h.focus()] *)
| FocusThrew                       (* preventDefault, then [undefined.focus()]: TypeError *)
| Switched (p : State * Status).   (* preventDefault, then [switchToTab(button)] *)

Definition focus_item (l : list handle) (i : Z) : KeyOutcome :=
  match item l i with
  | Some h => FocusCalled h
  | None => FocusThrew
  end.

Definition focusPreviousTab (currentIndex : Z) (s : State) : KeyOutcome :=
  let previousIndex :=
    if (currentIndex >? 0)%Z then (currentIndex - 1)%Z
    else (Z.of_nat (length (tabButtons s)) - 1)%Z in
  focus_item (tabButtons s) previousIndex.

Definition focusNextTab (currentIndex : Z) (s : State) : KeyOutcome :=
  let nextIndex :=
    if (currentIndex <? Z.of_nat (length (tabButtons s)) - 1)%Z
    then (currentIndex + 1)%Z else 0%Z in
  focus_item (tabButtons s) nextIndex.

Definition focusFirstTab (s : State) : KeyOutcome := focus_item (tabButtons s) 0%Z.

Definition focusLastTab (s : State) : KeyOutcome :=
  focus_item (tabButtons s) (Z.of_nat (length (tabButtons s)) - 1)%Z.

Definition handleTabKeydown (btn : handle) (key : string) (s : State) : KeyOutcome :=
  let currentIndex := indexOf (tabButtons s) btn in
  if bool_decide (key ∈ ["ArrowLeft"; "ArrowUp"]) then focusPreviousTab currentIndex s
  else if bool_decide (key ∈ ["ArrowRight"; "ArrowDown"]) then focusNextTab currentIndex s
  else if bool_decide (key = "Home") then focusFirstTab s
  else if bool_decide (key = "End") then focusLastTab s
  else if bool_decide (key ∈ ["Enter"; " "]) then Switched (switchToTab btn s)
  else NotHandled.

(** The trigger that holds the focus after a key was pressed on the
    focused trigger [focus], every trigger being able to take it. *)
Definition press (key : string) (s : State) (focus : handle) : handle :=
  match handleTabKeydown focus key s with
  | FocusCalled h => h
  | _ => focus
  end.

(** ** The responsive menu and resize handling (lines 130-190, 437-487)

    The menu works on elements of its own: the [.tab-toggle] buttons, the
    element that follows each of them (the menu it opens) and the [<i>]
    icon inside a toggle.  They live in one store, named by position, so
    that a toggle may be followed by another toggle.  The element that
    follows a toggle is taken not to be a trigger or a panel of the tab
    set. *)

Record Elem := {
  e_tab_toggle : bool;        (* matches .tab-toggle inside the container *)
  e_within : list handle;     (* the tab containers of the instance it lies in *)
  e_active : bool;            (* class active *)
  e_fa_bars : bool;           (* class fa-bars *)
  e_fa_times : bool;          (* class fa-times *)
  e_next : option handle;     (* nextElementSibling *)
  e_icon : option handle      (* querySelector('i') *)
}.

Record TabContainer := {
  c_tabs_mobile : bool;       (* class tabs-mobile *)
  c_tabs_desktop : bool       (* class tabs-desktop *)
}.

(** [style.height] and [style.minHeight] of a panel; the latter in px. *)
Record PanelSize := {
  sz_height : option string;
  sz_minHeight : option nat
}.

Record Chrome := {
  elems : list Elem;
  containers : list TabContainer;   (* this.tabContainers *)
  sizes : list PanelSize            (* by panel handle *)
}.

Definition e_set_active (v : bool) (e : Elem) : Elem :=
  {| e_tab_toggle := e_tab_toggle e; e_within := e_within e; e_active := v;
     e_fa_bars := e_fa_bars e; e_fa_times := e_fa_times e;
     e_next := e_next e; e_icon := e_icon e |}.

(** [remove(off)] then [add(on)] on the icon's class list. *)
Definition e_show_bars (e : Elem) : Elem :=
  {| e_tab_toggle := e_tab_toggle e; e_within := e_within e; e_active := e_active e;
     e_fa_bars := true; e_fa_times := false;
     e_next := e_next e; e_icon := e_icon e |}.

Definition e_show_times (e : Elem) : Elem :=
  {| e_tab_toggle := e_tab_toggle e; e_within := e_within e; e_active := e_active e;
     e_fa_bars := false; e_fa_times := true;
     e_next := e_next e; e_icon := e_icon e |}.

Definition alter_icon (f : Elem → Elem) (icon : option handle) (m : list Elem)
  : list Elem :=
  match icon with Some i => alter f i m | None => m end.

(** Lines 138-145 and 163-169: close the menu [sib] of toggle [t]. *)
Definition close_menu (t sib : handle) (icon : option handle) (m : list Elem)
  : list Elem :=
  let m := alter (e_set_active false) sib m in
  let m := alter (e_set_active false) t m in
  alter_icon e_show_bars icon m.

(** Lines 147-154. *)
Definition open_menu (t sib : handle) (icon : option handle) (m : list Elem)
  : list Elem :=
  let m := alter (e_set_active true) sib m in
  let m := alter (e_set_active true) t m in
  alter_icon e_show_times icon m.

Definition toggleTabMenu (toggle : handle) (m : list Elem) : list Elem :=
  match m !! toggle with
  | Some t =>
      match e_next t with
      | Some tabsContainer =>
          match m !! tabsContainer with
          | Some sib =>
              if e_active sib then close_menu toggle tabsContainer (e_icon t) m
              else open_menu toggle tabsContainer (e_icon t) m
          | None => m
          end
      | None => m
      end
  | None => m
  end.

(** One iteration of the loop of [closeTabMenu]. *)
Definition close_if_open (toggle : handle) (m : list Elem) : list Elem :=
  match m !! toggle with
  | Some t =>
      match e_next t with
      | Some tabsContainer =>
          match m !! tabsContainer with
          | Some sib =>
              if e_active sib then close_menu toggle tabsContainer (e_icon t) m else m
          | None => m
          end
      | None => m
      end
  | None => m
  end.

Definition closeTabMenu (m : list Elem) : list Elem :=
  foldl (λ acc toggle, close_if_open toggle acc) m (all_matches e_tab_toggle m).

(** [isMobile()] of utils/helpers.js, with BREAKPOINTS.MD = 768. *)
Definition isMobile (innerWidth : nat) : bool := Nat.ltb innerWidth 768.

(** [inside] holds [wrapper.contains(e.target)] for each [.tab-wrapper]
    of the page. *)
Definition handleOutsideClick (innerWidth : nat) (inside : list bool) (m : list Elem)
  : list Elem :=
  if isMobile innerWidth then
    let isClickInside := foldl (λ (acc c : bool), if c then true else acc) false inside in
    if negb isClickInside then closeTabMenu m else m
  else m.

(** [scrollHeight] is what the layout reports for each panel once every
    height was reset to [auto]. *)
Definition adjustTabContentHeight (tabContents : list handle) (scrollHeight : handle → nat)
    (sz : list PanelSize) : list PanelSize :=
  match tabContents with
  | [] => sz
  | _ :: _ =>
      let sz := foldl (λ acc c,
                   alter (λ p, {| sz_height := Some "auto";
                                  sz_minHeight := sz_minHeight p |}) c acc)
                  sz tabContents in
      let maxHeight := foldl (λ acc c,
                          if Nat.ltb acc (scrollHeight c) then scrollHeight c else acc)
                         0 tabContents in
      foldl (λ acc c,
               alter (λ p, {| sz_height := sz_height p;
                              sz_minHeight := Some maxHeight |}) c acc)
        sz tabContents
  end.

Definition c_set_mobile (c : TabContainer) : TabContainer :=
  {| c_tabs_mobile := true; c_tabs_desktop := false |}.

Definition c_set_desktop (c : TabContainer) : TabContainer :=
  {| c_tabs_mobile := false; c_tabs_desktop := true |}.

(** The body of the inner loop of [handleResize] (lines 448-453). *)
Definition close_all_if_open (acc : list Elem) (toggle : handle) : list Elem :=
  match acc !! toggle with
  | Some t =>
      match e_next t with
      | Some tabsContainer =>
          match acc !! tabsContainer with
          | Some sib => if e_active sib then closeTabMenu acc else acc
          | None => acc
          end
      | None => acc
      end
  | None => acc
  end.

(** The body of the loop of [handleResize] for container [j]. *)
Definition resize_container (innerWidth : nat) (ch : Chrome) (j : handle) : Chrome :=
  if Nat.leb innerWidth 640 then
    let tabToggles :=
      all_matches (λ e, e_tab_toggle e && bool_decide (j ∈ e_within e)) (elems ch) in
    {| elems := foldl close_all_if_open (elems ch) tabToggles;
       containers := alter c_set_mobile j (containers ch);
       sizes := sizes ch |}
  else
    {| elems := elems ch; containers := alter c_set_desktop j (containers ch);
       sizes := sizes ch |}.

Definition handleResize (innerWidth : nat) (tabContents : list handle)
    (scrollHeight : handle → nat) (ch : Chrome) : Chrome :=
  let ch := foldl (resize_container innerWidth) ch (seq 0 (length (containers ch))) in
  {| elems := elems ch; containers := containers ch;
     sizes := adjustTabContentHeight tabContents scrollHeight (sizes ch) |}.

(** ** debounce (utils/helpers.js, lines 64-75)

    [debounce(func, wait)] returns a closure over one variable,
    [timeout].  The model keeps that variable, the timers the closure has
    armed and that have neither fired nor been cleared, and the calls of
    [func] made so far.  Time is in milliseconds. *)

Record Timer (A : Type) := {
  tm_id : nat;
  tm_due : nat;       (* the moment the delay has elapsed *)
  tm_args : A         (* the arguments captured by [later] *)
}.
Arguments tm_id {A}.
Arguments tm_due {A}.
Arguments tm_args {A}.

Record Debounced (A : Type) := {
  db_wait : nat;
  db_timeout : option nat;        (* [timeout]: undefined, or the id of the last timer *)
  db_timers : list (Timer A);
  db_fresh : nat;                 (* the next id [setTimeout] hands out *)
  db_calls : list (nat * A)       (* calls of [func]: time and arguments *)
}.
Arguments db_wait {A}.
Arguments db_timeout {A}.
Arguments db_timers {A}.
Arguments db_fresh {A}.
Arguments db_calls {A}.

(** [clearTimeout(id)]: an unknown or missing id is ignored. *)
Definition clearTimeout {A} (id : option nat) (ts : list (Timer A)) : list (Timer A) :=
  match id with
  | Some i => filter (λ t, tm_id t ≠ i) ts
  | None => ts
  end.

Definition debounce {A} (wait : nat) : Debounced A :=
  {| db_wait := wait; db_timeout := None; db_timers := []; db_fresh := 0;
     db_calls := [] |}.

(** [executedFunction(...args)], called at time [now]. *)
Definition executedFunction {A} (now : nat) (args : A) (d : Debounced A) : Debounced A :=
  let ts := clearTimeout (db_timeout d) (db_timers d) in
  {| db_wait := db_wait d;
     db_timeout := Some (db_fresh d);
     db_timers := ts ++ [{| tm_id := db_fresh d; tm_due := now + db_wait d;
                            tm_args := args |}];
     db_fresh := S (db_fresh d);
     db_calls := db_calls d |}.

(** The browser runs the callback [later] of timer [id] at time [now]:
    only an armed timer whose delay has elapsed fires, and it is
    disarmed by firing. *)
Definition fire {A} (now id : nat) (d : Debounced A) : Debounced A :=
  match list_find (λ t, tm_id t = id) (db_timers d) with
  | Some (_, t) =>
      if Nat.leb (tm_due t) now then
        let ts := filter (λ t, tm_id t ≠ id) (db_timers d) in
        {| db_wait := db_wait d; db_timeout := db_timeout d;
           db_timers := clearTimeout (db_timeout d) ts;
           db_fresh := db_fresh d;
           db_calls := db_calls d ++ [(now, tm_args t)] |}
      else d
  | None => d
  end.

Inductive DebounceEvent (A : Type) :=
| Call (now : nat) (args : A)
| Fire (now : nat) (id : nat).
Arguments Call {A}.
Arguments Fire {A}.

Definition debounce_step {A} (d : Debounced A) (e : DebounceEvent A) : Debounced A :=
  match e with
  | Call now args => executedFunction now args d
  | Fire now id => fire now id d
  end.

Definition debounce_run {A} (es : list (DebounceEvent A)) (d : Debounced A)
  : Debounced A :=
  foldl debounce_step d es.

(** The most recent call of the debounced function in a trace. *)
Definition last_call {A} (es : list (DebounceEvent A)) : option (nat * A) :=
  last (omap (λ e, match e with Call now args => Some (now, args) | Fire _ _ => None end) es).

(** ** Event listeners: bindEvents and destroy (lines 49-97, 612-621)

    A function object is identified by where it was made.  An arrow
    function, or the function [debounce] returns, is a new object each
    time its expression is evaluated: [Closure line k] is the one made at
    source line [line] in iteration [k] of the enclosing loop.  The
    methods are properties of [Tabs.prototype], one object each. *)

Inductive Target :=
| OnTrigger (h : handle)
| OnToggle (h : handle)
| OnDocument
| OnWindow.

Inductive Callback :=
| Closure (line k : nat)
| Method (name : string).

Record Listener := {
  ls_target : Target;
  ls_type : string;
  ls_callback : Callback
}.

#[global] Instance Target_eq_dec : EqDecision Target.
Proof. solve_decision. Defined.

#[global] Instance Callback_eq_dec : EqDecision Callback.
Proof. solve_decision. Defined.

#[global] Instance Listener_eq_dec : EqDecision Listener.
Proof. solve_decision. Defined.

(** A listener that is already registered is not added again. *)
Definition addEventListener (t : Target) (type : string) (f : Callback)
    (ls : list Listener) : list Listener :=
  let l := {| ls_target := t; ls_type := type; ls_callback := f |} in
  if bool_decide (l ∈ ls) then ls else ls ++ [l].

Definition removeEventListener (t : Target) (type : string) (f : Callback)
    (ls : list Listener) : list Listener :=
  filter (λ l, l ≠ {| ls_target := t; ls_type := type; ls_callback := f |}) ls.

(** [list.forEach((x, k) => ...)] on the listener table. *)
Definition forEach_indexed (l : list handle)
    (f : nat → handle → list Listener → list Listener) (ls : list Listener)
  : list Listener :=
  foldl (λ acc kx, f kx.1 kx.2 acc) ls (imap pair l).

Definition bindEvents (tabButtons tabToggles : list handle) (ls : list Listener)
  : list Listener :=
  let ls := forEach_indexed tabButtons (λ k button acc,
              addEventListener (OnTrigger button) "keydown" (Closure 53 k)
                (addEventListener (OnTrigger button) "click" (Closure 52 k) acc)) ls in
  let ls := forEach_indexed tabToggles (λ k toggle acc,
              addEventListener (OnToggle toggle) "touchend" (Closure 76 k)
                (addEventListener (OnToggle toggle) "pointerup" (Closure 69 k)
                   (addEventListener (OnToggle toggle) "click" (Closure 63 k) acc))) ls in
  let ls := forEach_indexed tabButtons (λ k button acc,
              addEventListener (OnTrigger button) "click" (Closure 84 k) acc) ls in
  let ls := addEventListener OnDocument "click" (Closure 88 0) ls in
  let ls := addEventListener OnWindow "resize" (Closure 91 0) ls in
  addEventListener OnWindow "orientationchange" (Closure 94 0) ls.

Definition destroy (tabButtons : list handle) (ls : list Listener) : list Listener :=
  let ls := foldl (λ acc button,
              removeEventListener (OnTrigger button) "keydown" (Method "handleTabKeydown")
                (removeEventListener (OnTrigger button) "click" (Method "handleTabClick")
                   acc)) ls tabButtons in
  let ls := removeEventListener OnWindow "resize" (Method "handleResize") ls in
  removeEventListener OnWindow "orientationchange" (Method "handleResize") ls.

(** *** A switch in which nothing fails *)

(** Whether [preloadTabContent] fetches for panel [p] (lines 294-299). *)
Definition loads (p : Panel) : bool :=
  shouldLoad p &&
  match p_data_load_url p with
  | Some loadUrl => negb (bool_decide (loadUrl = ""))
  | None => false
  end.

(** What the browser delivers to a switch to panel [p] when nothing
    fails: the response and its body [html], holding the lazy images
    [imgs], if the panel is fetched; the images, if there are any; the
    two timers of the cross-fade. *)
Definition success_path (p : Panel) (html : string) (imgs : list string)
  : list Resolution :=
  (if loads p then [FetchResolved; BodyResolved html imgs] else []) ++
  match (if loads p then imgs else lazy_imgs (p_inner p)) with
  | [] => []
  | _ :: _ => [ImagesLoaded]
  end ++
  [TimerFired; TimerFired].

(** ** Sample markup *)

Definition trigger (tab : string) (active : bool) : Button :=
  {| b_attached := true; b_data_tab := Some tab; b_text := tab;
     b_active := active; b_loading := false;
     b_aria_selected := None; b_tabindex := None; b_role := None;
     b_aria_controls := None; b_id := None |}.

Definition static_panel (id : string) (active : bool) : Panel :=
  {| p_attached := true; p_id := id; p_active := active;
     p_opacity := None; p_transform := None;
     p_data_load := false; p_data_loaded := false; p_data_load_url := None;
     p_inner := {| markup := Html id; lazy_imgs := []; src_imgs := [] |};
     p_aria_hidden := None; p_role := None; p_aria_labelledby := None |}.

Definition remote_panel (id url : string) : Panel :=
  {| p_attached := true; p_id := id; p_active := false;
     p_opacity := None; p_transform := None;
     p_data_load := true; p_data_loaded := false; p_data_load_url := Some url;
     p_inner := {| markup := Html ""; lazy_imgs := []; src_imgs := [] |};
     p_aria_hidden := None; p_role := None; p_aria_labelledby := None |}.

(** Three static tabs, [B] marked active in the markup. *)
Definition page_ABC : Document :=
  {| buttons := [trigger "A" false; trigger "B" true; trigger "C" false];
     panels := [static_panel "A" false; static_panel "B" true; static_panel "C" false];
     title := None |}.

(** [A] static and active, [B] fetched on demand, [X] without a panel. *)
Definition page_remote : Document :=
  {| buttons := [trigger "A" true; trigger "B" false; trigger "X" false];
     panels := [static_panel "A" true; remote_panel "B" "b.html"];
     title := Some "A" |}.

(** [news] static and active, and a tab named by a year. *)
Definition page_archive : Document :=
  {| buttons := [trigger "news" true; trigger "2024" false];
     panels := [static_panel "news" true; static_panel "2024" false];
     title := None |}.

(** A trigger without a panel first, nothing marked active. *)
Definition page_orphan : Document :=
  {| buttons := [trigger "X" false; trigger "A" false];
     panels := [static_panel "A" false];
     title := None |}.

(** A static panel whose markup holds lazily loaded images. *)
Definition lazy_panel (id : string) (imgs : list string) : Panel :=
  {| p_attached := true; p_id := id; p_active := false;
     p_opacity := None; p_transform := None;
     p_data_load := false; p_data_loaded := false; p_data_load_url := None;
     p_inner := {| markup := Html id; lazy_imgs := imgs; src_imgs := [] |};
     p_aria_hidden := None; p_role := None; p_aria_labelledby := None |}.

(** [A] static and active, [G] a gallery with two lazy images. *)
Definition page_gallery : Document :=
  {| buttons := [trigger "A" true; trigger "G" false];
     panels := [static_panel "A" true; lazy_panel "G" ["g1.png"; "g2.png"]];
     title := None |}.

(** A toggle with its icon, followed by the navigation it opens. *)
Definition sample_menu : list Elem :=
  [ {| e_tab_toggle := true; e_within := [0]; e_active := false;
       e_fa_bars := true; e_fa_times := false; e_next := Some 1; e_icon := Some 2 |};
    {| e_tab_toggle := false; e_within := [0]; e_active := false;
       e_fa_bars := false; e_fa_times := false; e_next := None; e_icon := None |};
    {| e_tab_toggle := false; e_within := [0]; e_active := false;
       e_fa_bars := true; e_fa_times := false; e_next := None; e_icon := None |} ].

(** ** Facts about selector queries and in-place updates *)

Open Scope list_scope.
Open Scope nat_scope.

Definition at_most_one {A} (sel : A → bool) (l : list A) : Prop :=
  ∀ i j x y, l !! i = Some x → l !! j = Some y →
             sel x = true → sel y = true → i = j.

Definition alter_all {A} (f : A → A) (hs : list handle) (l : list A) : list A :=
  foldl (λ acc h, alter f h acc) l hs.

Section Queries.
Context {A : Type}.
Local Open Scope nat_scope.
Implicit Types (sel : A → bool) (l : list A) (f : A → A) (i h : handle).

Lemma first_match_Some sel l i :
  first_match sel l = Some i ↔
  ∃ x, l !! i = Some x ∧ sel x = true ∧
       ∀ j y, l !! j = Some y → j < i → sel y = false.
Proof.
  unfold first_match. split.
  - destruct (list_find _ l) as [[j x]|] eqn:E; [|done].
    intros [= ->]. apply list_find_Some in E as (Hi & Hx & Hmin).
    exists x. split_and!; [done|by apply Is_true_true|].
    intros j y Hj Hlt. specialize (Hmin j y Hj Hlt).
    destruct (sel y); [by destruct Hmin|done].
  - intros (x & Hi & Hx & Hmin).
    assert (list_find (λ x, sel x) l = Some (i, x)) as ->; [|done].
    apply list_find_Some. split_and!; [done|by apply Is_true_true|].
    intros j y Hj Hlt Hy. rewrite (Hmin j y Hj Hlt) in Hy. done.
Qed.

Lemma first_match_None sel l :
  first_match sel l = None ↔ ∀ i x, l !! i = Some x → sel x = false.
Proof.
  unfold first_match. rewrite fmap_None, list_find_None, Forall_lookup.
  split; intros H i x Hi; specialize (H i x Hi).
  - destruct (sel x); [by destruct H|done].
  - rewrite H. by intros [].
Qed.

Lemma at_most_one_first sel l i x :
  at_most_one sel l → l !! i = Some x → sel x = true →
  first_match sel l = Some i.
Proof.
  intros H1 Hi Hx. apply first_match_Some. exists x. split_and!; [done..|].
  intros j y Hj Hlt. destruct (sel y) eqn:Hy; [|done].
  specialize (H1 i j x y Hi Hj Hx Hy). lia.
Qed.

Lemma elem_of_matches_from sel l k i :
  i ∈ matches_from sel k l ↔
  ∃ x, (k ≤ i)%nat ∧ l !! (i - k)%nat = Some x ∧ sel x = true.
Proof.
  revert k. induction l as [|a l IH]; intros k; simpl.
  - split; [by intros ?%elem_of_nil|by intros (? & ? & ? & ?)].
  - assert (Hstep : (∃ x, S k ≤ i ∧ l !! (i - S k) = Some x ∧ sel x = true) ↔
                    (∃ x, k ≤ i ∧ i ≠ k ∧ (a :: l) !! (i - k) = Some x ∧ sel x = true)).
    { split.
      - intros (x & Hk & Hi & Hx). exists x. split_and!; [lia|lia| |done].
        replace (i - k)%nat with (S (i - S k)) by lia. done.
      - intros (x & Hk & Hne & Hi & Hx). exists x. split_and!; [lia| |done].
        replace (i - k)%nat with (S (i - S k)) in Hi by lia. done. }
    destruct (sel a) eqn:Ha.
    + rewrite elem_of_cons, IH, Hstep. split.
      * intros [->|(x & ? & ? & ? & ?)]; [|by eauto].
        exists a. rewrite Nat.sub_diag. done.
      * intros (x & Hk & Hi & Hx). destruct (decide (i = k)) as [->|Hne]; [by left|].
        right. eauto.
    + rewrite IH, Hstep. split.
      * intros (x & ? & ? & ? & ?). eauto.
      * intros (x & Hk & Hi & Hx). exists x. split_and!; [done| |done..].
        intros ->. rewrite Nat.sub_diag in Hi. simpl in Hi. congruence.
Qed.

Lemma elem_of_all_matches sel l i :
  i ∈ all_matches sel l ↔ ∃ x, l !! i = Some x ∧ sel x = true.
Proof.
  unfold all_matches. rewrite elem_of_matches_from. rewrite Nat.sub_0_r.
  split; [intros (x & _ & ? & ?)|intros (x & ? & ?)]; exists x; auto with lia.
Qed.

Lemma lookup_alter_all f hs l i :
  (∀ x, f (f x) = f x) →
  alter_all f hs l !! i = if decide (i ∈ hs) then f <$> l !! i else l !! i.
Proof.
  intros Hidem. revert l. induction hs as [|h hs IH]; intros l.
  - simpl. destruct (decide (i ∈ [])) as [Hin|]; [by apply elem_of_nil in Hin|done].
  - change (alter_all f (h :: hs) l) with (alter_all f hs (alter f h l)).
    rewrite IH, list_lookup_alter.
    destruct (decide (h = i)) as [->|Hne]; destruct (decide (i ∈ hs)) as [Hin|Hnin];
      match goal with
      | |- context [decide ?P] => destruct (decide P) as [Hc|Hc]
      end; try done.
    all: try (destruct (l !! i); simpl; [by rewrite Hidem|done]).
    all: exfalso; rewrite elem_of_cons in Hc; naive_solver.
Qed.
End Queries.

Section Images.
Context {A B : Type}.
Implicit Types (sel : A → bool) (l : list A) (f : A → A).
Local Open Scope nat_scope.

Lemma first_match_image sel (sel' : B → bool) l (l' : list B) :
  sel <$> l = sel' <$> l' → first_match sel l = first_match sel' l'.
Proof.
  intros Himg.
  assert (Hl : ∀ i, sel <$> (l !! i) = sel' <$> (l' !! i)).
  { intros i. by rewrite <- !list_lookup_fmap, Himg. }
  destruct (first_match sel' l') as [i|] eqn:E.
  - apply first_match_Some in E as (y & Hi & Hy & Hmin).
    apply first_match_Some. pose proof (Hl i) as Hli. rewrite Hi in Hli.
    destruct (l !! i) as [x|] eqn:Ex; [|done]. simpl in Hli.
    exists x. split_and!; [done|congruence|].
    intros j x' Hj Hlt. specialize (Hl j). rewrite Hj in Hl.
    destruct (l' !! j) as [y'|] eqn:Ey; [|done]. simpl in Hl.
    rewrite (Hmin j y' Ey Hlt) in Hl. congruence.
  - apply first_match_None. intros i x Hi.
    specialize (Hl i). rewrite Hi in Hl.
    destruct (l' !! i) as [y|] eqn:Ey; [|done]. simpl in Hl.
    rewrite first_match_None in E. rewrite (E i y Ey) in Hl. congruence.
Qed.

Lemma at_most_one_image sel (sel' : B → bool) l (l' : list B) :
  sel <$> l = sel' <$> l' → at_most_one sel l → at_most_one sel' l'.
Proof.
  intros Himg H1 i j x y Hi Hj Hx Hy.
  assert (Hl : ∀ k, sel <$> (l !! k) = sel' <$> (l' !! k)).
  { intros k. by rewrite <- !list_lookup_fmap, Himg. }
  pose proof (Hl i) as Hli. pose proof (Hl j) as Hlj.
  rewrite Hi in Hli. rewrite Hj in Hlj.
  destruct (l !! i) as [x0|] eqn:Ei; [|done].
  destruct (l !! j) as [y0|] eqn:Ej; [|done].
  simpl in *. apply (H1 i j x0 y0); congruence.
Qed.

Lemma matches_from_image sel (sel' : B → bool) l (l' : list B) k :
  sel <$> l = sel' <$> l' → matches_from sel k l = matches_from sel' k l'.
Proof.
  revert l' k. induction l as [|a l IH]; intros [|a' l'] k Himg; try done.
  simpl in *. injection Himg as Ha Hl. rewrite Ha, (IH l' (S k) Hl). done.
Qed.

Lemma image_alter (g : A → B) f h l :
  (∀ x, g (f x) = g x) → g <$> alter f h l = g <$> l.
Proof.
  intros Hg. rewrite (list_fmap_alter g f id).
  - by apply list_alter_id.
  - apply Forall_forall. intros x _. apply Hg.
Qed.

Lemma image_alter_all (g : A → B) f hs l :
  (∀ x, g (f x) = g x) → g <$> alter_all f hs l = g <$> l.
Proof.
  intros Hg. revert l. induction hs as [|h hs IH]; intros l; simpl; [done|].
  change (foldl _ (alter f h l) hs) with (alter_all f hs (alter f h l)).
  rewrite IH. by apply image_alter.
Qed.
End Images.

Lemma first_match_alter {A} (sel : A → bool) (f : A → A) h (l : list A) :
  (∀ x, sel (f x) = sel x) →
  first_match sel (alter f h l) = first_match sel l.
Proof. intros Hs. apply first_match_image. by apply image_alter. Qed.


(** ** What the selectors can see

    Selector queries read a trigger only through its attachment, its
    [data-tab] and its [active] class, and a panel only through its
    attachment, its id and its [active] class.  Most mutations leave these
    untouched. *)

Definition b_key (b : Button) : bool * option string * bool :=
  (b_attached b, b_data_tab b, b_active b).
Definition p_key (p : Panel) : bool * string * bool :=
  (p_attached p, p_id p, p_active p).

Definition bk (s : State) := b_key <$> buttons (doc s).
Definition pk (s : State) := p_key <$> panels (doc s).
Definition ld (s : State) := b_loading <$> buttons (doc s).

(** The controller fields that only [removeTab] and the end of a switch
    write. *)
Definition registry (s : State) :=
  (tabContainers s, tabButtons s, tabContents s, has_pushState s).

Lemma image_through {A K} (g : A → K) (sel : A → bool) (ksel : K → bool)
    (l l' : list A) :
  (∀ x, sel x = ksel (g x)) → g <$> l = g <$> l' → sel <$> l = sel <$> l'.
Proof.
  intros Hs. revert l'. induction l as [|a l IH]; intros [|a' l'] Hg; try done.
  simpl in *. injection Hg as Ha Hl. rewrite !Hs, Ha. f_equal. by apply IH.
Qed.

Section KeyFacts.
Implicit Types (s : State) (d : Document).

Lemma first_active_button_keys s s' :
  bk s' = bk s →
  first_match sel_tab_btn_active (buttons (doc s')) =
  first_match sel_tab_btn_active (buttons (doc s)).
Proof.
  intros H. apply first_match_image.
  by apply (image_through b_key _ (λ k, k.1.1 && k.2)).
Qed.

Lemma first_active_panel_keys s s' :
  pk s' = pk s →
  first_match sel_tab_content_active (panels (doc s')) =
  first_match sel_tab_content_active (panels (doc s)).
Proof.
  intros H. apply first_match_image.
  by apply (image_through p_key _ (λ k, k.1.1 && k.2)).
Qed.

Lemma query_id_keys id s s' :
  pk s' = pk s → query_id id (doc s') = query_id id (doc s).
Proof.
  intros H. apply first_match_image.
  by apply (image_through p_key _ (λ k, k.1.1 && bool_decide (k.1.2 = id))).
Qed.

Lemma query_data_tab_keys t s s' :
  bk s' = bk s → query_data_tab t (doc s') = query_data_tab t (doc s).
Proof.
  intros H. apply first_match_image.
  by apply (image_through b_key _ (λ k, k.1.1 && bool_decide (k.1.2 = Some t))).
Qed.

Lemma one_active_button_keys s s' :
  bk s' = bk s →
  at_most_one sel_tab_btn_active (buttons (doc s)) →
  at_most_one sel_tab_btn_active (buttons (doc s')).
Proof.
  intros H. apply at_most_one_image. symmetry.
  by apply (image_through b_key _ (λ k, k.1.1 && k.2)).
Qed.

Lemma one_active_panel_keys s s' :
  pk s' = pk s →
  at_most_one sel_tab_content_active (panels (doc s)) →
  at_most_one sel_tab_content_active (panels (doc s')).
Proof.
  intros H. apply at_most_one_image. symmetry.
  by apply (image_through p_key _ (λ k, k.1.1 && k.2)).
Qed.

Lemma all_buttons_keys s s' :
  bk s' = bk s →
  all_matches sel_tab_btn (buttons (doc s')) = all_matches sel_tab_btn (buttons (doc s)).
Proof.
  intros H. apply matches_from_image.
  by apply (image_through b_key _ (λ k, k.1.1)).
Qed.

Lemma all_panels_keys s s' :
  pk s' = pk s →
  all_matches sel_tab_content (panels (doc s')) =
  all_matches sel_tab_content (panels (doc s)).
Proof.
  intros H. apply matches_from_image.
  by apply (image_through p_key _ (λ k, k.1.1)).
Qed.

Lemma button_lookup_keys s s' h b :
  bk s' = bk s → buttons (doc s) !! h = Some b →
  ∃ b', buttons (doc s') !! h = Some b' ∧ b_key b' = b_key b.
Proof.
  intros H Hb.
  assert (Hk : b_key <$> (buttons (doc s') !! h) = b_key <$> (buttons (doc s) !! h)).
  { rewrite <- !list_lookup_fmap. by fold (bk s') (bk s); rewrite H. }
  rewrite Hb in Hk. destruct (buttons (doc s') !! h) as [b'|]; [|done].
  exists b'. split; [done|]. simpl in Hk. congruence.
Qed.

Lemma panel_lookup_keys s s' h p :
  pk s' = pk s → panels (doc s) !! h = Some p →
  ∃ p', panels (doc s') !! h = Some p' ∧ p_key p' = p_key p.
Proof.
  intros H Hp.
  assert (Hk : p_key <$> (panels (doc s') !! h) = p_key <$> (panels (doc s) !! h)).
  { rewrite <- !list_lookup_fmap. by fold (pk s') (pk s); rewrite H. }
  rewrite Hp in Hk. destruct (panels (doc s') !! h) as [p'|]; [|done].
  exists p'. split; [done|]. simpl in Hk. congruence.
Qed.

(** Effects of the primitive updates on what the selectors see. *)

Lemma bk_upd_button h f s :
  (∀ b, b_key (f b) = b_key b) → bk (upd_button h f s) = bk s.
Proof. intros Hf. unfold bk; simpl. by apply image_alter. Qed.

Lemma ld_upd_button h f s :
  (∀ b, b_loading (f b) = b_loading b) → ld (upd_button h f s) = ld s.
Proof. intros Hf. unfold ld; simpl. by apply image_alter. Qed.

Lemma pk_upd_panel h f s :
  (∀ p, p_key (f p) = p_key p) → pk (upd_panel h f s) = pk s.
Proof. intros Hf. unfold pk; simpl. by apply image_alter. Qed.

Lemma pk_upd_panel_opt h f s :
  (∀ p, p_key (f p) = p_key p) → pk (upd_panel_opt h f s) = pk s.
Proof. destruct h; [apply pk_upd_panel|done]. Qed.

Lemma forEach_preserves {A B} (g : State → B) (l : list A) (f : A → State → State) s :
  (∀ x t, g (f x t) = g t) → g (forEach l f s) = g s.
Proof.
  intros Hf. unfold forEach. revert s.
  induction l as [|x l IH]; intros s; simpl; [done|]. by rewrite IH, Hf.
Qed.
End KeyFacts.

(** ** The controller seen through the selectors *)

Definition k_active {K} (k : (bool * K) * bool) : bool := k.1.1 && k.2.
Definition kp_id (id : string) (k : bool * string * bool) : bool :=
  k.1.1 && bool_decide (k.1.2 = id).
Definition k_set_active {K} (v : bool) (k : K * bool) : K * bool := (k.1, v).

Definition alter_opt {A} (f : A → A) (h : option handle) (l : list A) : list A :=
  match h with Some i => alter f i l | None => l end.

(** Everything the invariant reads, apart from the pending tasks. *)
Definition view (s : State) :=
  (bk s, pk s, ld s, registry s, activeTab s, transitioning s).

Section Views.
Implicit Types (s : State) (fr : Frame).
Local Open Scope list_scope.

Lemma first_active_button_view s :
  first_match sel_tab_btn_active (buttons (doc s)) = first_match k_active (bk s).
Proof. apply first_match_image. unfold bk. by rewrite <- list_fmap_compose. Qed.

Lemma first_active_panel_view s :
  first_match sel_tab_content_active (panels (doc s)) = first_match k_active (pk s).
Proof. apply first_match_image. unfold pk. by rewrite <- list_fmap_compose. Qed.

Lemma query_id_view id s : query_id id (doc s) = first_match (kp_id id) (pk s).
Proof. apply first_match_image. unfold pk. by rewrite <- list_fmap_compose. Qed.

Lemma fmap_alter_all {A B} (g : A → B) (f : A → A) (f' : B → B) hs (l : list A) :
  (∀ x, g (f x) = f' (g x)) → g <$> alter_all f hs l = alter_all f' hs (g <$> l).
Proof.
  intros Hg. revert l. induction hs as [|h hs IH]; intros l; simpl; [done|].
  change (foldl _ (alter f h l) hs) with (alter_all f hs (alter f h l)).
  change (foldl _ (alter f' h (g <$> l)) hs)
    with (alter_all f' hs (alter f' h (g <$> l))).
  rewrite IH. f_equal. apply list_fmap_alter, Forall_forall. auto.
Qed.

Lemma state_eta s :
  set_doc {| buttons := buttons (doc s); panels := panels (doc s);
             title := title (doc s) |} s = s.
Proof. by destruct s as [? ? ? ? ? [? ? ?] ? ? ? ?]. Qed.

Lemma forEach_upd_button hs f s :
  forEach hs (λ h, upd_button h f) s =
  set_doc {| buttons := alter_all f hs (buttons (doc s));
             panels := panels (doc s); title := title (doc s) |} s.
Proof.
  unfold forEach. revert s. induction hs as [|h hs IH]; intros s; simpl.
  - symmetry. apply state_eta.
  - by rewrite IH.
Qed.

Lemma forEach_upd_panel hs f s :
  forEach hs (λ h, upd_panel h f) s =
  set_doc {| buttons := buttons (doc s);
             panels := alter_all f hs (panels (doc s)); title := title (doc s) |} s.
Proof.
  unfold forEach. revert s. induction hs as [|h hs IH]; intros s; simpl.
  - symmetry. apply state_eta.
  - by rewrite IH.
Qed.

(** Quiet operations: the view is unchanged. *)

Lemma view_upd_button h f s :
  (∀ b, b_key (f b) = b_key b) → (∀ b, b_loading (f b) = b_loading b) →
  view (upd_button h f s) = view s.
Proof.
  intros Hk Hl. unfold view. rewrite bk_upd_button, ld_upd_button by done. done.
Qed.

Lemma view_upd_panel h f s :
  (∀ p, p_key (f p) = p_key p) → view (upd_panel h f s) = view s.
Proof. intros Hk. unfold view. rewrite pk_upd_panel by done. done. Qed.

Lemma view_upd_panel_opt h f s :
  (∀ p, p_key (f p) = p_key p) → view (upd_panel_opt h f s) = view s.
Proof. destruct h; [apply view_upd_panel|done]. Qed.

Lemma view_accessibility_of h s : view (accessibility_of h s) = view s.
Proof.
  unfold accessibility_of. destruct (buttons (doc s) !! h); [|done].
  rewrite view_upd_panel_opt by done. by apply view_upd_button.
Qed.

Lemma view_updateTabAccessibility s : view (updateTabAccessibility s) = view s.
Proof. apply (forEach_preserves view), view_accessibility_of. Qed.

Lemma view_updateTabTitleDisplay h s : view (updateTabTitleDisplay h s) = view s.
Proof. unfold updateTabTitleDisplay. by repeat case_match. Qed.

Lemma view_emit es s : view (emit es s) = view s.
Proof. reflexivity. Qed.

Lemma view_spawn t s : view (spawn t s) = view s.
Proof. reflexivity. Qed.

Lemma view_set_tasks ts s : view (set_tasks ts s) = view s.
Proof. reflexivity. Qed.

Lemma view_set_hash h s : view (set_hash h s) = view s.
Proof. reflexivity. Qed.

Lemma view_performTabTransition fr s : view (performTabTransition fr s).1 = view s.
Proof.
  unfold performTabTransition. cbn [fst].
  rewrite view_spawn, view_emit. by apply view_upd_panel_opt.
Qed.

Lemma view_preload_images c fr s : view (preload_images c (Switch fr) s).1 = view s.
Proof.
  unfold preload_images.
  destruct (match panels (doc s) !! c with Some p => _ | None => _ end);
    cbn [fst preload_return]; rewrite ?view_performTabTransition, ?view_spawn, view_emit;
    by apply view_upd_panel.
Qed.

Lemma view_preloadTabContent tab c fr s :
  view (preloadTabContent tab c (Switch fr) s).1 = view s.
Proof.
  unfold preloadTabContent.
  repeat case_match; try apply view_preload_images.
  cbn [fst]. by rewrite view_spawn, view_emit.
Qed.

(** The tasks that a quiet operation leaves behind. *)

Definition before_swap (c : handle) (fr : Frame) (t : Task) : Prop :=
  (∃ aw, t = InPreload c aw (Switch fr)) ∨ t = InTransition fr FadeOut.

Lemma tasks_performTabTransition fr s :
  tasks (performTabTransition fr s).1 = tasks s ++ [InTransition fr FadeOut].
Proof. unfold performTabTransition; simpl. by destruct (currentContent fr). Qed.

Lemma tasks_preload_images c fr s :
  ∃ t, tasks (preload_images c (Switch fr) s).1 = tasks s ++ [t] ∧ before_swap c fr t.
Proof.
  unfold preload_images.
  destruct (match panels (doc s) !! c with Some p => _ | None => _ end);
    cbn [fst preload_return].
  - eexists. rewrite tasks_performTabTransition. split; [reflexivity|by right].
  - eexists. split; [reflexivity|]. left. by eexists.
Qed.

Lemma tasks_preloadTabContent tab c fr s :
  ∃ t, tasks (preloadTabContent tab c (Switch fr) s).1 = tasks s ++ [t]
       ∧ before_swap c fr t.
Proof.
  unfold preloadTabContent.
  repeat case_match; try apply tasks_preload_images.
  eexists. split; [reflexivity|]. left. by eexists.
Qed.
End Views.

(** ** Class bookkeeping of the cross-fade, on selector keys *)

Section Swap.
Context {K : Type}.
Implicit Types (l : list (K * bool)) (hs : list handle).
Local Open Scope nat_scope.

Lemma fst_alter_set v h l : fst <$> alter (k_set_active v) h l = fst <$> l.
Proof. by apply image_alter. Qed.

Lemma fst_alter_opt_set v o l : fst <$> alter_opt (k_set_active v) o l = fst <$> l.
Proof. destruct o; [apply fst_alter_set|done]. Qed.

Lemma fst_alter_all_set v hs l : fst <$> alter_all (k_set_active v) hs l = fst <$> l.
Proof. by apply image_alter_all. Qed.

Lemma lookup_fst_image l l' i k' :
  fst <$> l' = fst <$> l → l' !! i = Some k' → ∃ k, l !! i = Some k ∧ k.1 = k'.1.
Proof.
  intros Hf Hi.
  assert (Hk : fst <$> (l !! i) = fst <$> (l' !! i))
    by (by rewrite <- !list_lookup_fmap, Hf).
  rewrite Hi in Hk. destruct (l !! i) as [k|]; [|done].
  exists k. split; [done|]. simpl in Hk. congruence.
Qed.
End Swap.

Section SwapActive.
Context {K : Type}.
Implicit Types (l : list ((bool * K) * bool)) (hs : list handle).
Local Open Scope nat_scope.

Lemma at_most_one_only tgt l :
  (∀ i k, l !! i = Some k → k_active k = true → i = tgt) → at_most_one k_active l.
Proof. intros H i j x y Hi Hj Hx Hy. rewrite (H i x), (H j y); done. Qed.

(** After the 300 ms callback only the target can carry [active]. *)
Lemma only_target_after_swap l cur tgt i k :
  at_most_one k_active l → cur = first_match k_active l →
  alter (k_set_active true) tgt (alter_opt (k_set_active false) cur l) !! i = Some k →
  k_active k = true → i = tgt.
Proof.
  intros Hone Hcur Hi Hk. destruct (decide (i = tgt)) as [|Hne]; [done|exfalso].
  rewrite list_lookup_alter_ne in Hi by done.
  destruct cur as [j|]; simpl in Hi.
  - symmetry in Hcur. apply first_match_Some in Hcur as (x & Hj & Hx & _).
    destruct (decide (j = i)) as [->|Hji].
    + rewrite list_lookup_alter_eq, Hj in Hi. simpl in Hi.
      injection Hi as <-. unfold k_active in Hk. simpl in Hk.
      by rewrite andb_false_r in Hk.
    + rewrite list_lookup_alter_ne in Hi by done.
      apply Hji. by apply (Hone j i x k).
  - symmetry in Hcur. rewrite first_match_None in Hcur.
    rewrite (Hcur i k Hi) in Hk. done.
Qed.

(** After [updateActiveStates] only the target can carry [active]. *)
Lemma only_target_after_reset l hs tgt i k :
  (∀ j x, l !! j = Some x → x.1.1 = true → j ∈ hs) →
  alter (k_set_active true) tgt (alter_all (k_set_active false) hs l) !! i = Some k →
  k_active k = true → i = tgt.
Proof.
  intros Hall Hi Hk. destruct (decide (i = tgt)) as [|Hne]; [done|exfalso].
  rewrite list_lookup_alter_ne in Hi by done.
  rewrite lookup_alter_all in Hi by done.
  unfold k_active in Hk. apply andb_true_iff in Hk as [Hatt Hact].
  destruct (decide (i ∈ hs)) as [Hin|Hnin].
  - destruct (l !! i); simpl in Hi; [|done]. injection Hi as <-. done.
  - apply Hnin. by apply (Hall i k).
Qed.
End SwapActive.

(** ** The invariant of the event loop *)

Definition task_frame (t : Task) : option Frame :=
  match t with
  | InPreload _ _ (Switch fr) => Some fr
  | InPreload _ _ Direct => None
  | InTransition fr _ => Some fr
  end.

(** The three outcomes of the lookup at line 250. *)
Lemma select_id_Found id d c :
  select_id id d = Found c ↔ no_id_selector id = false ∧ query_id id d = Some c.
Proof.
  unfold select_id. destruct (no_id_selector id); [by split; [|intros []]|].
  destruct (query_id id d); split; try by intros []. all: naive_solver.
Qed.

Lemma select_id_Null id d :
  select_id id d = Null ↔ no_id_selector id = false ∧ query_id id d = None.
Proof.
  unfold select_id. destruct (no_id_selector id); [by split; [|intros []]|].
  destruct (query_id id d); split; try by intros []. all: naive_solver.
Qed.

Lemma select_id_keys id s s' :
  pk s' = pk s → select_id id (doc s') = select_id id (doc s).
Proof. intros H. unfold select_id. by rewrite (query_id_keys id s s' H). Qed.

Lemma select_id_Invalid id d : select_id id d = Invalid ↔ no_id_selector id = true.
Proof.
  unfold select_id. destruct (no_id_selector id); [done|].
  by destruct (query_id id d).
Qed.

Section Invariant.
Local Open Scope list_scope.

(** The frame still names its trigger and the panel of that trigger. *)
Definition frame_ok (s : State) (fr : Frame) : Prop :=
  (∃ k, bk s !! button fr = Some k ∧ k.1.2 = targetTab fr) ∧
  first_match (kp_id (interp (targetTab fr))) (pk s) = Some (targetContent fr).

(** Until the swap, the elements captured as current are still the
    first active ones. *)
Definition frame_fresh (s : State) (fr : Frame) : Prop :=
  currentButton fr = first_match k_active (bk s) ∧
  currentContent fr = first_match k_active (pk s).

Definition task_ok (s : State) (t : Task) : Prop :=
  match t with
  | InPreload c _ (Switch fr) => c = targetContent fr ∧ frame_ok s fr ∧ frame_fresh s fr
  | InPreload _ _ Direct => False
  | InTransition fr FadeOut => frame_ok s fr ∧ frame_fresh s fr
  | InTransition fr FadeIn => frame_ok s fr
  end.

(** One switch at a time, flagged by [transitioning]; [tab-loading]
    sits on the trigger of the pending switch and nowhere else.  With
    nothing pending the flag is clear, or was left set by a request whose
    lookup threw. *)
Definition control_ok (s : State) : Prop :=
  match tasks s with
  | [] => ∀ h, ld s !! h ≠ Some true
  | [t] => transitioning s = true ∧ task_ok s t ∧
           ∀ h, ld s !! h = Some true → button <$> task_frame t = Some h
  | _ => False
  end.

(** At most one active trigger and panel; nothing detached; the cached
    NodeLists list every element. *)
Record dom_ok (s : State) : Prop := {
  one_button : at_most_one k_active (bk s);
  one_panel : at_most_one k_active (pk s);
  attached_b : ∀ h k, bk s !! h = Some k → k.1.1 = true;
  attached_p : ∀ h k, pk s !! h = Some k → k.1.1 = true;
  all_tabButtons : tabButtons s = all_matches (λ k, k.1.1) (bk s);
  all_tabContents : tabContents s = all_matches (λ k, k.1.1) (pk s)
}.

Definition Inv (s : State) : Prop := control_ok s ∧ dom_ok s.

Lemma view_inj s s' :
  view s' = view s →
  bk s' = bk s ∧ pk s' = pk s ∧ ld s' = ld s ∧ tabButtons s' = tabButtons s ∧
  tabContents s' = tabContents s ∧ activeTab s' = activeTab s ∧
  transitioning s' = transitioning s ∧ has_pushState s' = has_pushState s ∧
  tabContainers s' = tabContainers s.
Proof. unfold view, registry. intros [= -> -> -> -> -> -> -> -> ->]. done. Qed.

Lemma frame_ok_view s s' fr : view s' = view s → frame_ok s fr → frame_ok s' fr.
Proof. intros (Hb & Hp & _)%view_inj. unfold frame_ok. by rewrite Hb, Hp. Qed.

Lemma frame_fresh_view s s' fr :
  view s' = view s → frame_fresh s fr → frame_fresh s' fr.
Proof. intros (Hb & Hp & _)%view_inj. unfold frame_fresh. by rewrite Hb, Hp. Qed.

Lemma task_ok_view s s' t : view s' = view s → task_ok s t → task_ok s' t.
Proof.
  intros Hv. destruct t as [c aw [fr|]|fr []]; simpl;
    intuition eauto using frame_ok_view, frame_fresh_view.
Qed.

Lemma dom_ok_view s s' :
  bk s' = bk s → pk s' = pk s → tabButtons s' = tabButtons s →
  tabContents s' = tabContents s → dom_ok s → dom_ok s'.
Proof. intros Hb Hp HB HC [? ? ? ? ? ?]. split; rewrite ?Hb, ?Hp, ?HB, ?HC; done. Qed.

Lemma Inv_ext s s' : view s' = view s → tasks s' = tasks s → Inv s → Inv s'.
Proof.
  intros Hv Ht [Hc Hd].
  pose proof (view_inj _ _ Hv) as (Hb & Hp & Hl & HB & HC & _ & Htr & _).
  split; [|by apply (dom_ok_view s)].
  unfold control_ok in *. rewrite Ht, Hl, Htr.
  destruct (tasks s) as [|t [|]]; try done.
  destruct Hc as (? & ? & ?). split_and!; [done|by apply (task_ok_view s)|done].
Qed.

(** Quiet steps keep the invariant while the pending task moves to its
    next stage. *)
Lemma Inv_quiet t t' s s' :
  view s' = view s → tasks s = [t] → tasks s' = [t'] →
  task_frame t' = task_frame t → (task_ok s t → task_ok s t') →
  Inv s → Inv s'.
Proof.
  intros Hv Ht Ht' Hf Hok [Hc Hd].
  pose proof (view_inj _ _ Hv) as (Hb & Hp & Hl & HB & HC & _ & Htr & _).
  split; [|by apply (dom_ok_view s)].
  unfold control_ok in *. rewrite Ht', Hl, Htr. rewrite Ht in Hc.
  destruct Hc as (? & ? & ?).
  split_and!; [done|by apply (task_ok_view s), Hok|by rewrite Hf].
Qed.
End Invariant.

(** ** Effects of the class-changing operations *)

Section Effects.
Local Open Scope list_scope.
Implicit Types (s : State) (fr : Frame).

Lemma bk_set_active h v s :
  bk (upd_button h (b_set_active v) s) = alter (k_set_active v) h (bk s).
Proof. unfold bk; simpl. apply list_fmap_alter, Forall_forall. by intros. Qed.

Lemma pk_set_active h v s :
  pk (upd_panel h (p_set_active v) s) = alter (k_set_active v) h (pk s).
Proof. unfold pk; simpl. apply list_fmap_alter, Forall_forall. by intros. Qed.

Lemma ld_set_loading h v s :
  ld (upd_button h (b_set_loading v) s) = alter (λ _, v) h (ld s).
Proof. unfold ld; simpl. apply list_fmap_alter, Forall_forall. by intros. Qed.

Lemma bk_swap_classes fr s :
  bk (swap_classes fr s) =
  alter (k_set_active true) (button fr)
    (alter_opt (k_set_active false) (currentButton fr) (bk s)).
Proof.
  unfold swap_classes.
  change (bk (upd_panel ?h ?f ?t)) with (bk t). rewrite bk_set_active. f_equal.
  destruct (currentContent fr), (currentButton fr); cbn [upd_panel_opt upd_button_opt alter_opt].
  all: change (bk (upd_panel ?h ?f ?t)) with (bk t); by rewrite ?bk_set_active.
Qed.

Lemma pk_swap_classes fr s :
  pk (swap_classes fr s) =
  alter (k_set_active true) (targetContent fr)
    (alter_opt (k_set_active false) (currentContent fr) (pk s)).
Proof.
  unfold swap_classes. rewrite pk_set_active. f_equal.
  change (pk (upd_button ?h ?f ?t)) with (pk t).
  destruct (currentContent fr), (currentButton fr); cbn [upd_panel_opt upd_button_opt alter_opt].
  all: rewrite ?pk_set_active; by change (pk (upd_button ?h ?f ?t)) with (pk t).
Qed.

Lemma rest_swap_classes fr s :
  ld (swap_classes fr s) = ld s ∧ registry (swap_classes fr s) = registry s ∧
  activeTab (swap_classes fr s) = activeTab s ∧
  transitioning (swap_classes fr s) = transitioning s ∧
  tasks (swap_classes fr s) = tasks s.
Proof.
  unfold swap_classes.
  destruct (currentButton fr), (currentContent fr); simpl; split_and!; try done.
  all: unfold ld; simpl; by rewrite ?image_alter by done.
Qed.

Lemma tasks_updateTabAccessibility s : tasks (updateTabAccessibility s) = tasks s.
Proof.
  apply (forEach_preserves tasks). intros h t. unfold accessibility_of.
  destruct (buttons (doc t) !! h); [|done]. by destruct (query_id _ _).
Qed.

Lemma tasks_updateTabTitleDisplay h s : tasks (updateTabTitleDisplay h s) = tasks s.
Proof. unfold updateTabTitleDisplay. by repeat case_match. Qed.

Lemma view_updateActiveStates b c s :
  view (updateActiveStates b c s) =
  (alter (k_set_active true) b (alter_all (k_set_active false) (tabButtons s) (bk s)),
   alter (k_set_active true) c (alter_all (k_set_active false) (tabContents s) (pk s)),
   ld s, registry s, activeTab s, transitioning s).
Proof.
  unfold updateActiveStates, mark_active.
  rewrite view_updateTabAccessibility, view_updateTabTitleDisplay.
  rewrite forEach_upd_button. cbn [tabContents set_doc].
  rewrite forEach_upd_panel. cbn [doc set_doc buttons panels title].
  match goal with |- view ?S = _ => set (s1 := S) end.
  assert (Hb : bk s1 = alter (k_set_active true) b
                 (alter_all (k_set_active false) (tabButtons s) (bk s))).
  { unfold bk, s1. cbn.
    rewrite (list_fmap_alter b_key _ (k_set_active true)) by (apply Forall_forall; done).
    f_equal. by apply fmap_alter_all. }
  assert (Hp : pk s1 = alter (k_set_active true) c
                 (alter_all (k_set_active false) (tabContents s) (pk s))).
  { unfold pk, s1. cbn.
    rewrite (list_fmap_alter p_key _ (k_set_active true)) by (apply Forall_forall; done).
    f_equal. by apply fmap_alter_all. }
  assert (Hl : ld s1 = ld s).
  { unfold ld, s1. cbn. rewrite image_alter by done. by apply image_alter_all. }
  unfold view. by rewrite Hb, Hp, Hl.
Qed.

Lemma tasks_updateActiveStates b c s : tasks (updateActiveStates b c s) = tasks s.
Proof.
  unfold updateActiveStates, mark_active.
  rewrite tasks_updateTabAccessibility, tasks_updateTabTitleDisplay.
  cbn. rewrite forEach_upd_panel. cbn. by rewrite forEach_upd_button.
Qed.

Lemma view_switch_finally fr s :
  view (switch_finally fr s).1 =
  (bk s, pk s, alter (λ _, false) (button fr) (ld s), registry s, activeTab s, false).
Proof.
  unfold switch_finally, view. cbn [fst].
  change (ld (set_transitioning ?v ?t)) with (ld t). rewrite ld_set_loading.
  change (bk (set_transitioning ?v ?t)) with (bk t).
  rewrite bk_upd_button by done. done.
Qed.

Lemma view_switch_complete fr s :
  view (switch_complete fr s).1 =
  (alter (k_set_active true) (button fr)
     (alter_all (k_set_active false) (tabButtons s) (bk s)),
   alter (k_set_active true) (targetContent fr)
     (alter_all (k_set_active false) (tabContents s) (pk s)),
   alter (λ _, false) (button fr) (ld s), registry s, targetTab fr, false).
Proof.
  unfold switch_complete. rewrite view_switch_finally.
  unfold dispatchTabChangeEvent.
  set (s1 := updateActiveStates _ _ s).
  pose proof (view_updateActiveStates (button fr) (targetContent fr) s) as Hv.
  fold s1 in Hv.
  pose proof (f_equal (λ v, v.1.1.1.1.1) Hv) as Hb.
  pose proof (f_equal (λ v, v.1.1.1.1.2) Hv) as Hp.
  pose proof (f_equal (λ v, v.1.1.1.2) Hv) as Hl.
  pose proof (f_equal (λ v, v.1.1.2) Hv) as Hr. cbn in Hb, Hp, Hl, Hr.
  change (bk (emit ?e (set_activeTab ?a ?t))) with (bk t).
  change (pk (emit ?e (set_activeTab ?a ?t))) with (pk t).
  change (ld (emit ?e (set_activeTab ?a ?t))) with (ld t).
  change (registry (emit ?e (set_activeTab ?a ?t))) with (registry t).
  by rewrite Hb, Hp, Hl, Hr.
Qed.

Lemma tasks_switch_finally fr s : tasks (switch_finally fr s).1 = tasks s.
Proof. done. Qed.

Lemma tasks_switch_complete fr s : tasks (switch_complete fr s).1 = tasks s.
Proof.
  unfold switch_complete. rewrite tasks_switch_finally.
  unfold dispatchTabChangeEvent. cbn. apply tasks_updateActiveStates.
Qed.
End Effects.

(** ** Every step of the event loop keeps the invariant *)

Section Preservation.
Local Open Scope list_scope.
Implicit Types (s : State) (fr : Frame).

Lemma attached_fst {K} (l l' : list ((bool * K) * bool)) :
  fst <$> l' = fst <$> l →
  (∀ h k, l !! h = Some k → k.1.1 = true) → ∀ h k, l' !! h = Some k → k.1.1 = true.
Proof.
  intros Hf Hl h k' Hk'.
  destruct (lookup_fst_image l l' h k' Hf Hk') as (k & Hk & <-). eauto.
Qed.

Lemma all_matches_fst {K} (l l' : list ((bool * K) * bool)) :
  fst <$> l' = fst <$> l →
  all_matches (λ k, k.1.1) l' = all_matches (λ k, k.1.1) l.
Proof.
  intros Hf. apply matches_from_image.
  by apply (image_through fst _ (λ k, k.1)).
Qed.

Lemma first_match_id_fst id (l l' : list ((bool * string) * bool)) :
  fst <$> l' = fst <$> l → first_match (kp_id id) l' = first_match (kp_id id) l.
Proof.
  intros Hf. apply first_match_image.
  by apply (image_through fst _ (λ k, k.1 && bool_decide (k.2 = id))).
Qed.

Lemma frame_ok_fst s s' fr :
  fst <$> bk s' = fst <$> bk s → fst <$> pk s' = fst <$> pk s →
  frame_ok s fr → frame_ok s' fr.
Proof.
  intros Hb Hp [(k & Hk & Htab) Hq]. split.
  - destruct (lookup_fst_image (bk s') (bk s) (button fr) k (eq_sym Hb) Hk)
      as (k' & Hk' & Hfst).
    exists k'. split; [done|]. by rewrite Hfst.
  - by rewrite (first_match_id_fst _ _ _ Hp).
Qed.

Lemma dom_ok_swap s s' fr :
  dom_ok s → frame_fresh s fr →
  bk s' = alter (k_set_active true) (button fr)
            (alter_opt (k_set_active false) (currentButton fr) (bk s)) →
  pk s' = alter (k_set_active true) (targetContent fr)
            (alter_opt (k_set_active false) (currentContent fr) (pk s)) →
  tabButtons s' = tabButtons s → tabContents s' = tabContents s →
  dom_ok s'.
Proof.
  intros [H1 H2 H3 H4 H5 H6] [Hcb Hcc] Hb Hp HB HC.
  assert (Hfb : fst <$> bk s' = fst <$> bk s)
    by (by rewrite Hb, fst_alter_set, fst_alter_opt_set).
  assert (Hfp : fst <$> pk s' = fst <$> pk s)
    by (by rewrite Hp, fst_alter_set, fst_alter_opt_set).
  split.
  - apply (at_most_one_only (button fr)). intros i k Hi Hk. rewrite Hb in Hi.
    by apply (only_target_after_swap _ _ _ _ _ H1 Hcb Hi).
  - apply (at_most_one_only (targetContent fr)). intros i k Hi Hk. rewrite Hp in Hi.
    by apply (only_target_after_swap _ _ _ _ _ H2 Hcc Hi).
  - by apply (attached_fst (bk s)).
  - by apply (attached_fst (pk s)).
  - by rewrite HB, H5, (all_matches_fst _ _ Hfb).
  - by rewrite HC, H6, (all_matches_fst _ _ Hfp).
Qed.

Lemma dom_ok_reset s s' b c :
  dom_ok s →
  bk s' = alter (k_set_active true) b
            (alter_all (k_set_active false) (tabButtons s) (bk s)) →
  pk s' = alter (k_set_active true) c
            (alter_all (k_set_active false) (tabContents s) (pk s)) →
  tabButtons s' = tabButtons s → tabContents s' = tabContents s →
  dom_ok s'.
Proof.
  intros [H1 H2 H3 H4 H5 H6] Hb Hp HB HC.
  assert (Hfb : fst <$> bk s' = fst <$> bk s)
    by (by rewrite Hb, fst_alter_set, fst_alter_all_set).
  assert (Hfp : fst <$> pk s' = fst <$> pk s)
    by (by rewrite Hp, fst_alter_set, fst_alter_all_set).
  split.
  - apply (at_most_one_only b). intros i k Hi Hk. rewrite Hb in Hi.
    refine (only_target_after_reset _ _ _ _ _ _ Hi Hk).
    intros j x Hj Hx. rewrite H5. apply elem_of_all_matches. eauto.
  - apply (at_most_one_only c). intros i k Hi Hk. rewrite Hp in Hi.
    refine (only_target_after_reset _ _ _ _ _ _ Hi Hk).
    intros j x Hj Hx. rewrite H6. apply elem_of_all_matches. eauto.
  - by apply (attached_fst (bk s)).
  - by apply (attached_fst (pk s)).
  - by rewrite HB, H5, (all_matches_fst _ _ Hfb).
  - by rewrite HC, H6, (all_matches_fst _ _ Hfp).
Qed.

(** When the pending switch settles, [transitioning] and [tab-loading]
    are both cleared. *)
Lemma control_settle s s' t fr :
  control_ok s → tasks s = [t] → task_frame t = Some fr →
  tasks s' = [] → transitioning s' = false →
  ld s' = alter (λ _, false) (button fr) (ld s) →
  control_ok s'.
Proof.
  intros Hc Ht Hfr Ht' Htr Hl. unfold control_ok in *. rewrite Ht', Hl.
  rewrite Ht, Hfr in Hc. destruct Hc as (_ & _ & Hld).
  intros h Hh. rewrite list_lookup_alter in Hh.
  destruct (decide (button fr = h)) as [->|Hne].
  - by destruct (ld s !! h).
  - specialize (Hld h Hh). simpl in Hld. congruence.
Qed.

Lemma idle_tasks s : control_ok s → transitioning s = false → tasks s = [].
Proof.
  unfold control_ok. destruct (tasks s) as [|t [|]]; [done| |done].
  intros (? & _) ?. congruence.
Qed.

Lemma busy_tasks s t i : control_ok s → tasks s !! i = Some t → tasks s = [t] ∧ i = 0.
Proof.
  unfold control_ok. destruct (tasks s) as [|t' [|]]; [done| |done].
  intros _. destruct i; simpl; [by intros [= ->]|done].
Qed.
End Preservation.

(** Projections of the plain field updates compute. *)
Ltac simp_st :=
  unfold ld, bk, pk, registry in *;
  cbn [emit set_tasks spawn set_hash set_transitioning set_activeTab doc tasks
       tabButtons tabContents tabContainers has_pushState activeTab transitioning
       log location_hash] in *.

Section Steps.
Local Open Scope list_scope.
Implicit Types (s : State) (fr : Frame).

Lemma view_eq s B P L R A T :
  view s = (B, P, L, R, A, T) →
  bk s = B ∧ pk s = P ∧ ld s = L ∧ registry s = R ∧ activeTab s = A ∧
  transitioning s = T.
Proof. unfold view. intros [= ? ? ? ? ? ?]. done. Qed.

Lemma registry_eq s s' :
  registry s' = registry s →
  tabButtons s' = tabButtons s ∧ tabContents s' = tabContents s.
Proof. unfold registry. intros [= ? ? ? ?]. done. Qed.

Lemma task_ok_before_swap s c fr t aw :
  task_ok s (InPreload c aw (Switch fr)) → before_swap c fr t → task_ok s t.
Proof. intros (-> & ? & ?) [[aw' ->]| ->]; simpl; auto. Qed.

Lemma frame_before_swap c fr t : before_swap c fr t → task_frame t = Some fr.
Proof. by intros [[aw' ->]| ->]. Qed.

(** The pending switch gives up: catch, then finally. *)
Lemma Inv_switch_catch e t fr s s1 :
  Inv (set_tasks [t] s) → tasks s = [] → task_frame t = Some fr →
  view s1 = view s → tasks s1 = tasks s →
  Inv (switch_catch e fr s1).1.
Proof.
  intros [Hc Hd] Hts Hfr Hv1 Ht1. unfold switch_catch.
  pose proof (view_switch_finally fr (emit [ConsoleError e] s1)) as Hv.
  apply view_eq in Hv as (Hb & Hp & Hl & (HB & HC)%registry_eq & _ & Htr).
  apply view_inj in Hv1 as (Hb1 & Hp1 & Hl1 & HB1 & HC1 & _).
  simp_st. split.
  - apply (control_settle (set_tasks [t] s) _ t fr); try done; simp_st.
    + rewrite tasks_switch_finally. simp_st. congruence.
    + congruence.
  - apply (dom_ok_view (set_tasks [t] s)); try done; simp_st; congruence.
Qed.

Lemma Inv_next t t' s s' :
  Inv (set_tasks [t] s) → view s' = view s → tasks s' = [t'] →
  task_frame t' = task_frame t → (task_ok s t → task_ok s t') → Inv s'.
Proof.
  intros HI Hv Ht Hf Hok. by apply (Inv_quiet t t' (set_tasks [t] s) s').
Qed.

Lemma Inv_resume t r s p :
  Inv (set_tasks [t] s) → tasks s = [] → resume t r s = Some p → Inv p.1.
Proof.
  intros HI Hts Hres. pose proof HI as [Hc Hd].
  unfold control_ok in Hc. cbn [tasks set_tasks] in Hc.
  destruct Hc as (Htr & Hok & Hld).
  destruct t as [c aw [fr|]|fr timer]; [|done|].
  - (* inside preloadTabContent *)
    destruct aw, r; try discriminate; cbn [resume] in Hres; injection Hres as <-;
      cbn [fst].
    + (* the fetch resolved *)
      apply (Inv_next _ (InPreload c AwText (Switch fr)) s _ HI); [done| |done..].
      cbn. by rewrite Hts.
    + (* the fetch rejected *)
      unfold preload_catch, preload_throw.
      apply (Inv_switch_catch _ _ _ s _ HI); try done. by apply view_upd_panel.
    + (* the body arrived *)
      set (s1 := upd_panel c p_set_loaded (upd_panel c _ s)).
      assert (Hv1 : view s1 = view s).
      { unfold s1. rewrite !view_upd_panel; done. }
      destruct (tasks_preload_images c fr s1) as (t' & Ht' & Hbs).
      apply (Inv_next _ t' s _ HI).
      * by rewrite view_preload_images, Hv1.
      * rewrite Ht'. unfold s1. cbn. by rewrite Hts.
      * by apply frame_before_swap in Hbs.
      * intros H. by apply (task_ok_before_swap _ _ _ _ _ H).
    + (* reading the body failed *)
      unfold preload_catch, preload_throw.
      apply (Inv_switch_catch _ _ _ s _ HI); try done. by apply view_upd_panel.
    + (* the images loaded *)
      unfold preload_return.
      apply (Inv_next _ (InTransition fr FadeOut) s _ HI).
      * by rewrite view_performTabTransition.
      * by rewrite tasks_performTabTransition, Hts.
      * done.
      * intros (-> & ? & ?). by split.
    + (* an image failed *)
      unfold preload_throw. by apply (Inv_switch_catch _ _ _ s _ HI).
  - (* inside performTabTransition *)
    destruct timer, r; try discriminate; cbn [resume] in Hres; injection Hres as <-;
      cbn [fst].
    + (* 300 ms: the class swap *)
      destruct Hok as [Hfo Hff].
      pose proof (rest_swap_classes fr s) as (Hl & (HB & HC)%registry_eq & _ & Ht & Hts').
      pose proof (bk_swap_classes fr s) as Hb.
      pose proof (pk_swap_classes fr s) as Hp.
      set (s2 := swap_classes fr s) in *. clearbody s2.
      split.
      * unfold control_ok. cbn [tasks spawn emit set_tasks]. rewrite Hts', Hts.
        cbn [app]. split_and!.
        -- change (transitioning s2 = true). by rewrite Ht.
        -- apply (frame_ok_fst (set_tasks [InTransition fr FadeOut] s)); [..|done].
           ++ change (fst <$> bk s2 = fst <$> bk s).
              by rewrite Hb, fst_alter_set, fst_alter_opt_set.
           ++ change (fst <$> pk s2 = fst <$> pk s).
              by rewrite Hp, fst_alter_set, fst_alter_opt_set.
        -- intros h Hh. apply Hld. change (ld s2 !! h = Some true) in Hh.
           by rewrite Hl in Hh.
      * by apply (dom_ok_swap (set_tasks [InTransition fr FadeOut] s) _ fr).
    + (* 50 ms: the switch completes *)
      set (s1 := upd_panel (targetContent fr) fade_in s).
      assert (Hv1 : view s1 = view s) by (by apply view_upd_panel).
      apply view_inj in Hv1 as (Hb1 & Hp1 & Hl1 & HB1 & HC1 & _).
      pose proof (view_switch_complete fr s1) as Hv.
      apply view_eq in Hv as (Hb & Hp & Hl & (HB & HC)%registry_eq & _ & Htr').
      split.
      * apply (control_settle (set_tasks [InTransition fr FadeIn] s) _
                 (InTransition fr FadeIn) fr); try done;
          first [by rewrite tasks_switch_complete | by rewrite Hl, Hl1].
      * apply (dom_ok_reset (set_tasks [InTransition fr FadeIn] s) _
                 (button fr) (targetContent fr)); try done;
          first [by rewrite Hb, Hb1, HB1 | by rewrite Hp, Hp1, HC1
                | by rewrite HB | by rewrite HC].
Qed.

Lemma Inv_switchToTab btn s : Inv s → Inv (switchToTab btn s).1.
Proof.
  intros HI. pose proof HI as [Hc Hd]. unfold switchToTab.
  destruct (buttons (doc s) !! btn) as [b|] eqn:Eb; [|done].
  destruct (transitioning s) eqn:Etr; [done|].
  destruct (b_active b) eqn:Eact; [done|]. cbn [orb].
  pose proof (idle_tasks _ Hc Etr) as Hts.
  change (doc (set_transitioning true s)) with (doc s).
  destruct (select_id _ _) as [c| |] eqn:Eq; cbn [fst];
    [apply select_id_Found in Eq as [_ Eq]| |].
  - (* the switch starts *)
    match goal with
    | |- Inv (preloadTabContent ?tab c (Switch ?f) ?t).1 =>
        set (fr := f); set (s1 := t)
    end.
    assert (Hv1 : view s1 =
                  (bk s, pk s, alter (λ _, true) btn (ld s), registry s,
                   activeTab s, true)).
    { unfold s1, view. rewrite ld_set_loading, bk_upd_button by done.
      unfold push_hash. cbn [has_pushState set_transitioning].
      by destruct (has_pushState s). }
    assert (Ht1 : tasks s1 = []).
    { unfold s1, push_hash. cbn. by destruct (has_pushState s). }
    apply view_eq in Hv1 as (Hb & Hp & Hl & (HB & HC)%registry_eq & _ & Htr').
    destruct (tasks_preloadTabContent (b_data_tab b) c fr s1) as (t' & Ht' & Hbs).
    pose proof (view_preloadTabContent (b_data_tab b) c fr s1) as Hv.
    apply view_inj in Hv as (Hb' & Hp' & Hl' & HB' & HC' & _ & Htr'' & _).
    rewrite Ht1 in Ht'. simpl in Ht'.
    assert (Hfo : frame_ok s fr).
    { split.
      - exists (b_key b). split; [|done]. unfold bk, fr. cbn [button].
        by rewrite list_lookup_fmap, Eb.
      - by rewrite <- query_id_view. }
    assert (Hff : frame_fresh s fr).
    { split; [apply (first_active_button_view s)|apply (first_active_panel_view s)]. }
    split.
    + unfold control_ok. rewrite Ht'. split_and!.
      * by rewrite Htr''.
      * assert (Hok : task_ok s t').
        { destruct Hbs as [[aw ->]| ->]; simpl; auto. }
        destruct t' as [c' aw' [fr'|]|fr' []]; simpl in *;
          unfold frame_ok, frame_fresh in *; by rewrite ?Hb', ?Hp', ?Hb, ?Hp.
      * intros h Hh. rewrite (frame_before_swap _ _ _ Hbs). simpl. f_equal.
        rewrite Hl', Hl, list_lookup_alter in Hh.
        destruct (decide (btn = h)) as [|Hne]; [done|].
        unfold control_ok in Hc. rewrite Hts in Hc.
        by destruct (Hc h).
    + apply (dom_ok_view s); try done.
      * by rewrite Hb'.
      * by rewrite Hp'.
      * by rewrite HB'.
      * by rewrite HC'.
  - (* no panel for this trigger *)
    apply (Inv_ext s); [|done..].
    unfold view. cbn [transitioning set_transitioning]. by rewrite Etr.
  - (* the lookup throws *)
    split; [|by apply (dom_ok_view s)].
    unfold control_ok in *. cbn [tasks set_transitioning]. rewrite Hts in *.
    exact Hc.
Qed.

Theorem Inv_step e s : Inv s → Inv (step e s).
Proof.
  intros HI. destruct e as [btn|i r]; simpl.
  - by apply Inv_switchToTab.
  - destruct (tasks s !! i) as [t|] eqn:Et; [|done].
    destruct (busy_tasks s t i (proj1 HI) Et) as [Hts ->].
    rewrite Hts. cbn [delete list_delete].
    destruct (resume t r _) as [[s' st]|] eqn:Er; [|done].
    apply (Inv_resume t r (set_tasks [] s) (s', st)); [|done..].
    by apply (Inv_ext s).
Qed.

Lemma Inv_run es s : Inv s → Inv (run es s).
Proof.
  unfold run. revert s. induction es as [|e es IH]; intros s HI; simpl; [done|].
  by apply IH, Inv_step.
Qed.
End Steps.

(** ** Counting matches *)

Section Counting.
Context {A : Type}.
Implicit Types (sel : A → bool) (l : list A).
Local Open Scope nat_scope.

Lemma matches_from_nil sel l k :
  (∀ i x, l !! i = Some x → sel x = false) → matches_from sel k l = [].
Proof.
  revert k. induction l as [|a l IH]; intros k H; simpl; [done|].
  rewrite (H 0 a eq_refl). apply IH. intros i x Hi. by apply (H (S i)).
Qed.

Lemma matches_from_singleton sel l k h :
  (∀ i x, l !! i = Some x → sel x = bool_decide (i = h)) → is_Some (l !! h) →
  matches_from sel k l = [k + h].
Proof.
  revert k h. induction l as [|a l IH]; intros k h H [x Hx]; [done|]. simpl.
  destruct h as [|h].
  - rewrite (H 0 a eq_refl). simpl. rewrite Nat.add_0_r. f_equal.
    apply matches_from_nil. intros i y Hi. by rewrite (H (S i) y Hi).
  - rewrite (H 0 a eq_refl). simpl.
    rewrite (IH (S k) h); [f_equal; lia| |by exists x].
    intros i y Hi. rewrite (H (S i) y Hi).
    apply bool_decide_ext. lia.
Qed.

Lemma all_matches_singleton sel l h :
  (∀ i x, l !! i = Some x → sel x = bool_decide (i = h)) → is_Some (l !! h) →
  all_matches sel l = [h].
Proof. intros. unfold all_matches. by rewrite (matches_from_singleton sel l 0 h). Qed.

Lemma count_at_most_one sel l k :
  length (matches_from sel k l) ≤ 1 → at_most_one sel l.
Proof.
  revert k. induction l as [|a l IH]; intros k Hlen i j x y Hi Hj Hx Hy; [done|].
  simpl in Hlen. destruct (sel a) eqn:Ha.
  - assert (Hnone : ∀ n z, l !! n = Some z → sel z = false).
    { intros n z Hn. destruct (sel z) eqn:Hz; [|done].
      assert (Hin : S k + n ∈ matches_from sel (S k) l).
      { apply elem_of_matches_from. exists z. split_and!; [lia| |done].
        by replace (S k + n - S k) with n by lia. }
      destruct (matches_from sel (S k) l); [by apply elem_of_nil in Hin|].
      simpl in Hlen. lia. }
    destruct i as [|i], j as [|j]; simpl in *; try done.
    + by rewrite (Hnone j y Hj) in Hy.
    + by rewrite (Hnone i x Hi) in Hx.
    + by rewrite (Hnone j y Hj) in Hy.
  - destruct i as [|i], j as [|j]; simpl in *; try congruence.
    f_equal. by apply (IH (S k) Hlen i j x y).
Qed.

Lemma at_most_one_count sel l k :
  at_most_one sel l → length (matches_from sel k l) ≤ 1.
Proof.
  revert k. induction l as [|a l IH]; intros k H1; simpl; [lia|].
  destruct (sel a) eqn:Ha.
  - rewrite matches_from_nil; [simpl; lia|].
    intros i x Hi. destruct (sel x) eqn:Hx; [|done].
    by specialize (H1 0 (S i) a x eq_refl Hi Ha Hx).
  - apply IH. intros i j x y Hi Hj Hx Hy.
    by specialize (H1 (S i) (S j) x y Hi Hj Hx Hy) as [= ->].
Qed.
End Counting.

(** ** Start-up *)

(** Freshly parsed markup: every element is attached, no trigger carries
    the transient [tab-loading] class, and at most one trigger and one
    panel are marked active. *)
Definition markup_ok (d : Document) : Prop :=
  Forall (λ b, b_attached b = true ∧ b_loading b = false) (buttons d) ∧
  Forall (λ p, p_attached p = true) (panels d) ∧
  length (all_matches sel_tab_btn_active (buttons d)) ≤ 1 ∧
  length (all_matches sel_tab_content_active (panels d)) ≤ 1.

(** The instance as the constructor leaves it before [init] runs. *)
Definition fresh_Tabs (d : Document) (containers : nat) (hash : string) (push : bool)
  : State :=
  {| tabContainers := containers;
     tabButtons := all_matches sel_tab_btn (buttons d);
     tabContents := all_matches sel_tab_content (panels d);
     activeTab := None; transitioning := false;
     doc := d; location_hash := hash; has_pushState := push;
     tasks := []; log := [] |}.

Section Startup.
Local Open Scope list_scope.

Lemma new_Tabs_init d n hash push : new_Tabs d n hash push = init (fresh_Tabs d n hash push).
Proof. done. Qed.

Lemma Inv_fresh d n hash push : markup_ok d → Inv (fresh_Tabs d n hash push).
Proof.
  intros (Hb & Hp & H1b & H1p). split.
  - intros h Hh. unfold ld in Hh. cbn in Hh.
    rewrite list_lookup_fmap in Hh.
    destruct (buttons d !! h) as [b|] eqn:Eb; [|done].
    rewrite Forall_lookup in Hb. destruct (Hb h b Eb) as [_ Hl].
    simpl in Hh. congruence.
  - split; unfold bk, pk; cbn.
    + apply (at_most_one_image sel_tab_btn_active _ (buttons d));
        [by rewrite <- list_fmap_compose|by apply (count_at_most_one _ _ 0)].
    + apply (at_most_one_image sel_tab_content_active _ (panels d));
        [by rewrite <- list_fmap_compose|by apply (count_at_most_one _ _ 0)].
    + intros h k Hk. rewrite list_lookup_fmap in Hk.
      destruct (buttons d !! h) as [b|] eqn:Eb; [|done]. injection Hk as <-.
      rewrite Forall_lookup in Hb. by destruct (Hb h b Eb).
    + intros h k Hk. rewrite list_lookup_fmap in Hk.
      destruct (panels d !! h) as [p|] eqn:Ep; [|done]. injection Hk as <-.
      rewrite Forall_lookup in Hp. by apply (Hp h p Ep).
    + apply matches_from_image. by rewrite <- list_fmap_compose.
    + apply matches_from_image. by rewrite <- list_fmap_compose.
Qed.

Lemma Inv_updateTabAccessibility s : Inv s → Inv (updateTabAccessibility s).
Proof.
  apply Inv_ext; [apply view_updateTabAccessibility|apply tasks_updateTabAccessibility].
Qed.

Lemma Inv_setInitialActiveTab s : Inv s → Inv (setInitialActiveTab s).
Proof.
  intros HI. unfold setInitialActiveTab. repeat case_match; try done;
    by apply Inv_switchToTab.
Qed.

Lemma Inv_init s : Inv s → Inv (init s).
Proof.
  intros HI. unfold init. case_match; [done|].
  by apply Inv_updateTabAccessibility, Inv_setInitialActiveTab.
Qed.

(** Every state the event loop can reach from well-formed markup
    satisfies the invariant. *)
Theorem Inv_reachable d n hash push es :
  markup_ok d → Inv (run es (new_Tabs d n hash push)).
Proof. intros Hd. by apply Inv_run, Inv_init, Inv_fresh. Qed.
End Startup.

(** ** What one step does to the pending switch *)

(** The settlement of the call that an event starts or resumes. *)
Definition step_status (e : Event) (s : State) : option Status :=
  match e with
  | Activate btn => Some (switchToTab btn s).2
  | Resume i r =>
      match tasks s !! i with
      | None => None
      | Some t => snd <$> resume t r (set_tasks (delete i (tasks s)) s)
      end
  end.

Definition pending_frame (s : State) : option Frame :=
  match tasks s with
  | [t] => task_frame t
  | _ => None
  end.

Section StepSpec.
Implicit Types (s : State) (fr : Frame).

Lemma log_updateTabAccessibility s : log (updateTabAccessibility s) = log s.
Proof.
  apply (forEach_preserves log). intros h t. unfold accessibility_of.
  destruct (buttons (doc t) !! h); [|done]. by destruct (query_id _ _).
Qed.

Lemma log_updateActiveStates b c s : log (updateActiveStates b c s) = log s.
Proof.
  unfold updateActiveStates, mark_active. rewrite log_updateTabAccessibility.
  unfold updateTabTitleDisplay.
  rewrite forEach_upd_button. cbn [tabContents set_doc].
  rewrite forEach_upd_panel. by repeat case_match.
Qed.

Lemma log_switch_complete fr s :
  log (switch_complete fr s).1 =
  log s ++ [TabChangeContainer (targetTab fr); TabChangeWindow (targetTab fr)].
Proof.
  unfold switch_complete, switch_finally, dispatchTabChangeEvent. cbn.
  by rewrite log_updateActiveStates.
Qed.

Lemma status_preload_images c fr s : (preload_images c (Switch fr) s).2 = Suspended.
Proof. unfold preload_images. by case_match. Qed.

Lemma status_preloadTabContent tab c fr s :
  (preloadTabContent tab c (Switch fr) s).2 = Suspended.
Proof.
  unfold preloadTabContent. repeat case_match; try apply status_preload_images. done.
Qed.

(** The failure path: catch, then finally. *)
Lemma switch_catch_spec e fr s :
  let p := switch_catch e fr s in
  tasks p.1 = tasks s ∧ p.2 = Settled Fulfilled ∧ transitioning p.1 = false ∧
  activeTab p.1 = activeTab s ∧ log p.1 = log s ++ [ConsoleError e] ∧
  location_hash p.1 = location_hash s.
Proof. done. Qed.

Definition still_pending (fr : Frame) (s : State) (p : State * Status) : Prop :=
  pending_frame p.1 = Some fr ∧ activeTab p.1 = activeTab s ∧
  transitioning p.1 = transitioning s ∧ p.2 = Suspended.

Definition completed (fr : Frame) (s : State) (p : State * Status) : Prop :=
  tasks p.1 = [] ∧ p.2 = Settled Fulfilled ∧ transitioning p.1 = false ∧
  activeTab p.1 = targetTab fr ∧
  log p.1 = log s ++ [TabChangeContainer (targetTab fr); TabChangeWindow (targetTab fr)].

Definition failed (s : State) (p : State * Status) : Prop :=
  tasks p.1 = [] ∧ p.2 = Settled Fulfilled ∧ transitioning p.1 = false ∧
  activeTab p.1 = activeTab s ∧ ∃ err, log p.1 = log s ++ [ConsoleError err].

Lemma failed_catch e fr s s1 :
  tasks s1 = [] → activeTab s1 = activeTab s → log s1 = log s →
  failed s (switch_catch e fr s1).
Proof.
  intros Ht Ha Hl. unfold failed. cbn. rewrite Ht, Ha, Hl.
  split_and!; try done. by eexists.
Qed.

Lemma still_pending_fields c fr t s s1 p :
  activeTab p.1 = activeTab s → transitioning p.1 = transitioning s →
  tasks p.1 = tasks s1 ++ [t] → tasks s1 = [] →
  before_swap c fr t → p.2 = Suspended → still_pending fr s p.
Proof.
  intros Ha Htr Ht Ht1 Hbs Hst. rewrite Ht1 in Ht. simpl in Ht.
  unfold still_pending, pending_frame. rewrite Ht.
  by rewrite (frame_before_swap _ _ _ Hbs).
Qed.

Lemma still_pending_before_swap c fr t s s1 p :
  view p.1 = view s → tasks p.1 = tasks s1 ++ [t] → tasks s1 = [] →
  before_swap c fr t → p.2 = Suspended → still_pending fr s p.
Proof.
  intros Hv. apply view_inj in Hv as (_ & _ & _ & _ & _ & Ha & Htr & _).
  by apply still_pending_fields.
Qed.

Lemma resume_spec t r s p fr :
  task_ok s t → task_frame t = Some fr → tasks s = [] →
  resume t r s = Some p →
  still_pending fr s p ∨ completed fr s p ∨ failed s p.
Proof.
  intros Hok Hfr Hts Hres.
  destruct t as [c aw [fr'|]|fr' timer]; [|done|]; simpl in Hfr;
    injection Hfr as ->.
  - destruct aw, r; try discriminate; cbn [resume] in Hres; injection Hres as <-.
    + left. unfold still_pending, pending_frame. cbn. by rewrite Hts.
    + right; right. unfold preload_catch, preload_throw. by apply failed_catch.
    + left.
      set (s1 := upd_panel c p_set_loaded (upd_panel c _ s)).
      destruct (tasks_preload_images c fr s1) as (t' & Ht' & Hbs).
      apply (still_pending_before_swap c fr t' s s1); try done.
      * rewrite view_preload_images. unfold s1. by rewrite !view_upd_panel.
      * apply status_preload_images.
    + right; right. unfold preload_catch, preload_throw. by apply failed_catch.
    + left. unfold preload_return.
      apply (still_pending_before_swap c fr (InTransition fr FadeOut) s s); try done.
      * apply view_performTabTransition.
      * apply tasks_performTabTransition.
      * by right.
    + right; right. unfold preload_throw. by apply failed_catch.
  - destruct timer, r; try discriminate; cbn [resume] in Hres; injection Hres as <-.
    + left. pose proof (rest_swap_classes fr s) as (_ & _ & Ha & Htr & Ht).
      unfold still_pending, pending_frame. cbn [fst snd tasks spawn emit set_tasks
        activeTab transitioning]. rewrite Ht, Hts. done.
    + right; left.
      set (s1 := upd_panel (targetContent fr) fade_in s).
      pose proof (view_switch_complete fr s1) as Hv.
      apply view_eq in Hv as (_ & _ & _ & _ & Ha & Htr).
      unfold completed. rewrite tasks_switch_complete, log_switch_complete.
      split_and!; done.
Qed.

Definition started (btn : handle) (s : State) (p : State * Status) : Prop :=
  ∃ b fr, buttons (doc s) !! btn = Some b ∧ b_active b = false ∧
          button fr = btn ∧ targetTab fr = b_data_tab b ∧
          select_id (interp (b_data_tab b)) (doc s) = Found (targetContent fr) ∧
          still_pending fr (set_transitioning true s) p.

Definition missing_panel (btn : handle) (s : State) (p : State * Status) : Prop :=
  ∃ b, buttons (doc s) !! btn = Some b ∧ b_active b = false ∧
       select_id (interp (b_data_tab b)) (doc s) = Null ∧
       p = (set_transitioning false
              (emit [Warn (interp (b_data_tab b))] (set_transitioning true s)),
            Settled Fulfilled).

Definition lookup_threw (btn : handle) (s : State) (p : State * Status) : Prop :=
  ∃ b, buttons (doc s) !! btn = Some b ∧ b_active b = false ∧
       select_id (interp (b_data_tab b)) (doc s) = Invalid ∧
       p = (set_transitioning true s, Settled (Rejected SyntaxError)).

Lemma switchToTab_spec btn s :
  tasks s = [] → transitioning s = false →
  switchToTab btn s = (s, Settled Fulfilled) ∨
  missing_panel btn s (switchToTab btn s) ∨ started btn s (switchToTab btn s) ∨
  lookup_threw btn s (switchToTab btn s).
Proof.
  intros Hts Htr. unfold switchToTab.
  destruct (buttons (doc s) !! btn) as [b|] eqn:Eb; [|by left].
  rewrite Htr. destruct (b_active b) eqn:Eact; [by left|]. cbn [orb].
  change (doc (set_transitioning true s)) with (doc s).
  destruct (select_id _ _) as [c| |] eqn:Eq; [|right; left; by exists b|].
  2:{ right; right; right. by exists b. }
  - right; right; left.
    match goal with
    | |- started _ _ (preloadTabContent ?tab c (Switch ?f) ?t) =>
        set (fr := f); set (s1 := t)
    end.
    exists b, fr. split_and!; try done.
    assert (Hv1 : view s1 = view (upd_button btn (b_set_loading true)
                                    (set_transitioning true s))).
    { unfold s1, push_hash. by case_match. }
    assert (Ht1 : tasks s1 = []).
    { unfold s1, push_hash. cbn. by case_match. }
    destruct (tasks_preloadTabContent (b_data_tab b) c fr s1) as (t' & Ht' & Hbs).
    pose proof (view_preloadTabContent (b_data_tab b) c fr s1) as Hv.
    rewrite Hv1 in Hv. apply view_inj in Hv as (_ & _ & _ & _ & _ & Ha & Htr' & _).
    apply (still_pending_fields c fr t' _ s1); try done.
    apply status_preloadTabContent.
Qed.
End StepSpec.

(** Run events up to the first moment the controller is idle again. *)
Fixpoint run_until_idle (es : list Event) (s : State) : State :=
  match es with
  | [] => s
  | e :: es' =>
      let s' := step e s in
      if transitioning s' then run_until_idle es' s' else s'
  end.

Definition settled_complete (fr : Frame) (s' : State) : Prop :=
  transitioning s' = false ∧ tasks s' = [] ∧ activeTab s' = targetTab fr ∧
  last (log s') = Some (TabChangeWindow (targetTab fr)).

Definition settled_failed (s s' : State) : Prop :=
  transitioning s' = false ∧ tasks s' = [] ∧ activeTab s' = activeTab s ∧
  ∃ err, last (log s') = Some (ConsoleError err).

Section Pending.
Implicit Types (s : State) (fr : Frame).

Lemma Inv_pending s fr :
  Inv s → pending_frame s = Some fr →
  ∃ t, tasks s = [t] ∧ task_frame t = Some fr ∧ task_ok s t ∧ transitioning s = true.
Proof.
  intros [Hc _] Hp. unfold pending_frame, control_ok in *.
  destruct (tasks s) as [|t [|]]; try done.
  destruct Hc as (? & ? & _). by exists t.
Qed.

(** While a switch is pending, an event either leaves it pending with
    the same frame, completes it, or makes it fail. *)
Lemma pending_step e s fr :
  Inv s → pending_frame s = Some fr →
  (pending_frame (step e s) = Some fr ∧ activeTab (step e s) = activeTab s ∧
   transitioning (step e s) = true) ∨
  settled_complete fr (step e s) ∨ settled_failed s (step e s).
Proof.
  intros HI Hp. destruct (Inv_pending s fr HI Hp) as (t & Hts & Hfr & Hok & Htr).
  destruct e as [btn|i r]; simpl.
  - left. unfold switchToTab. rewrite Htr.
    destruct (buttons (doc s) !! btn); by simpl.
  - rewrite Hts. destruct i as [|i]; simpl; [|by left].
    destruct (resume t r _) as [p|] eqn:Er; [|by left].
    assert (Hspec := resume_spec t r (set_tasks [] s) p fr Hok Hfr eq_refl Er).
    destruct p as [s' st]. simpl.
    destruct Hspec as [(H1 & H2 & H3 & _)|[(H1 & _ & H3 & H4 & H5)|(H1 & _ & H3 & H4 & err & H5)]];
      simpl in *.
    + left. by rewrite H3.
    + right; left. split_and!; try done. by rewrite H5, last_app.
    + right; right. split_and!; try done. exists err. by rewrite H5, last_app.
Qed.

Lemma run_until_idle_settles es s fr :
  Inv s → pending_frame s = Some fr →
  let s' := run_until_idle es s in
  transitioning s' = false →
  settled_complete fr s' ∨
  (transitioning s' = false ∧ tasks s' = [] ∧ activeTab s' = activeTab s ∧
   ∃ err, last (log s') = Some (ConsoleError err)).
Proof.
  revert s. induction es as [|e es IH]; intros s HI Hp; simpl.
  - destruct (Inv_pending s fr HI Hp) as (_ & _ & _ & _ & Htr). congruence.
  - destruct (pending_step e s fr HI Hp) as [(Hp' & Ha & Htr)|[Hc|Hf]].
    + rewrite Htr. intros Hidle.
      destruct (IH (step e s) (Inv_step e s HI) Hp' Hidle) as [?|(? & ? & Ha' & ?)];
        [by left|right]. by rewrite <- Ha.
    + destruct Hc as (Htr & ?). rewrite Htr. intros _. by left.
    + destruct Hf as (Htr & ? & ? & ?). rewrite Htr. intros _. by right.
Qed.
End Pending.

(** ** What no step ever changes

    No event detaches an element, renames a tab or a panel, clears
    [data-loaded] or touches the cached NodeLists. *)

Definition b_static (b : Button) : bool * option string := (b_attached b, b_data_tab b).
Definition p_static (p : Panel) : bool * string := (p_attached p, p_id p).

Record stable (s s' : State) : Prop := {
  st_buttons : b_static <$> buttons (doc s') = b_static <$> buttons (doc s);
  st_panels : p_static <$> panels (doc s') = p_static <$> panels (doc s);
  st_loaded : ∀ c, (p_data_loaded <$> panels (doc s)) !! c = Some true →
                   (p_data_loaded <$> panels (doc s')) !! c = Some true;
  st_registry : registry s' = registry s
}.

Section Stable.
Implicit Types (s x y : State).

Lemma stable_refl s : stable s s.
Proof. by split. Qed.

Lemma stable_trans s x y : stable s x → stable x y → stable s y.
Proof.
  intros [H1 H2 H3 H4] [G1 G2 G3 G4]. split; [congruence|congruence|auto|congruence].
Qed.

Lemma stable_same_lists s x y :
  buttons (doc y) = buttons (doc x) → panels (doc y) = panels (doc x) →
  registry y = registry x → stable s x → stable s y.
Proof. intros Hb Hp Hr [H1 H2 H3 H4]. split; rewrite ?Hb, ?Hp, ?Hr; done. Qed.

Lemma stable_upd_button h f s x :
  (∀ b, b_static (f b) = b_static b) → stable s x → stable s (upd_button h f x).
Proof.
  intros Hf [H1 H2 H3 H4]. split; cbn; try done.
  by rewrite image_alter.
Qed.

Lemma stable_upd_panel h f s x :
  (∀ p, p_static (f p) = p_static p) →
  (∀ p, p_data_loaded p = true → p_data_loaded (f p) = true) →
  stable s x → stable s (upd_panel h f x).
Proof.
  intros Hf Hl [H1 H2 H3 H4]. split; cbn; try done.
  - by rewrite image_alter.
  - intros c Hc. specialize (H3 c Hc).
    rewrite list_lookup_fmap in H3. rewrite list_lookup_fmap, list_lookup_alter.
    destruct (decide (h = c)) as [->|]; [|done].
    destruct (panels (doc x) !! c) as [p|]; [|done]. simpl in *.
    f_equal. apply Hl. congruence.
Qed.

Lemma stable_upd_button_opt h f s x :
  (∀ b, b_static (f b) = b_static b) → stable s x → stable s (upd_button_opt h f x).
Proof. destruct h; [apply stable_upd_button|done]. Qed.

Lemma stable_upd_panel_opt h f s x :
  (∀ p, p_static (f p) = p_static p) →
  (∀ p, p_data_loaded p = true → p_data_loaded (f p) = true) →
  stable s x → stable s (upd_panel_opt h f x).
Proof. destruct h; [apply stable_upd_panel|done]. Qed.

Lemma stable_forEach {A} (l : list A) (f : A → State → State) s x :
  (∀ a y, stable s y → stable s (f a y)) → stable s x → stable s (forEach l f x).
Proof.
  intros Hf. unfold forEach. revert x.
  induction l as [|a l IH]; intros x Hx; simpl; [done|]. by apply IH, Hf.
Qed.
Lemma stable_emit es s x : stable s x → stable s (emit es x).
Proof. by apply stable_same_lists. Qed.

Lemma stable_spawn t s x : stable s x → stable s (spawn t x).
Proof. by apply stable_same_lists. Qed.

Lemma stable_set_tasks ts s x : stable s x → stable s (set_tasks ts x).
Proof. by apply stable_same_lists. Qed.

Lemma stable_set_hash h s x : stable s x → stable s (set_hash h x).
Proof. by apply stable_same_lists. Qed.

Lemma stable_set_transitioning v s x : stable s x → stable s (set_transitioning v x).
Proof. by apply stable_same_lists. Qed.

Lemma stable_set_activeTab v s x : stable s x → stable s (set_activeTab v x).
Proof. by apply stable_same_lists. Qed.

Lemma stable_updateTabTitleDisplay h s x :
  stable s x → stable s (updateTabTitleDisplay h x).
Proof.
  intros H. unfold updateTabTitleDisplay. repeat case_match; try done.
  by apply (stable_same_lists s x).
Qed.
End Stable.

(** Solves [stable s (f ... x)] for the controller's operations. *)
Ltac stable_tac :=
  repeat first
    [ assumption
    | apply stable_refl
    | apply stable_upd_button; [by intros []|]
    | apply stable_upd_panel; [by intros []|by intros []|]
    | apply stable_upd_button_opt; [by intros []|]
    | apply stable_upd_panel_opt; [by intros []|by intros []|]
    | apply stable_forEach; [intros ? ? ?|]
    | apply stable_emit
    | apply stable_spawn
    | apply stable_set_tasks
    | apply stable_set_hash
    | apply stable_set_transitioning
    | apply stable_set_activeTab
    | apply stable_updateTabTitleDisplay
    | case_match ].

Section StableSteps.
Implicit Types (s x : State).

Lemma stable_updateTabAccessibility s x :
  stable s x → stable s (updateTabAccessibility x).
Proof. intros H. unfold updateTabAccessibility, accessibility_of. stable_tac. Qed.

Lemma stable_updateActiveStates b c s x :
  stable s x → stable s (updateActiveStates b c x).
Proof.
  intros H. unfold updateActiveStates, mark_active.
  apply stable_updateTabAccessibility. stable_tac.
Qed.

Lemma stable_switch_finally fr s x : stable s x → stable s (switch_finally fr x).1.
Proof. intros H. unfold switch_finally. cbn [fst]. stable_tac. Qed.

Lemma stable_switch_complete fr s x : stable s x → stable s (switch_complete fr x).1.
Proof.
  intros H. unfold switch_complete. apply stable_switch_finally.
  unfold dispatchTabChangeEvent.
  by apply stable_emit, stable_set_activeTab, stable_updateActiveStates.
Qed.

Lemma stable_preload_return k s x : stable s x → stable s (preload_return k x).1.
Proof.
  intros H. unfold preload_return, performTabTransition. destruct k; cbn [fst];
    stable_tac.
Qed.

Lemma stable_preload_throw e k s x : stable s x → stable s (preload_throw e k x).1.
Proof.
  intros H. unfold preload_throw, switch_catch. destruct k; [|done].
  apply stable_switch_finally. stable_tac.
Qed.

Lemma stable_preload_images c k s x : stable s x → stable s (preload_images c k x).1.
Proof.
  intros H. unfold preload_images.
  destruct (match panels (doc x) !! c with Some p => _ | None => _ end).
  - apply stable_preload_return. stable_tac.
  - cbn [fst]. stable_tac.
Qed.

Lemma stable_preloadTabContent tab c k s x :
  stable s x → stable s (preloadTabContent tab c k x).1.
Proof.
  intros H. unfold preloadTabContent.
  repeat case_match; try (by apply stable_preload_images). cbn [fst]. stable_tac.
Qed.

Lemma stable_switchToTab btn s x : stable s x → stable s (switchToTab btn x).1.
Proof.
  intros H. unfold switchToTab. repeat case_match; cbn [fst]; try done.
  - apply stable_preloadTabContent. unfold push_hash. stable_tac.
  - stable_tac.
  - stable_tac.
Qed.

Lemma stable_resume t r s x p :
  stable s x → resume t r x = Some p → stable s p.1.
Proof.
  intros H Hr. destruct t as [c aw k|fr timer].
  - destruct aw, r; try discriminate; cbn [resume] in Hr; injection Hr as <-.
    + cbn [fst]. stable_tac.
    + unfold preload_catch. apply stable_preload_throw. stable_tac.
    + apply stable_preload_images. stable_tac.
    + unfold preload_catch. apply stable_preload_throw. stable_tac.
    + by apply stable_preload_return.
    + by apply stable_preload_throw.
  - destruct timer, r; try discriminate; cbn [resume] in Hr; injection Hr as <-.
    + cbn [fst]. unfold swap_classes. stable_tac.
    + apply stable_switch_complete. stable_tac.
Qed.

Lemma stable_step e s x : stable s x → stable s (step e x).
Proof.
  intros H. destruct e as [btn|i r]; simpl.
  - by apply stable_switchToTab.
  - destruct (tasks x !! i) as [t|]; [|done].
    destruct (resume t r _) as [[s' st]|] eqn:Er; [|done].
    apply (stable_resume t r s _ (s', st)) in Er; [done|]. stable_tac.
Qed.

Lemma stable_run es s x : stable s x → stable s (run es x).
Proof.
  unfold run. revert x. induction es as [|e es IH]; intros x H; simpl; [done|].
  by apply IH, stable_step.
Qed.

Lemma stable_init s x : stable s x → stable s (init x).
Proof.
  intros H. unfold init. case_match; [done|].
  apply stable_updateTabAccessibility. unfold setInitialActiveTab.
  repeat case_match; try done; by apply stable_switchToTab.
Qed.

(** Whatever has happened since the page was parsed, the selectors find
    the same elements under the same names. *)
Lemma stable_reachable d n hash push es :
  stable (fresh_Tabs d n hash push) (run es (new_Tabs d n hash push)).
Proof. apply stable_run, stable_init, stable_refl. Qed.

Lemma stable_query_id id s x : stable s x → query_id id (doc x) = query_id id (doc s).
Proof.
  intros [_ H _ _]. apply first_match_image.
  by apply (image_through p_static _ (λ k, k.1 && bool_decide (k.2 = id))).
Qed.

Lemma stable_query_data_tab t s x :
  stable s x → query_data_tab t (doc x) = query_data_tab t (doc s).
Proof.
  intros [H _ _ _]. apply first_match_image.
  by apply (image_through b_static _ (λ k, k.1 && bool_decide (k.2 = Some t))).
Qed.

Lemma stable_button s x h b :
  stable s x → buttons (doc x) !! h = Some b →
  ∃ b0, buttons (doc s) !! h = Some b0 ∧ b_static b0 = b_static b.
Proof.
  intros [H _ _ _] Hb.
  assert (Hk : b_static <$> (buttons (doc s) !! h) = b_static <$> (buttons (doc x) !! h))
    by (by rewrite <- !list_lookup_fmap, H).
  rewrite Hb in Hk. destruct (buttons (doc s) !! h) as [b0|]; [|done].
  exists b0. split; [done|]. simpl in Hk. congruence.
Qed.

Lemma stable_button_fwd s x h b0 :
  stable s x → buttons (doc s) !! h = Some b0 →
  ∃ b, buttons (doc x) !! h = Some b ∧ b_static b = b_static b0.
Proof.
  intros [H _ _ _] Hb.
  assert (Hk : b_static <$> (buttons (doc x) !! h) = b_static <$> (buttons (doc s) !! h))
    by (by rewrite <- !list_lookup_fmap, H).
  rewrite Hb in Hk. destruct (buttons (doc x) !! h) as [b|]; [|done].
  exists b. split; [done|]. simpl in Hk. congruence.
Qed.

Lemma stable_panel s x c p :
  stable s x → panels (doc x) !! c = Some p →
  ∃ p0, panels (doc s) !! c = Some p0 ∧ p_static p0 = p_static p.
Proof.
  intros [_ H _ _] Hp.
  assert (Hk : p_static <$> (panels (doc s) !! c) = p_static <$> (panels (doc x) !! c))
    by (by rewrite <- !list_lookup_fmap, H).
  rewrite Hp in Hk. destruct (panels (doc s) !! c) as [p0|]; [|done].
  exists p0. split; [done|]. simpl in Hk. congruence.
Qed.

Lemma stable_panel_fwd s x c p0 :
  stable s x → panels (doc s) !! c = Some p0 →
  ∃ p, panels (doc x) !! c = Some p ∧ p_static p = p_static p0 ∧
       (p_data_loaded p0 = true → p_data_loaded p = true).
Proof.
  intros [_ H Hl _] Hp.
  assert (Hk : p_static <$> (panels (doc x) !! c) = p_static <$> (panels (doc s) !! c))
    by (by rewrite <- !list_lookup_fmap, H).
  rewrite Hp in Hk. destruct (panels (doc x) !! c) as [p|] eqn:Ep; [|done].
  exists p. split_and!; [done|simpl in Hk; congruence|].
  intros Hload. specialize (Hl c). rewrite !list_lookup_fmap, Hp, Ep in Hl.
  simpl in Hl. rewrite Hload in Hl. specialize (Hl eq_refl). congruence.
Qed.
End StableSteps.

(** ** The sample pages are well-formed markup *)

Lemma page_ABC_ok : markup_ok page_ABC.
Proof. unfold markup_ok. simpl. split_and!; [repeat constructor..|lia|lia]. Qed.

Lemma page_remote_ok : markup_ok page_remote.
Proof. unfold markup_ok. simpl. split_and!; [repeat constructor..|lia|lia]. Qed.

Lemma page_archive_ok : markup_ok page_archive.
Proof. unfold markup_ok. simpl. split_and!; [repeat constructor..|lia|lia]. Qed.

Lemma page_orphan_ok : markup_ok page_orphan.
Proof. unfold markup_ok. simpl. split_and!; [repeat constructor..|lia|lia]. Qed.

(** ** A lookup that throws

    A request whose lookup at line 250 throws leaves [transitioning] set
    with nothing pending.  From then on no event changes the state. *)

Definition wedged (s : State) : Prop := transitioning s = true ∧ tasks s = [].

(** Every trigger of the markup names its panel by an identifier. *)
Definition ids_are_identifiers (d : Document) : Prop :=
  Forall (λ b, is_identifier (interp (b_data_tab b)) = true) (buttons d).

Section Wedged.
Implicit Types (s : State).

Lemma dropped_request btn s :
  transitioning s = true → switchToTab btn s = (s, Settled Fulfilled).
Proof.
  intros Htr. unfold switchToTab. rewrite Htr.
  by destruct (buttons (doc s) !! btn).
Qed.

Lemma wedged_step e s : wedged s → step e s = s.
Proof.
  intros [Htr Hts]. destruct e as [btn|i r]; simpl.
  - by rewrite dropped_request.
  - by rewrite Hts.
Qed.

Lemma wedged_run es s : wedged s → run es s = s.
Proof.
  intros H. induction es as [|e es IH]; [done|].
  unfold run in *. simpl. by rewrite (wedged_step e s H).
Qed.

Lemma switchToTab_wedges btn s :
  Inv s → transitioning s = false → wedged (switchToTab btn s).1 →
  lookup_threw btn s (switchToTab btn s).
Proof.
  intros [Hc _] Htr [Hw Hts'].
  pose proof (idle_tasks s Hc Htr) as Hts.
  destruct (switchToTab_spec btn s Hts Htr) as [Hnop|[Hmiss|[Hstart|Hthrew]]]; [| | |done].
  - rewrite Hnop in Hw. simpl in Hw. congruence.
  - destruct Hmiss as (b & _ & _ & _ & Heq). by rewrite Heq in Hw.
  - destruct Hstart as (b & fr & _ & _ & _ & _ & _ & Hp & _).
    unfold pending_frame in Hp. by rewrite Hts' in Hp.
Qed.

Lemma step_wedges e s :
  Inv s → ¬ wedged s → wedged (step e s) →
  ∃ btn, e = Activate btn ∧ transitioning s = false ∧
         lookup_threw btn s (switchToTab btn s).
Proof.
  intros HI Hnw Hw. destruct e as [btn|i r]; simpl in Hw.
  - destruct (transitioning s) eqn:Htr.
    + rewrite dropped_request in Hw by done. done.
    + exists btn. split_and!; [done..|]. by apply switchToTab_wedges.
  - exfalso. destruct (tasks s !! i) as [t|] eqn:Et; [|done].
    destruct (busy_tasks s t i (proj1 HI) Et) as [Hts ->].
    rewrite Hts in Hw. cbn [delete list_delete] in Hw.
    destruct (resume t r (set_tasks [] s)) as [p|] eqn:Er; [|done].
    destruct HI as [Hc _]. unfold control_ok in Hc. rewrite Hts in Hc.
    destruct Hc as (_ & Hok & _).
    assert (∃ fr, task_frame t = Some fr) as [fr Hfr].
    { destruct t as [? ? [|]|]; simpl in *; eauto. done. }
    destruct Hw as [Hw Hts'].
    destruct (resume_spec t r (set_tasks [] s) p fr Hok Hfr eq_refl Er)
      as [(Hp & _)|[(_ & _ & Hf & _)|(_ & _ & Hf & _)]];
      destruct p as [s' st]; simpl in *; try congruence.
    unfold pending_frame in Hp. by rewrite Hts' in Hp.
Qed.

Lemma identifier_selects id : is_identifier id = true → no_id_selector id = false.
Proof.
  unfold is_identifier, no_id_selector.
  intros [-> ->]%andb_true_iff. done.
Qed.

Lemma identifiers_reachable d n hash push es btn b :
  ids_are_identifiers d →
  buttons (doc (run es (new_Tabs d n hash push))) !! btn = Some b →
  no_id_selector (interp (b_data_tab b)) = false.
Proof.
  intros Hok Hb.
  destruct (stable_button _ _ btn b (stable_reachable d n hash push es) Hb)
    as (b0 & Hb0 & Hst).
  unfold ids_are_identifiers in Hok. rewrite Forall_lookup in Hok.
  injection Hst as _ <-. by apply identifier_selects, (Hok btn b0).
Qed.

Lemma wedged_updateTabAccessibility s : wedged (updateTabAccessibility s) → wedged s.
Proof.
  intros [Htr Hts]. pose proof (view_updateTabAccessibility s) as Hv.
  apply view_inj in Hv as (_ & _ & _ & _ & _ & _ & Htr' & _).
  rewrite tasks_updateTabAccessibility in Hts. split; congruence.
Qed.

Lemma fresh_not_wedged d n hash push btn :
  markup_ok d → ids_are_identifiers d →
  ¬ wedged (switchToTab btn (fresh_Tabs d n hash push)).1.
Proof.
  intros Hd Hok Hw.
  apply switchToTab_wedges in Hw as (b & Hb & _ & Hinv & _);
    [|by apply Inv_fresh|done].
  apply select_id_Invalid in Hinv.
  unfold ids_are_identifiers in Hok. rewrite Forall_lookup in Hok.
  specialize (Hok btn b Hb). apply identifier_selects in Hok. congruence.
Qed.

(** Where every trigger names its panel by an identifier, the flag is
    set only while a switch is pending. *)
Lemma never_wedged d n hash push es :
  markup_ok d → ids_are_identifiers d → ¬ wedged (run es (new_Tabs d n hash push)).
Proof.
  intros Hd Hok. induction es as [|e es IH] using rev_ind.
  - simpl. rewrite new_Tabs_init. unfold init.
    destruct (tabContainers _ =? 0); [by intros [? _]|].
    intros Hw%wedged_updateTabAccessibility. revert Hw.
    unfold setInitialActiveTab.
    repeat case_match; try (by apply fresh_not_wedged); by intros [? _].
  - unfold run in *. rewrite foldl_app. simpl. intros Hw.
    apply step_wedges in Hw as (btn & _ & _ & b & Hb & _ & Hinv & _);
      [|by apply Inv_reachable|done].
    apply select_id_Invalid in Hinv.
    pose proof (identifiers_reachable d n hash push es btn b Hok Hb). congruence.
Qed.
End Wedged.

(** ** Properties of the controller *)

(** C3.  In an idle state a request for the trigger that already carries
    the [active] class returns successfully at once and leaves the state
    as it was: the log (fetches, timers, history entries, events), the
    fragment, the pending tasks and the document are all unchanged, and
    repeating the request changes nothing either. *)
Theorem switch_to_active_is_noop s btn b :
  transitioning s = false →
  buttons (doc s) !! btn = Some b → b_active b = true →
  switchToTab btn s = (s, Settled Fulfilled) ∧
  step (Activate btn) s = s ∧
  run [Activate btn; Activate btn] s = s.
Proof.
  intros Htr Hb Hact.
  assert (H : switchToTab btn s = (s, Settled Fulfilled)).
  { unfold switchToTab. by rewrite Hb, Htr, Hact. }
  split_and!; [done|by unfold step; rewrite H|].
  unfold run. cbn [foldl step]. rewrite H. cbn [fst]. by rewrite H.
Qed.

Lemma switch_to_active_is_noop_witness :
  step (Activate 1) (new_Tabs page_ABC 1 "" true) = new_Tabs page_ABC 1 "" true.
Proof.
  assert (H0 : transitioning (new_Tabs page_ABC 1 "" true) = false)
    by (vm_compute; reflexivity).
  assert (H1 : buttons (doc (new_Tabs page_ABC 1 "" true)) !! 1 =
               Some (b_set_aria true (Some "B") (trigger "B" true)))
    by (vm_compute; reflexivity).
  assert (H2 : b_active (b_set_aria true (Some "B") (trigger "B" true)) = true)
    by reflexivity.
  exact (proj1 (proj2 (switch_to_active_is_noop _ 1 _ H0 H1 H2))).
Defined.



(** C10 as the claim words it: whenever a [switchToTab] invocation made
    while no switch is in progress settles, [transitioning] is false
    afterwards. *)
Definition settles_idle (d : Document) (n : nat) (hash : string) (push : bool) : Prop :=
  ∀ es btn r, let s := run es (new_Tabs d n hash push) in
              transitioning s = false → (switchToTab btn s).2 = Settled r →
              transitioning (switchToTab btn s).1 = false.






(** C8 as the specification words it: a trigger whose panel is missing is
    reported while the controller starts, is left out of the registry,
    and a later request for it has nothing left to report. *)
Definition validated_at_startup (d : Document) (n : nat) (hash : string) (push : bool)
  : Prop :=
  ∀ h b, buttons d !! h = Some b → query_id (interp (b_data_tab b)) d = None →
         let s := new_Tabs d n hash push in
         Warn (interp (b_data_tab b)) ∈ log s ∧ (h ∉ tabButtons s) ∧
         log (step (Activate h) s) = log s.

(** On [page_remote] the trigger [X] has no panel; start-up logs nothing
    about it. *)
Lemma startup_validation_counterexample :
  ¬ validated_at_startup page_remote 1 "" true.
Proof.
  intros H. destruct (H 2 (trigger "X" false) eq_refl eq_refl) as (Hw & _).
  vm_compute in Hw. by apply elem_of_nil in Hw.
Qed.

(** The trigger that [setInitialActiveTab] hands to [switchToTab]. *)
Definition startup_request (d : Document) (hash : string) : option handle :=
  let fromHash :=
    if bool_decide (hash = ""%string) then None
    else query_data_tab (slice1 hash) d in
  match fromHash with
  | Some tabFromHash => Some tabFromHash
  | None =>
      match first_match sel_tab_btn_data_active (buttons d) with
      | Some activeTabFromData => Some activeTabFromData
      | None => all_matches sel_tab_btn (buttons d) !! 0
      end
  end.

(** The tabs named by the [console.warn] calls of a log. *)
Definition warnings (l : list Effect) : list string :=
  omap (λ e, match e with Warn tab => Some tab | _ => None end) l.

(** What construction reports: the tab of the trigger it requests, if
    there is a [.tab-container], the trigger does not carry [active] and
    its [data-tab] makes a selector that matches nothing. *)
Definition startup_warning (d : Document) (n : nat) (hash : string) : list string :=
  if Nat.eqb n 0 then []
  else match startup_request d hash ≫= (λ h, buttons d !! h) with
       | Some b =>
           if b_active b then []
           else match select_id (interp (b_data_tab b)) d with
                | Null => [interp (b_data_tab b)]
                | _ => []
                end
       | None => []
       end.

Section StartupRequest.
Implicit Types (s : State).

Lemma setInitialActiveTab_request d n hash push :
  let s := fresh_Tabs d n hash push in
  setInitialActiveTab s =
  match startup_request d hash with
  | Some h => (switchToTab h s).1
  | None => s
  end.
Proof.
  intros s. unfold setInitialActiveTab, startup_request.
  change (location_hash s) with hash. change (doc s) with d.
  change (tabButtons s) with (all_matches sel_tab_btn (buttons d)).
  by repeat case_match.
Qed.

Lemma warnings_app l l' : warnings (l ++ l') = warnings l ++ warnings l'.
Proof. apply omap_app. Qed.

Lemma warnings_images (imgs : list string) : warnings (LoadImage <$> imgs) = [].
Proof. by induction imgs. Qed.

Lemma warnings_preload_return k s :
  warnings (log (preload_return k s).1) = warnings (log s).
Proof.
  destruct k as [fr|]; [|done]. unfold preload_return, performTabTransition.
  cbn [fst log spawn emit set_tasks]. rewrite warnings_app. simpl.
  rewrite app_nil_r. by destruct (currentContent fr).
Qed.

Lemma warnings_preload_images c k s :
  warnings (log (preload_images c k s).1) = warnings (log s).
Proof.
  unfold preload_images.
  destruct (match panels (doc s) !! c with Some p => _ | None => _ end) eqn:E.
  - rewrite warnings_preload_return. cbn [log emit upd_panel set_doc].
    by rewrite warnings_app, app_nil_r.
  - cbn [fst log spawn emit set_tasks upd_panel set_doc].
    by rewrite warnings_app, warnings_images, app_nil_r.
Qed.

Lemma warnings_preloadTabContent tab c k s :
  warnings (log (preloadTabContent tab c k s).1) = warnings (log s).
Proof.
  unfold preloadTabContent.
  repeat case_match; try apply warnings_preload_images.
  cbn [fst log spawn emit set_tasks]. by rewrite warnings_app, app_nil_r.
Qed.

Lemma warnings_new_Tabs d n hash push :
  warnings (log (new_Tabs d n hash push)) = startup_warning d n hash.
Proof.
  rewrite new_Tabs_init. unfold init, startup_warning.
  change (tabContainers (fresh_Tabs d n hash push)) with n.
  destruct (n =? 0); [done|].
  rewrite log_updateTabAccessibility, setInitialActiveTab_request.
  destruct (startup_request d hash) as [h|]; [|done]. cbn [mbind option_bind].
  unfold switchToTab. change (doc (fresh_Tabs d n hash push)) with d.
  destruct (buttons d !! h) as [b|]; [|done].
  cbn [transitioning fresh_Tabs orb].
  destruct (b_active b); [done|].
  change (doc (set_transitioning true (fresh_Tabs d n hash push))) with d.
  destruct (select_id (interp (b_data_tab b)) d) as [c| |]; [|done..].
  rewrite warnings_preloadTabContent. unfold push_hash.
  cbn. by destruct push.
Qed.
End StartupRequest.

(** C8, amended.  Start-up validates nothing and excludes nothing: the
    cached list of triggers is every [.tab-btn] of the markup, whether or
    not its panel exists, and the only warning that construction can log
    is for the one trigger that start-up resolution hands to
    [switchToTab], if that trigger does not carry [active] and its panel
    is missing.  Otherwise a missing panel is found by [switchToTab]
    itself, each time a trigger without [active] whose panel is missing
    is requested while no switch is in progress: the call logs one
    warning naming the tab and returns, its promise fulfilled, leaving
    the document, the active tab, the fragment and the pending tasks as
    they were and [transitioning] false.  A request for such a trigger
    that carries [active] returns at line 243 and reports nothing. *)
Theorem missing_panel_detected_at_switch d n hash push es btn b :
  let s := run es (new_Tabs d n hash push) in
  buttons (doc s) !! btn = Some b →
  select_id (interp (b_data_tab b)) (doc s) = Null →
  tabButtons s = all_matches sel_tab_btn (buttons d) ∧
  warnings (log (new_Tabs d n hash push)) = startup_warning d n hash ∧
  (b_active b = true → step (Activate btn) s = s) ∧
  (transitioning s = false → b_active b = false →
   let s' := step (Activate btn) s in
   step_status (Activate btn) s = Some (Settled Fulfilled) ∧
   log s' = log s ++ [Warn (interp (b_data_tab b))] ∧
   doc s' = doc s ∧ tabButtons s' = tabButtons s ∧ activeTab s' = activeTab s ∧
   location_hash s' = location_hash s ∧ tasks s' = tasks s ∧
   transitioning s' = false).
Proof.
  intros s Hb Hq. split_and!.
  - destruct (stable_reachable d n hash push es) as [_ _ _ Hr].
    fold s in Hr. by injection Hr.
  - apply warnings_new_Tabs.
  - intros Hact. unfold step, switchToTab. rewrite Hb, Hact.
    by rewrite orb_true_r.
  - intros Htr Hact. unfold step_status, step, switchToTab.
    rewrite Hb, Htr, Hact. cbn [orb].
    change (doc (set_transitioning true s)) with (doc s). by rewrite Hq.
Qed.

Lemma missing_panel_detected_at_switch_witness :
  let s := run [Activate 2] (new_Tabs page_remote 1 "" true) in
  log (step (Activate 2) s) = [Warn "X"; Warn "X"] ∧
  warnings (log (new_Tabs page_remote 1 "" true)) = [] ∧
  warnings (log (new_Tabs page_remote 1 "#X" true)) = ["X"].
Proof.
  assert (H0 : buttons (doc (run [Activate 2] (new_Tabs page_remote 1 "" true))) !! 2 =
               Some (b_set_aria false (Some "X") (trigger "X" false)))
    by (vm_compute; reflexivity).
  assert (H1 : select_id (interp (b_data_tab
                 (b_set_aria false (Some "X") (trigger "X" false))))
                 (doc (run [Activate 2] (new_Tabs page_remote 1 "" true))) = Null)
    by (vm_compute; reflexivity).
  assert (H2 : transitioning (run [Activate 2] (new_Tabs page_remote 1 "" true)) = false)
    by (vm_compute; reflexivity).
  destruct (missing_panel_detected_at_switch page_remote 1 "" true [Activate 2] 2 _
              H0 H1) as (_ & Hw & _ & H).
  destruct (H H2 eq_refl) as (_ & Hlog & _).
  intros s. unfold s. rewrite Hlog, Hw. by vm_compute.
Defined.

(** ** A switch whose load fails *)

(** What a failed switch leaves behind, seen from the idle state [s0] the
    request was made in: [mid] is what was logged between the request
    and the error. *)
Definition failure_outcome (s0 : State) (btn : handle) (b : Button) (c : handle)
    (mid : list Effect) (sf : State) (st : option Status) : Prop :=
  st = Some (Settled Fulfilled) ∧
  transitioning sf = false ∧ tasks sf = [] ∧
  activeTab sf = activeTab s0 ∧
  b_active <$> buttons (doc sf) = b_active <$> buttons (doc s0) ∧
  p_active <$> panels (doc sf) = p_active <$> panels (doc s0) ∧
  (∃ b', buttons (doc sf) !! btn = Some b' ∧ b_loading b' = false) ∧
  (∃ p', panels (doc sf) !! c = Some p' ∧ markup (p_inner p') = RetryAffordance ∧
         p_data_loaded p' = false) ∧
  location_hash sf =
    (if has_pushState s0 then hash_after_push (interp (b_data_tab b))
     else location_hash s0) ∧
  ∃ e, log sf =
       log s0 ++
       (if has_pushState s0 then [PushState ("#" ++ interp (b_data_tab b))%string]
        else []) ++ mid ++ [ConsoleError e].

Section FailedLoad.
Context (s0 : State) (btn : handle) (b : Button) (c : handle) (p : Panel) (url : string).
Hypothesis Hts : tasks s0 = [].
Hypothesis Htr : transitioning s0 = false.
Hypothesis Hb : buttons (doc s0) !! btn = Some b.
Hypothesis Hact : b_active b = false.
Hypothesis Hq : select_id (interp (b_data_tab b)) (doc s0) = Found c.
Hypothesis Hp : panels (doc s0) !! c = Some p.
Hypothesis Hload : shouldLoad p = true.
Hypothesis Hurl : p_data_load_url p = Some url.
Hypothesis Hne : url ≠ "".

(** The request reaches the fetch and suspends there. *)
Lemma remote_switch_starts :
  ∃ fr, button fr = btn ∧
        switchToTab btn s0 =
        (spawn (InPreload c AwFetch (Switch fr))
           (emit [Fetch url]
              (upd_button btn (b_set_loading true)
                 (push_hash (interp (b_data_tab b)) (set_transitioning true s0)))),
         Suspended).
Proof.
  eexists {| button := btn |}. split; [reflexivity|].
  unfold switchToTab. rewrite Hb, Htr, Hact. cbn [orb].
  change (doc (set_transitioning true s0)) with (doc s0). rewrite Hq.
  unfold preloadTabContent.
  assert (Hp' : panels (doc (upd_button btn (b_set_loading true)
                  (push_hash (interp (b_data_tab b)) (set_transitioning true s0)))) !! c
                = Some p).
  { unfold push_hash. cbn. by destruct (has_pushState s0). }
  rewrite Hp', Hload, Hurl. rewrite bool_decide_false by done. reflexivity.
Qed.

Lemma failed_fetch_outcome :
  let s1 := step (Activate btn) s0 in
  failure_outcome s0 btn b c [Fetch url]
    (step (Resume 0 FetchRejected) s1) (step_status (Resume 0 FetchRejected) s1).
Proof.
  destruct remote_switch_starts as (fr & Hfr & Hs1).
  intros s1. unfold s1, step, step_status. rewrite Hs1. cbn [fst].
  unfold push_hash. cbn [has_pushState set_transitioning].
  destruct (has_pushState s0) eqn:Epush; cbn; rewrite Hts; cbn; rewrite Hfr.
  all: unfold failure_outcome; cbn; rewrite ?Epush.
  all: split_and!; try done.
  all: try (by rewrite !image_alter).
  all: try (eexists; rewrite list_lookup_alter_eq, list_lookup_alter_eq, Hb; done).
  all: try (eexists; rewrite list_lookup_alter_eq, Hp; split_and!; try done;
            cbn; unfold shouldLoad in Hload; by destruct (p_data_loaded p), (p_data_load p)).
  all: exists NetworkError; by rewrite <- ?app_assoc.
Qed.

Lemma failed_body_outcome :
  let s1 := step (Resume 0 FetchResolved) (step (Activate btn) s0) in
  failure_outcome s0 btn b c [Fetch url; ReadBody]
    (step (Resume 0 BodyRejected) s1) (step_status (Resume 0 BodyRejected) s1).
Proof.
  destruct remote_switch_starts as (fr & Hfr & Hs1).
  intros s1. unfold s1, step, step_status. rewrite Hs1. cbn [fst].
  unfold push_hash. cbn [has_pushState set_transitioning].
  destruct (has_pushState s0) eqn:Epush; cbn; rewrite Hts; cbn; rewrite Hfr.
  all: unfold failure_outcome; cbn; rewrite ?Epush.
  all: split_and!; try done.
  all: try (by rewrite !image_alter).
  all: try (eexists; rewrite list_lookup_alter_eq, list_lookup_alter_eq, Hb; done).
  all: try (eexists; rewrite list_lookup_alter_eq, Hp; split_and!; try done;
            cbn; unfold shouldLoad in Hload; by destruct (p_data_loaded p), (p_data_load p)).
  all: exists BodyError; by rewrite <- ?app_assoc.
Qed.
End FailedLoad.

(** C2 as the specification words it, for a fetch that is rejected: the
    retry markup is rendered, the active tab is unchanged, the controller
    is idle, the error reaches the caller as a rejected promise and the
    fragment is the one from before the request. *)
Definition atomic_on_error (s0 : State) (btn c : handle) : Prop :=
  let s1 := step (Activate btn) s0 in
  let s2 := step (Resume 0 FetchRejected) s1 in
  (∃ p, panels (doc s2) !! c = Some p ∧ markup (p_inner p) = RetryAffordance) ∧
  activeTab s2 = activeTab s0 ∧ transitioning s2 = false ∧
  (∃ e, step_status (Resume 0 FetchRejected) s1 = Some (Settled (Rejected e))) ∧
  location_hash s2 = location_hash s0.

(** On [page_remote], with [A] active and no fragment, a rejected fetch
    for [B] ends with a fulfilled promise and the fragment [#B]. *)
Lemma atomic_on_error_counterexample :
  ¬ atomic_on_error (new_Tabs page_remote 1 "" true) 1 1 ∧
  step_status (Resume 0 FetchRejected)
    (step (Activate 1) (new_Tabs page_remote 1 "" true)) = Some (Settled Fulfilled) ∧
  location_hash (run [Activate 1; Resume 0 FetchRejected]
                   (new_Tabs page_remote 1 "" true)) = "#B".
Proof.
  split_and!; [|by vm_compute..].
  intros (_ & _ & _ & [e He] & _). vm_compute in He. discriminate.
Qed.

(** C2, amended.  When the fetch of the target's content is rejected, or
    reading the response body fails, the retry markup is written into
    the target panel and [data-loaded] stays unset, [activeTab] and every
    [active] class are as before the request, [transitioning] is false,
    no task is pending and the trigger has lost [tab-loading].  The error
    is caught and logged with [console.error]; the promise of
    [switchToTab] is fulfilled, so the caller sees no error.  The history
    entry and the fragment [#target], written before the load began, are
    not rolled back; apart from them and the fetch itself nothing else
    was logged. *)
Theorem failed_load_is_caught s0 btn b c p url :
  tasks s0 = [] → transitioning s0 = false →
  buttons (doc s0) !! btn = Some b → b_active b = false →
  select_id (interp (b_data_tab b)) (doc s0) = Found c →
  panels (doc s0) !! c = Some p →
  shouldLoad p = true → p_data_load_url p = Some url → url ≠ "" →
  let s1 := step (Activate btn) s0 in
  let s1' := step (Resume 0 FetchResolved) s1 in
  failure_outcome s0 btn b c [Fetch url]
    (step (Resume 0 FetchRejected) s1) (step_status (Resume 0 FetchRejected) s1) ∧
  failure_outcome s0 btn b c [Fetch url; ReadBody]
    (step (Resume 0 BodyRejected) s1') (step_status (Resume 0 BodyRejected) s1').
Proof.
  intros. split.
  - by apply (failed_fetch_outcome s0 btn b c p url).
  - by apply (failed_body_outcome s0 btn b c p url).
Qed.

Lemma failed_load_is_caught_witness :
  let s0 := new_Tabs page_remote 1 "" true in
  let b := b_set_aria false (Some "B") (trigger "B" false) in
  let s1 := step (Activate 1) s0 in
  let s1' := step (Resume 0 FetchResolved) s1 in
  failure_outcome s0 1 b 1 [Fetch "b.html"]
    (step (Resume 0 FetchRejected) s1) (step_status (Resume 0 FetchRejected) s1) ∧
  failure_outcome s0 1 b 1 [Fetch "b.html"; ReadBody]
    (step (Resume 0 BodyRejected) s1') (step_status (Resume 0 BodyRejected) s1').
Proof.
  assert (H1 : tasks (new_Tabs page_remote 1 "" true) = []) by (vm_compute; reflexivity).
  assert (H2 : transitioning (new_Tabs page_remote 1 "" true) = false)
    by (vm_compute; reflexivity).
  assert (H3 : buttons (doc (new_Tabs page_remote 1 "" true)) !! 1 =
               Some (b_set_aria false (Some "B") (trigger "B" false)))
    by (vm_compute; reflexivity).
  assert (H4 : select_id (interp (b_data_tab
                 (b_set_aria false (Some "B") (trigger "B" false))))
                 (doc (new_Tabs page_remote 1 "" true)) = Found 1)
    by (vm_compute; reflexivity).
  assert (H5 : panels (doc (new_Tabs page_remote 1 "" true)) !! 1 =
               Some (p_set_aria false (Some "B") (remote_panel "B" "b.html")))
    by (vm_compute; reflexivity).
  assert (H6 : "b.html" ≠ "") by discriminate.
  exact (failed_load_is_caught (new_Tabs page_remote 1 "" true) 1 _ 1 _ "b.html"
           H1 H2 H3 eq_refl H4 H5 eq_refl eq_refl H6).
Defined.

(** ** Fetches *)

Fixpoint fetches (l : list Effect) : nat :=
  match l with
  | [] => 0
  | Fetch _ :: l' => S (fetches l')
  | _ :: l' => fetches l'
  end.

(** [s'] has logged more than [s], but no fetch. *)
Definition no_fetch_since (s s' : State) : Prop :=
  ∃ extra, log s' = log s ++ extra ∧ fetches extra = 0.

Section Fetches.
Implicit Types (s : State) (l : list Effect).

Lemma fetches_app l l' : fetches (l ++ l') = fetches l + fetches l'.
Proof. induction l as [|[] l IH]; simpl; lia. Qed.

Lemma fetches_images (imgs : list string) : fetches (LoadImage <$> imgs) = 0.
Proof. by induction imgs. Qed.

Lemma no_fetch_refl s : no_fetch_since s s.
Proof. exists []. by rewrite app_nil_r. Qed.

Lemma no_fetch_trans s x y : no_fetch_since s x → no_fetch_since x y → no_fetch_since s y.
Proof.
  intros (e1 & H1 & F1) (e2 & H2 & F2). exists (e1 ++ e2).
  rewrite H2, H1, fetches_app, F1, F2, app_assoc. done.
Qed.

Lemma no_fetch_count s s' : no_fetch_since s s' → fetches (log s') = fetches (log s).
Proof. intros (e & -> & F). rewrite fetches_app. lia. Qed.

Lemma no_fetch_emit es s x :
  fetches es = 0 → no_fetch_since s x → no_fetch_since s (emit es x).
Proof. intros F H. apply (no_fetch_trans s x); [done|]. by exists es. Qed.

Lemma no_fetch_same_log s x y : log y = log x → no_fetch_since s x → no_fetch_since s y.
Proof. intros Hl (e & H & F). exists e. by rewrite Hl. Qed.

Lemma no_fetch_preload_return k s x :
  no_fetch_since s x → no_fetch_since s (preload_return k x).1.
Proof.
  intros H. destruct k as [fr|]; [|done]. unfold preload_return, performTabTransition.
  cbn [fst]. apply (no_fetch_same_log s (emit [SetTimeout 300] x)).
  - by destruct (currentContent fr).
  - by apply no_fetch_emit.
Qed.

Lemma no_fetch_preload_images c k s x :
  no_fetch_since s x → no_fetch_since s (preload_images c k x).1.
Proof.
  intros H. unfold preload_images.
  set (imgs := match panels (doc x) !! c with Some p => _ | None => _ end).
  assert (H1 : no_fetch_since s
                 (emit (LoadImage <$> imgs)
                    (upd_panel c (λ p, p_set_inner (start_images (p_inner p)) p) x))).
  { apply no_fetch_emit; [apply fetches_images|done]. }
  destruct imgs; [by apply no_fetch_preload_return|done].
Qed.

(** A panel that needs no load is preloaded without a fetch. *)
Lemma no_fetch_preloadTabContent tab c k s p :
  panels (doc s) !! c = Some p → shouldLoad p = false →
  no_fetch_since s (preloadTabContent tab c k s).1.
Proof.
  intros Hp Hl. unfold preloadTabContent. rewrite Hp, Hl.
  apply no_fetch_preload_images, no_fetch_refl.
Qed.

Lemma no_fetch_switchToTab btn s b c p :
  buttons (doc s) !! btn = Some b →
  query_id (interp (b_data_tab b)) (doc s) = Some c →
  panels (doc s) !! c = Some p → p_data_loaded p = true →
  no_fetch_since s (switchToTab btn s).1.
Proof.
  intros Hb Hq Hp Hl. unfold switchToTab. rewrite Hb.
  destruct (transitioning s || b_active b); [apply no_fetch_refl|].
  change (doc (set_transitioning true s)) with (doc s). unfold select_id.
  destruct (no_id_selector _); [apply (no_fetch_same_log s s), no_fetch_refl; done|].
  rewrite Hq.
  set (s1 := upd_button btn _ _).
  assert (H1 : no_fetch_since s s1).
  { unfold s1, push_hash. cbn [has_pushState set_transitioning].
    destruct (has_pushState s).
    - by eexists [_].
    - by apply (no_fetch_same_log s s), no_fetch_refl. }
  apply (no_fetch_trans s s1); [done|].
  apply (no_fetch_preloadTabContent _ _ _ _ p).
  - unfold s1, push_hash. cbn. by destruct (has_pushState s).
  - unfold shouldLoad. rewrite Hl. apply andb_false_r.
Qed.
End Fetches.

(** C4, second half, as the specification words it: while a first call
    of [preloadTabContent] for a panel is suspended on its fetch, a
    second call for the same panel issues no further fetch. *)
Definition shares_inflight_fetch (s : State) (tab : option string) (c : handle) : Prop :=
  let s1 := (preloadTabContent tab c Direct s).1 in
  InPreload c AwFetch Direct ∈ tasks s1 →
  fetches (log (preloadTabContent tab c Direct s1).1) = fetches (log s1).

(** On [page_remote] as the constructor leaves it, two overlapping
    direct calls for panel [B] fetch [b.html] twice. *)
Lemma shares_inflight_fetch_counterexample :
  ¬ shares_inflight_fetch (new_Tabs page_remote 1 "" true) (Some "B") 1 ∧
  log (preloadTabContent (Some "B") 1 Direct
         (preloadTabContent (Some "B") 1 Direct
            (new_Tabs page_remote 1 "" true)).1).1 =
  [Fetch "b.html"; Fetch "b.html"].
Proof.
  split; [|by vm_compute].
  intros H. unfold shares_inflight_fetch in H.
  assert (Hin : InPreload 1 AwFetch Direct ∈
                tasks (preloadTabContent (Some "B") 1 Direct
                         (new_Tabs page_remote 1 "" true)).1)
    by (vm_compute; apply list_elem_of_here).
  specialize (H Hin). vm_compute in H. discriminate.
Qed.

(** C4, amended.  In every reachable state at most one switch, hence at
    most one fetch, is in flight, because a request made while one is
    pending changes nothing.  Once a panel carries [data-loaded] it keeps
    it, and no later activation of its tab, after whatever events,
    issues a fetch.  [preloadTabContent] itself keeps no loading state:
    it fetches whenever [data-load] is present, [data-loaded] is absent
    and the URL is not empty, whatever is in flight, so a second call
    made before the first fetch settles issues its own request. *)
Theorem loaded_tab_is_not_fetched_again d n hash push es :
  markup_ok d →
  let s := run es (new_Tabs d n hash push) in
  length (tasks s) ≤ 1 ∧
  (tasks s ≠ [] → ∀ btn, step (Activate btn) s = s) ∧
  (∀ btn b c p es',
     buttons (doc s) !! btn = Some b →
     query_id (interp (b_data_tab b)) (doc s) = Some c →
     panels (doc s) !! c = Some p →
     p_data_loaded p = true →
     let s' := run es' s in
     (∃ p', panels (doc s') !! c = Some p' ∧ p_data_loaded p' = true) ∧
     fetches (log (step (Activate btn) s')) = fetches (log s')) ∧
  (∀ x tab c p url k k',
     panels (doc x) !! c = Some p →
     p_data_load p = true → p_data_loaded p = false →
     p_data_load_url p = Some url → url ≠ ""%string →
     let x1 := (preloadTabContent tab c k x).1 in
     let x2 := (preloadTabContent tab c k' x1).1 in
     log x1 = log x ++ [Fetch url] ∧
     log x2 = log x ++ [Fetch url; Fetch url] ∧
     tasks x2 = tasks x ++ [InPreload c AwFetch k; InPreload c AwFetch k']).
Proof.
  intros Hd s.
  assert (HI : Inv s) by (by apply Inv_reachable).
  split_and!.
  - destruct HI as [Hc _]. unfold control_ok in Hc.
    destruct (tasks s) as [|t [|]]; simpl; [lia|lia|done].
  - intros Hne btn. simpl. rewrite dropped_request; [done|].
    destruct HI as [Hc _]. unfold control_ok in Hc.
    destruct (tasks s) as [|t [|]]; [done| |done]. by destruct Hc.
  - intros btn b c p es' Hb Hq Hp Hl s'.
    assert (Hst : stable s s') by apply stable_run, stable_refl.
    destruct (stable_button_fwd s s' btn b Hst Hb) as (b' & Hb' & Hsb).
    destruct (stable_panel_fwd s s' c p Hst Hp) as (p' & Hp' & _ & Hl').
    split.
    + exists p'. auto.
    + apply no_fetch_count. simpl.
      apply (no_fetch_switchToTab btn s' b' c p'); auto.
      rewrite (stable_query_id _ s s' Hst).
      injection Hsb as _ ->. done.
  - intros x tab c p url k k' Hp Hload Hloaded Hurl Hne x1 x2.
    assert (Hfetch : ∀ y k0, panels (doc y) !! c = Some p →
              preloadTabContent tab c k0 y =
              (spawn (InPreload c AwFetch k0) (emit [Fetch url] y), Suspended)).
    { intros y k0 Hy. unfold preloadTabContent, shouldLoad.
      rewrite Hy, Hload, Hloaded, Hurl. cbn [andb negb].
      by rewrite bool_decide_false. }
    unfold x2, x1. rewrite (Hfetch x k Hp). cbn [fst].
    rewrite (Hfetch _ k') by done. cbn.
    by rewrite <- !app_assoc.
Qed.

Lemma loaded_tab_is_not_fetched_again_witness :
  let s := run [Activate 1; Resume 0 FetchResolved; Resume 0 (BodyResolved "b" []);
                Resume 0 TimerFired; Resume 0 TimerFired]
               (new_Tabs page_remote 1 "" true) in
  let s' := run [Activate 0; Resume 0 TimerFired; Resume 0 TimerFired] s in
  length (tasks s) ≤ 1 ∧
  (∃ p', panels (doc s') !! 1 = Some p' ∧ p_data_loaded p' = true) ∧
  fetches (log (step (Activate 1) s')) = fetches (log s').
Proof.
  intros s.
  destruct (loaded_tab_is_not_fetched_again page_remote 1 "" true
              [Activate 1; Resume 0 FetchResolved; Resume 0 (BodyResolved "b" []);
               Resume 0 TimerFired; Resume 0 TimerFired] page_remote_ok)
    as (H1 & _ & H3 & _).
  split; [exact H1|].
  refine (H3 1 _ 1 _ [Activate 0; Resume 0 TimerFired; Resume 0 TimerFired] _ _ _ _);
    vm_compute; reflexivity.
Defined.

(** ** The accessibility pass, element by element *)

(** What one iteration writes on its trigger. *)
Definition b_aria_of (b : Button) : Button := b_set_aria (b_active b) (b_data_tab b) b.

(** The state and name of trigger [h] if its panel is [c]. *)
Definition source_key (s : State) (h c : handle) : option (bool * option string) :=
  match buttons (doc s) !! h with
  | Some b =>
      if decide (query_id (interp (b_data_tab b)) (doc s) = Some c)
      then Some (b_active b, b_data_tab b) else None
  | None => None
  end.

(** The last trigger of [hs] whose panel is [c]: the one whose iteration
    writes last. *)
Fixpoint last_source (s : State) (hs : list handle) (c : handle)
  : option (bool * option string) :=
  match hs with
  | [] => None
  | h :: hs' =>
      match last_source s hs' c with
      | Some k => Some k
      | None => source_key s h c
      end
  end.

Section Accessibility.
Implicit Types (s : State) (hs : list handle).

Lemma buttons_accessibility_of h s :
  buttons (doc (accessibility_of h s)) = alter b_aria_of h (buttons (doc s)).
Proof.
  unfold accessibility_of. destruct (buttons (doc s) !! h) as [b|] eqn:Eb.
  - destruct (query_id _ _); cbn; apply list_alter_ext; try done;
      intros x Hx; rewrite Eb in Hx; by injection Hx as <-.
  - symmetry. apply list_eq. intros i. rewrite list_lookup_alter.
    destruct (decide (h = i)) as [->|]; [by rewrite Eb|done].
Qed.

Lemma panels_accessibility_of h s c :
  panels (doc (accessibility_of h s)) !! c =
  match source_key s h c with
  | Some k => p_set_aria k.1 k.2 <$> panels (doc s) !! c
  | None => panels (doc s) !! c
  end.
Proof.
  unfold accessibility_of, source_key.
  destruct (buttons (doc s) !! h) as [b|] eqn:Eb; [|done].
  destruct (query_id _ _) as [c'|] eqn:Eq; cbn.
  - rewrite list_lookup_alter. destruct (decide (c' = c)) as [->|Hne].
    + by rewrite decide_True.
    + rewrite decide_False; [done|congruence].
  - by rewrite decide_False.
Qed.

Lemma source_key_view s s' h c :
  view s' = view s → source_key s' h c = source_key s h c.
Proof.
  intros Hv. apply view_inj in Hv as (Hb & Hp & _).
  unfold source_key.
  assert (Hk : b_key <$> (buttons (doc s') !! h) = b_key <$> (buttons (doc s) !! h)).
  { rewrite <- !list_lookup_fmap. by fold (bk s') (bk s); rewrite Hb. }
  destruct (buttons (doc s') !! h) as [b'|], (buttons (doc s) !! h) as [b|];
    try done. simpl in Hk. injection Hk as _ Htab Hact.
  rewrite Htab, Hact, (query_id_keys _ s s' Hp). done.
Qed.

Lemma last_source_view s s' hs c :
  view s' = view s → last_source s' hs c = last_source s hs c.
Proof.
  intros Hv. induction hs as [|h hs IH]; simpl; [done|].
  by rewrite IH, (source_key_view s s').
Qed.

(** The result of [updateTabAccessibility] on each trigger and each
    panel. *)
Lemma accessibility_loop hs s :
  (∀ h, buttons (doc (forEach hs accessibility_of s)) !! h =
        if decide (h ∈ hs) then b_aria_of <$> buttons (doc s) !! h
        else buttons (doc s) !! h) ∧
  (∀ c, panels (doc (forEach hs accessibility_of s)) !! c =
        match last_source s hs c with
        | Some k => p_set_aria k.1 k.2 <$> panels (doc s) !! c
        | None => panels (doc s) !! c
        end).
Proof.
  revert s. induction hs as [|h0 hs IH]; intros s.
  - split; [|done]. intros h. simpl.
    destruct (decide (h ∈ [])) as [Hin|]; [by apply elem_of_nil in Hin|done].
  - change (forEach (h0 :: hs) accessibility_of s)
      with (forEach hs accessibility_of (accessibility_of h0 s)).
    destruct (IH (accessibility_of h0 s)) as [IHb IHp]. split.
    + intros h. rewrite IHb, buttons_accessibility_of, list_lookup_alter.
      destruct (decide (h0 = h)) as [->|Hne].
      * rewrite (decide_True (P := h ∈ h :: hs)) by left.
        destruct (decide (h ∈ hs)); [|done].
        by destruct (buttons (doc s) !! h).
      * destruct (decide (h ∈ hs)) as [Hin|Hnin].
        -- rewrite decide_True; [done|by right].
        -- rewrite decide_False; [done|]. rewrite elem_of_cons. naive_solver.
    + intros c. rewrite IHp.
      rewrite (last_source_view s _ hs c (view_accessibility_of h0 s)).
      rewrite panels_accessibility_of. simpl.
      destruct (last_source s hs c) as [k|]; [|done].
      destruct (source_key s h0 c) as [k0|]; [|done].
      by destruct (panels (doc s) !! c).
Qed.

Lemma last_source_Some s hs c k :
  last_source s hs c = Some k → ∃ h, h ∈ hs ∧ source_key s h c = Some k.
Proof.
  induction hs as [|h hs IH]; simpl; [done|].
  destruct (last_source s hs c) as [k'|].
  - intros [= ->]. destruct (IH eq_refl) as (h' & ? & ?). exists h'.
    split; [by right|done].
  - intros Hk. exists h. split; [by left|done].
Qed.

Lemma last_source_is_Some s hs c h k :
  h ∈ hs → source_key s h c = Some k → is_Some (last_source s hs c).
Proof.
  induction hs as [|h' hs IH]; [by intros ?%elem_of_nil|].
  intros [->|Hin]%elem_of_cons Hk; simpl.
  - destruct (last_source s hs c); [by eexists|by rewrite Hk].
  - destruct (IH Hin Hk) as [k' ->]. by eexists.
Qed.
End Accessibility.

(** ** A registry of paired, uniquely named tabs *)

(** Every element is attached, no two triggers name the same tab, no two
    panels share an id, and every panel is the panel of some trigger. *)
Definition registry_wf (d : Document) : Prop :=
  Forall (λ b, b_attached b = true) (buttons d) ∧
  Forall (λ p, p_attached p = true) (panels d) ∧
  NoDup ((λ b, interp (b_data_tab b)) <$> buttons d) ∧
  NoDup (p_id <$> panels d) ∧
  Forall (λ p, p_id p ∈ (λ b, interp (b_data_tab b)) <$> buttons d) (panels d).

Lemma Forall_image {A B} (f : A → B) (P : B → Prop) (l l' : list A) :
  f <$> l' = f <$> l → Forall (λ a, P (f a)) l → Forall (λ a, P (f a)) l'.
Proof.
  intros H HF. apply (Forall_fmap (A:=A) (B:=B)). rewrite H. by apply Forall_fmap.
Qed.

Section Registry.
Implicit Types (d : Document).

Lemma registry_wf_static d d' :
  b_static <$> buttons d' = b_static <$> buttons d →
  p_static <$> panels d' = p_static <$> panels d →
  registry_wf d → registry_wf d'.
Proof.
  intros Hb Hp (H1 & H2 & H3 & H4 & H5).
  assert (Hatt_b : b_attached <$> buttons d' = b_attached <$> buttons d).
  { rewrite (list_fmap_ext b_attached (fst ∘ b_static) (buttons d')) by done.
    rewrite (list_fmap_ext b_attached (fst ∘ b_static) (buttons d)) by done.
    by rewrite !list_fmap_compose, Hb. }
  assert (Hatt_p : p_attached <$> panels d' = p_attached <$> panels d).
  { rewrite (list_fmap_ext p_attached (fst ∘ p_static) (panels d')) by done.
    rewrite (list_fmap_ext p_attached (fst ∘ p_static) (panels d)) by done.
    by rewrite !list_fmap_compose, Hp. }
  assert (Hname : (λ b, interp (b_data_tab b)) <$> buttons d' =
                  (λ b, interp (b_data_tab b)) <$> buttons d).
  { rewrite (list_fmap_ext _ ((interp ∘ snd) ∘ b_static) (buttons d')) by done.
    rewrite (list_fmap_ext _ ((interp ∘ snd) ∘ b_static) (buttons d)) by done.
    by rewrite !(list_fmap_compose b_static), Hb. }
  assert (Hid : p_id <$> panels d' = p_id <$> panels d).
  { rewrite (list_fmap_ext p_id (snd ∘ p_static) (panels d')) by done.
    rewrite (list_fmap_ext p_id (snd ∘ p_static) (panels d)) by done.
    by rewrite !list_fmap_compose, Hp. }
  unfold registry_wf. rewrite Hname, Hid. split_and!; try done.
  - by apply (Forall_image b_attached (λ a, a = true) (buttons d)).
  - by apply (Forall_image p_attached (λ a, a = true) (panels d)).
  - by apply (Forall_image p_id (λ i, i ∈ _) (panels d)).
Qed.

(** Two triggers with the same tab name are the same trigger. *)
Lemma registry_same_name d h1 h2 b1 b2 :
  registry_wf d → buttons d !! h1 = Some b1 → buttons d !! h2 = Some b2 →
  interp (b_data_tab b1) = interp (b_data_tab b2) → h1 = h2.
Proof.
  intros (_ & _ & Hnd & _) H1 H2 Heq.
  apply (NoDup_lookup _ h1 h2 (interp (b_data_tab b1)) Hnd).
  - by rewrite list_lookup_fmap, H1.
  - rewrite list_lookup_fmap, H2. simpl. by rewrite Heq.
Qed.

(** A panel is what the lookup of its own id finds. *)
Lemma registry_query_id d c p :
  registry_wf d → panels d !! c = Some p → query_id (p_id p) d = Some c.
Proof.
  intros (_ & Hatt & _ & Hnd & _) Hp. apply first_match_Some.
  exists p. split_and!; [done| |].
  - rewrite Forall_lookup in Hatt. unfold sel_id.
    rewrite (Hatt c p Hp), bool_decide_true; done.
  - intros j q Hq Hlt. unfold sel_id.
    rewrite bool_decide_false; [apply andb_false_r|].
    intros Heq. assert (j = c); [|lia].
    apply (NoDup_lookup _ j c (p_id p) Hnd).
    + rewrite list_lookup_fmap, Hq. simpl. by rewrite Heq.
    + by rewrite list_lookup_fmap, Hp.
Qed.

Lemma query_id_found d id c :
  query_id id d = Some c → ∃ p, panels d !! c = Some p ∧ p_id p = id.
Proof.
  intros (p & Hp & Hsel & _)%first_match_Some. exists p. split; [done|].
  unfold sel_id in Hsel. apply andb_true_iff in Hsel as [_ Hid].
  by apply bool_decide_eq_true in Hid.
Qed.

(** Every panel has its trigger. *)
Lemma registry_trigger d c p :
  registry_wf d → panels d !! c = Some p →
  ∃ h b, buttons d !! h = Some b ∧ interp (b_data_tab b) = p_id p.
Proof.
  intros (_ & _ & _ & _ & Hall) Hp. rewrite Forall_lookup in Hall.
  specialize (Hall c p Hp). apply list_elem_of_fmap in Hall as (b & Heq & Hin).
  apply list_elem_of_lookup in Hin as [h Hh]. by exists h, b.
Qed.
End Registry.

Section AccessibilityResult.
Context (x : State) (btn c : handle) (bt : Button).
Hypothesis Hreg : registry_wf (doc x).
Hypothesis Hall : ∀ h b, buttons (doc x) !! h = Some b → h ∈ tabButtons x.
Hypothesis Hact : ∀ h b, buttons (doc x) !! h = Some b → b_active b = bool_decide (h = btn).
Hypothesis Hbtn : buttons (doc x) !! btn = Some bt.
Hypothesis Htgt : query_id (interp (b_data_tab bt)) (doc x) = Some c.

Lemma trigger_after_accessibility h b' :
  buttons (doc (updateTabAccessibility x)) !! h = Some b' →
  b_aria_selected b' = Some (js_bool (bool_decide (h = btn))) ∧
  b_tabindex b' = Some (if bool_decide (h = btn) then "0" else "-1")%string.
Proof.
  unfold updateTabAccessibility.
  destruct (accessibility_loop (tabButtons x) x) as [Hb _]. rewrite Hb.
  destruct (buttons (doc x) !! h) as [b|] eqn:Eb.
  - rewrite decide_True by eauto. simpl. intros [= <-].
    unfold b_aria_of. simpl. by rewrite (Hact h b Eb).
  - by destruct (decide _).
Qed.

Lemma panel_after_accessibility c' p' :
  panels (doc (updateTabAccessibility x)) !! c' = Some p' →
  p_aria_hidden p' = Some (js_bool (negb (bool_decide (c' = c)))).
Proof.
  unfold updateTabAccessibility.
  destruct (accessibility_loop (tabButtons x) x) as [_ Hp]. rewrite Hp.
  destruct (panels (doc x) !! c') as [p|] eqn:Ep; [|by destruct (last_source _ _ _)].
  destruct (registry_trigger (doc x) c' p Hreg Ep) as (h0 & b0 & Hb0 & Hname).
  assert (Hsrc0 : source_key x h0 c' = Some (b_active b0, b_data_tab b0)).
  { unfold source_key. rewrite Hb0, Hname.
    rewrite (registry_query_id (doc x) c' p Hreg Ep). by rewrite decide_True. }
  destruct (last_source_is_Some x (tabButtons x) c' h0 _ (Hall h0 b0 Hb0) Hsrc0)
    as [k Hk].
  rewrite Hk. simpl. intros [= <-]. simpl. do 2 f_equal.
  apply last_source_Some in Hk as (h & _ & Hsrc).
  unfold source_key in Hsrc.
  destruct (buttons (doc x) !! h) as [b|] eqn:Eb; [|done].
  destruct (decide _) as [Hq|]; [|done]. injection Hsrc as <-.
  simpl. rewrite (Hact h b Eb). f_equal.
  apply query_id_found in Hq as (q & Hq & Hqid).
  rewrite Ep in Hq. injection Hq as <-.
  apply bool_decide_ext. split.
  - intros ->. rewrite Hbtn in Eb. injection Eb as <-.
    pose proof (registry_query_id (doc x) c' p Hreg Ep) as Hc'.
    rewrite Hqid in Hc'. congruence.
  - intros ->. apply query_id_found in Htgt as (q & Hq & Hqid').
    rewrite Ep in Hq. injection Hq as <-.
    apply (registry_same_name (doc x) h btn b bt Hreg Eb Hbtn). congruence.
Qed.
End AccessibilityResult.

Section Completion.
Implicit Types (s : State) (fr : Frame).

Lemma mark_active_buttons b c s :
  buttons (doc (mark_active b c s)) =
  alter (b_set_active true) b
    (alter_all (b_set_active false) (tabButtons s) (buttons (doc s))).
Proof.
  unfold mark_active, updateTabTitleDisplay.
  rewrite forEach_upd_button. cbn [tabContents set_doc].
  rewrite forEach_upd_panel. by repeat case_match.
Qed.

Lemma stable_mark_active b c s x : stable s x → stable s (mark_active b c x).
Proof. intros H. unfold mark_active. stable_tac. Qed.

Lemma switch_complete_doc fr s :
  let u := updateTabAccessibility (mark_active (button fr) (targetContent fr) s) in
  buttons (doc (switch_complete fr s).1) =
    alter (b_set_loading false) (button fr) (buttons (doc u)) ∧
  panels (doc (switch_complete fr s).1) = panels (doc u).
Proof. done. Qed.

(** In a reachable state every trigger is in the cached NodeList. *)
Lemma Inv_all_buttons s h b :
  Inv s → buttons (doc s) !! h = Some b → h ∈ tabButtons s.
Proof.
  intros [_ [_ _ Hatt _ HB _]] Hb. rewrite HB. apply elem_of_all_matches.
  assert (Hk : bk s !! h = Some (b_key b)) by (unfold bk; by rewrite list_lookup_fmap, Hb).
  exists (b_key b). split; [done|]. by apply (Hatt h).
Qed.

Lemma mark_active_flags btn c s h b :
  (∀ h' b', buttons (doc s) !! h' = Some b' → h' ∈ tabButtons s) →
  buttons (doc (mark_active btn c s)) !! h = Some b →
  b_active b = bool_decide (h = btn).
Proof.
  intros Hall. rewrite mark_active_buttons, list_lookup_alter.
  destruct (decide (btn = h)) as [->|Hne].
  - rewrite bool_decide_true by done.
    destruct (alter_all _ _ _ !! h); [|done]. by intros [= <-].
  - rewrite bool_decide_false by done. rewrite lookup_alter_all by done.
    destruct (buttons (doc s) !! h) as [b0|] eqn:Eb; [|by destruct (decide _)].
    rewrite decide_True by eauto. by intros [= <-].
Qed.
End Completion.


Lemma page_ABC_registry : registry_wf page_ABC.
Proof.
  unfold registry_wf. split_and!; apply (bool_decide_unpack _); by vm_compute.
Qed.


(** * Further properties of the controller and its helpers *)

(** ** What a step shows to the outside

    The history entry and the [tabChange] events are the only effects
    that other code on the page can observe; every other effect is
    quiet. *)

Definition quiet (e : Effect) : bool :=
  match e with
  | PushState _ | TabChangeContainer _ | TabChangeWindow _ => false
  | _ => true
  end.

(** The fields that only [pushState] and the end of a switch write. *)
Definition outer (s : State) := (log s, activeTab s, location_hash s, has_pushState s).

(** [s'] differs from [s] outwardly by quiet effects only. *)
Definition calm (s s' : State) : Prop :=
  ∃ es, forallb quiet es = true ∧
        outer s' = (log s ++ es, activeTab s, location_hash s, has_pushState s).

(** The three shapes of a step, seen from outside. *)
Inductive outward (s s' : State) : Prop :=
| out_calm : calm s s' → outward s s'
| out_push tab :
    has_pushState s = true →
    calm (emit [PushState ("#" ++ tab)%string] (set_hash (hash_after_push tab) s)) s' →
    outward s s'
| out_change tab :
    outer s' = (log s ++ [TabChangeContainer tab; TabChangeWindow tab], tab,
                location_hash s, has_pushState s) →
    outward s s'.

Section Outward.
Implicit Types (s : State) (fr : Frame).

Lemma calm_refl s : calm s s.
Proof. exists []. by rewrite app_nil_r. Qed.

Lemma calm_trans s x y : calm s x → calm x y → calm s y.
Proof.
  intros (e1 & Q1 & H1) (e2 & Q2 & H2). exists (e1 ++ e2).
  rewrite forallb_app, Q1, Q2. split; [done|].
  unfold outer in *. injection H1 as H1l H1a H1h H1p.
  by rewrite H2, H1l, H1a, H1h, H1p, app_assoc.
Qed.

Lemma calm_same s x y : outer y = outer x → calm s x → calm s y.
Proof. intros Ho (es & Q & H). exists es. by rewrite Ho. Qed.

Lemma calm_emit es s x : forallb quiet es = true → calm s x → calm s (emit es x).
Proof.
  intros Q H. apply (calm_trans s x); [done|]. by exists es.
Qed.

Lemma outer_upd_button h f s : outer (upd_button h f s) = outer s.
Proof. done. Qed.

Lemma outer_upd_panel h f s : outer (upd_panel h f s) = outer s.
Proof. done. Qed.

Lemma outer_upd_panel_opt h f s : outer (upd_panel_opt h f s) = outer s.
Proof. by destruct h. Qed.

Lemma outer_upd_button_opt h f s : outer (upd_button_opt h f s) = outer s.
Proof. by destruct h. Qed.

Lemma outer_updateTabAccessibility s : outer (updateTabAccessibility s) = outer s.
Proof.
  apply (forEach_preserves outer). intros h t. unfold accessibility_of.
  destruct (buttons (doc t) !! h); [|done]. by destruct (query_id _ _).
Qed.

Lemma outer_updateActiveStates b c s : outer (updateActiveStates b c s) = outer s.
Proof.
  unfold updateActiveStates, mark_active. rewrite outer_updateTabAccessibility.
  unfold updateTabTitleDisplay.
  rewrite forEach_upd_button. cbn [tabContents set_doc].
  rewrite forEach_upd_panel. by repeat case_match.
Qed.

Lemma outer_swap_classes fr s : outer (swap_classes fr s) = outer s.
Proof.
  unfold swap_classes.
  by rewrite outer_upd_panel, outer_upd_button, outer_upd_panel_opt,
    outer_upd_button_opt.
Qed.

Lemma calm_performTabTransition fr s x :
  calm s x → calm s (performTabTransition fr x).1.
Proof.
  intros H. unfold performTabTransition. cbn [fst].
  apply (calm_same s (emit [SetTimeout 300] (upd_panel_opt (currentContent fr) fade_out x)));
    [done|].
  apply calm_emit; [done|]. apply (calm_same s x); [|done]. apply outer_upd_panel_opt.
Qed.

Lemma calm_switch_catch e fr s x : calm s x → calm s (switch_catch e fr x).1.
Proof.
  intros H. unfold switch_catch, switch_finally. cbn [fst].
  apply (calm_same s (emit [ConsoleError e] x)); [done|]. by apply calm_emit.
Qed.

Lemma calm_preload_return k s x : calm s x → calm s (preload_return k x).1.
Proof. destruct k; [apply calm_performTabTransition|done]. Qed.

Lemma calm_preload_throw e k s x : calm s x → calm s (preload_throw e k x).1.
Proof. destruct k; [apply calm_switch_catch|done]. Qed.

Lemma calm_preload_catch e c k s x : calm s x → calm s (preload_catch e c k x).1.
Proof.
  intros H. unfold preload_catch. apply calm_preload_throw.
  by apply (calm_same s x).
Qed.

Lemma quiet_images (imgs : list string) : forallb quiet (LoadImage <$> imgs) = true.
Proof. by induction imgs. Qed.

Lemma calm_preload_images c k s x : calm s x → calm s (preload_images c k x).1.
Proof.
  intros H. unfold preload_images.
  set (imgs := match panels (doc x) !! c with Some p => _ | None => _ end).
  assert (H1 : calm s (emit (LoadImage <$> imgs)
                         (upd_panel c (λ p, p_set_inner (start_images (p_inner p)) p) x))).
  { apply calm_emit; [apply quiet_images|]. by apply (calm_same s x). }
  destruct imgs; [by apply calm_preload_return|done].
Qed.

Lemma calm_preloadTabContent tab c k s x :
  calm s x → calm s (preloadTabContent tab c k x).1.
Proof.
  intros H. unfold preloadTabContent.
  repeat case_match; try by apply calm_preload_images.
  cbn [fst].
  match goal with
  | |- calm s (spawn _ ?t) => apply (calm_same s t); [done|by apply calm_emit]
  end.
Qed.

(** A request never completes a switch within its own call. *)
Lemma request_switchToTab btn s :
  calm s (switchToTab btn s).1 ∨
  (has_pushState s = true ∧
   ∃ tab, calm (emit [PushState ("#" ++ tab)%string] (set_hash (hash_after_push tab) s))
            (switchToTab btn s).1).
Proof.
  unfold switchToTab.
  destruct (buttons (doc s) !! btn) as [b|]; [|left; apply calm_refl].
  destruct (transitioning s || b_active b); [left; apply calm_refl|].
  destruct (select_id _ _) as [c| |];
    [| |left; apply (calm_same s s); [done|apply calm_refl]].
  - unfold push_hash. cbn [has_pushState set_transitioning].
    destruct (has_pushState s) eqn:Epush.
    + right. split; [done|]. exists (interp (b_data_tab b)).
      apply calm_preloadTabContent.
      match goal with
      | |- calm ?x _ => apply (calm_same x x); [done|apply calm_refl]
      end.
    + left. apply calm_preloadTabContent.
      apply (calm_same s s); [done|apply calm_refl].
  - left. cbn [fst].
    apply (calm_same s (emit [Warn (interp (b_data_tab b))] s)); [done|].
    apply calm_emit; [done|apply calm_refl].
Qed.

Lemma outward_switchToTab btn s : outward s (switchToTab btn s).1.
Proof.
  destruct (request_switchToTab btn s) as [H|(Hp & tab & H)];
    [by apply out_calm|by apply (out_push _ _ tab)].
Qed.

Lemma outer_switch_complete fr s :
  outer (switch_complete fr s).1 =
  (log s ++ [TabChangeContainer (targetTab fr); TabChangeWindow (targetTab fr)],
   targetTab fr, location_hash s, has_pushState s).
Proof.
  unfold switch_complete, switch_finally, dispatchTabChangeEvent. cbn [fst].
  pose proof (outer_updateActiveStates (button fr) (targetContent fr) s) as Ho.
  unfold outer in *. cbn. by injection Ho as -> _ -> ->.
Qed.

Lemma outward_resume t r s p : resume t r s = Some p → outward s p.1.
Proof.
  intros Hres.
  destruct t as [c aw k|fr []], r; try discriminate; try destruct aw;
    try discriminate; cbn [resume] in Hres; injection Hres as <-.
  - apply out_calm. cbn [fst].
    apply (calm_same s (emit [ReadBody] s)); [done|].
    apply calm_emit; [done|apply calm_refl].
  - apply out_calm, calm_preload_catch, calm_refl.
  - apply out_calm, calm_preload_images. apply (calm_same s s); [done|apply calm_refl].
  - apply out_calm, calm_preload_catch, calm_refl.
  - apply out_calm, calm_preload_return, calm_refl.
  - apply out_calm, calm_preload_throw, calm_refl.
  - apply out_calm. cbn [fst].
    apply (calm_same s (emit [SetTimeout 50] (swap_classes fr s))); [done|].
    apply calm_emit; [done|].
    apply (calm_same s s); [apply outer_swap_classes|apply calm_refl].
  - apply (out_change _ _ (targetTab fr)). by rewrite outer_switch_complete.
Qed.

(** Every step of the event loop is quiet, or pushes one history entry
    and is quiet afterwards, or completes a switch. *)
Lemma outward_step e s : outward s (step e s).
Proof.
  destruct e as [btn|i r]; simpl; [apply outward_switchToTab|].
  destruct (tasks s !! i) as [t|]; [|apply out_calm, calm_refl].
  destruct (resume t r _) as [[s' st]|] eqn:Er; [|apply out_calm, calm_refl].
  apply outward_resume in Er. simpl in Er.
  destruct Er as [(es & Q & H)|tab Hp (es & Q & H)|tab H].
  - apply out_calm. by exists es.
  - apply (out_push _ _ tab); [done|]. by exists es.
  - by apply (out_change _ _ tab).
Qed.

(** Construction performs at most one [switchToTab] call. *)
Lemma request_init s :
  calm s (init s) ∨
  (has_pushState s = true ∧
   ∃ tab, calm (emit [PushState ("#" ++ tab)%string] (set_hash (hash_after_push tab) s))
            (init s)).
Proof.
  unfold init. destruct (tabContainers s =? 0); [left; apply calm_refl|].
  pose proof (outer_updateTabAccessibility (setInitialActiveTab s)) as Ho.
  assert (H : calm s (setInitialActiveTab s) ∨
              (has_pushState s = true ∧
               ∃ tab, calm (emit [PushState ("#" ++ tab)%string]
                              (set_hash (hash_after_push tab) s))
                        (setInitialActiveTab s))).
  { unfold setInitialActiveTab.
    repeat case_match; try apply request_switchToTab; left; apply calm_refl. }
  destruct H as [H|(Hp & tab & H)].
  - left. by apply (calm_same s (setInitialActiveTab s)).
  - right. split; [done|]. exists tab. by apply (calm_same _ (setInitialActiveTab s)).
Qed.

Lemma outward_init s : outward s (init s).
Proof.
  destruct (request_init s) as [H|(Hp & tab & H)];
    [by apply out_calm|by apply (out_push _ _ tab)].
Qed.
End Outward.

(** The ids carried by the [tabChange] events dispatched on [window],
    and the URLs handed to [history.pushState], oldest first. *)
Definition tab_changes (l : list Effect) : list (option string) :=
  omap (λ e, match e with TabChangeWindow t => Some t | _ => None end) l.

Definition pushes (l : list Effect) : list string :=
  omap (λ e, match e with PushState u => Some u | _ => None end) l.

(** [location.hash] after [pushState] to a URL that is a bare fragment;
    the controller pushes no other. *)
Definition url_fragment (u : string) : string :=
  match u with
  | String "#"%char t => hash_after_push t
  | _ => u
  end.

(** Letters, digits, [-] and [_]: the characters that neither the URL
    parser nor the selector syntax treats specially. *)
Definition plain_char (c : ascii) : bool :=
  is_letter c || is_digit c || Nat.eqb (code c) 45 || Nat.eqb (code c) 95.

Fixpoint plain (t : string) : bool :=
  match t with
  | EmptyString => true
  | String c rest => plain_char c && plain rest
  end.

Section Observers.
Implicit Types (s : State) (l es : list Effect).

Lemma tab_changes_quiet l es :
  forallb quiet es = true → tab_changes (l ++ es) = tab_changes l.
Proof.
  intros Q. unfold tab_changes. rewrite omap_app.
  induction es as [|[] es IH]; simpl in *; try done; by rewrite ?app_nil_r in *; auto.
Qed.

Lemma pushes_quiet l es : forallb quiet es = true → pushes (l ++ es) = pushes l.
Proof.
  intros Q. unfold pushes. rewrite omap_app.
  induction es as [|[] es IH]; simpl in *; try done; by rewrite ?app_nil_r in *; auto.
Qed.

Lemma url_fragment_push tab : url_fragment ("#" ++ tab)%string = hash_after_push tab.
Proof. done. Qed.

Lemma plain_char_code c :
  plain_char c = true → 32 < code c < 127 ∧ code c ≠ 34 ∧ code c ≠ 60 ∧ code c ≠ 62 ∧
                        code c ≠ 96.
Proof.
  unfold plain_char, is_letter, is_digit.
  rewrite !orb_true_iff, !andb_true_iff, !Nat.leb_le, !Nat.eqb_eq. lia.
Qed.

Lemma plain_char_kept c :
  plain_char c = true →
  Nat.leb (code c) 32 = false ∧ is_tab_or_newline c = false ∧
  in_fragment_encode_set c = false.
Proof.
  intros H%plain_char_code. unfold is_tab_or_newline, in_fragment_encode_set.
  rewrite !orb_false_iff, !Nat.leb_gt, !Nat.eqb_neq. lia.
Qed.

Lemma strip_trailing_plain t : plain t = true → strip_trailing t = t.
Proof.
  induction t as [|c t IH]; [done|]. simpl. intros [Hc Ht]%andb_true_iff.
  rewrite (IH Ht). destruct (plain_char_kept c Hc) as (-> & _).
  by destruct t.
Qed.

Lemma drop_tab_or_newline_plain t : plain t = true → drop_tab_or_newline t = t.
Proof.
  induction t as [|c t IH]; [done|]. simpl. intros [Hc Ht]%andb_true_iff.
  destruct (plain_char_kept c Hc) as (_ & -> & _). by rewrite (IH Ht).
Qed.

Lemma encode_fragment_plain t : plain t = true → encode_fragment t = t.
Proof.
  induction t as [|c t IH]; [done|]. simpl. intros [Hc Ht]%andb_true_iff.
  destruct (plain_char_kept c Hc) as (_ & _ & ->). by rewrite (IH Ht).
Qed.

(** A plain tab id reads back from [location.hash] as it was pushed. *)
Lemma hash_after_push_plain tab :
  plain tab = true → tab ≠ ""%string → hash_after_push tab = ("#" ++ tab)%string.
Proof.
  intros Hp Hne. unfold hash_after_push.
  rewrite strip_trailing_plain, drop_tab_or_newline_plain, encode_fragment_plain by done.
  by destruct tab.
Qed.

Definition tracked (s : State) : Prop :=
  activeTab s = default None (last (tab_changes (log s))).

Lemma tracked_outward s s' : outward s s' → tracked s → tracked s'.
Proof.
  unfold tracked, outer. intros Hout Htr.
  destruct Hout as [(es & Q & [= -> -> _ _])|tab _ (es & Q & [= -> -> _ _])
                   |tab [= -> -> _ _]].
  - by rewrite tab_changes_quiet.
  - rewrite tab_changes_quiet by done. cbn [log emit set_hash activeTab].
    unfold tab_changes. rewrite omap_app. simpl. by rewrite app_nil_r.
  - unfold tab_changes. rewrite omap_app. simpl. by rewrite last_snoc.
Qed.

Definition history_ok (hash : string) (push : bool) (s : State) : Prop :=
  location_hash s = default hash (url_fragment <$> last (pushes (log s))) ∧
  has_pushState s = push ∧
  (if push then True else pushes (log s) = []).

Lemma history_outward hash push s s' :
  outward s s' → history_ok hash push s → history_ok hash push s'.
Proof.
  unfold history_ok, outer. intros Hout (Hh & Hpush & Hnone).
  destruct Hout as [(es & Q & [= -> _ -> ->])|tab Hp (es & Q & [= -> _ -> ->])
                   |tab [= -> _ -> ->]].
  - by rewrite pushes_quiet.
  - rewrite pushes_quiet by done. cbn [log emit set_hash location_hash has_pushState].
    unfold pushes at 1. rewrite omap_app. simpl. rewrite last_snoc. simpl.
    split_and!; [done..|].
    destruct push; [done|congruence].
  - unfold pushes in *. rewrite omap_app. simpl. by rewrite app_nil_r.
Qed.
End Observers.

(** X1.  [getActiveTab()] always returns the id carried by the last
    [tabChange] event dispatched on [window], and [null] as long as none
    was dispatched: for every page, fragment and sequence of requests and
    browser callbacks.  In particular it is [null] right after
    construction, whatever the markup or the fragment select. *)
Theorem activeTab_is_last_tabChange d n hash push es :
  getActiveTab (run es (new_Tabs d n hash push)) =
    default None (last (tab_changes (log (run es (new_Tabs d n hash push))))) ∧
  getActiveTab (new_Tabs d n hash push) = None.
Proof.
  assert (H0 : tracked (new_Tabs d n hash push)).
  { rewrite new_Tabs_init. by apply (tracked_outward _ _ (outward_init _)). }
  assert (Hrun : ∀ s, tracked s → tracked (run es s)).
  { unfold run. induction es as [|e es IH]; intros s Hs; simpl; [done|].
    apply IH. by apply (tracked_outward s _ (outward_step e s)). }
  split; [by apply Hrun|].
  unfold getActiveTab. rewrite new_Tabs_init.
  by destruct (request_init (fresh_Tabs d n hash push))
    as [(es' & Q & [= _ -> _ _])|(_ & tab & es' & Q & [= _ -> _ _])].
Qed.


(** ** The trigger named by [activeTab] carries [active]

    Except between the class swap and the completion of a switch, the
    trigger whose [data-tab] is [activeTab] is active. *)

Definition swapped (s : State) : bool :=
  match tasks s with
  | [InTransition _ FadeIn] => true
  | _ => false
  end.

Definition active_link (s : State) : Prop :=
  ∀ t, activeTab s = Some t → swapped s = false →
       ∃ h k, bk s !! h = Some k ∧ k.1.2 = Some t ∧ k.2 = true.

Section ActiveLink.
Implicit Types (s : State) (fr : Frame).

Lemma active_link_same s s' :
  bk s' = bk s → activeTab s' = activeTab s →
  (swapped s' = false → swapped s = false) →
  active_link s → active_link s'.
Proof.
  intros Hb Ha Hsw HJ t Ht Hs'. rewrite Hb. apply HJ; [congruence|auto].
Qed.

Lemma bk_switch_catch e fr s :
  bk (switch_catch e fr s).1 = bk s ∧ activeTab (switch_catch e fr s).1 = activeTab s ∧
  tasks (switch_catch e fr s).1 = tasks s.
Proof.
  unfold switch_catch.
  pose proof (view_switch_finally fr (emit [ConsoleError e] s)) as Hv.
  apply view_eq in Hv as (Hb & _ & _ & _ & Ha & _). by rewrite Hb, Ha.
Qed.

Lemma active_link_switchToTab btn s :
  Inv s → active_link s → active_link (switchToTab btn s).1.
Proof.
  intros HI HJ.
  destruct (transitioning s) eqn:Etr.
  { unfold switchToTab. rewrite Etr. by destruct (buttons (doc s) !! btn). }
  pose proof (idle_tasks s (proj1 HI) Etr) as Hts.
  assert (Hsw : swapped s = false) by (unfold swapped; by rewrite Hts).
  destruct (switchToTab_spec btn s Hts Etr)
    as [->|[(b & _ & _ & _ & ->)|[Hstart|(b & _ & _ & _ & ->)]]];
    [done| | |].
  - by apply (active_link_same s).
  - destruct Hstart as (b & fr & Hb & Hact & _ & _ & Hq & _ & Ha & _).
    apply (active_link_same s); [|done|done|done].
    unfold switchToTab. rewrite Hb, Etr, Hact. cbn [orb].
    change (doc (set_transitioning true s)) with (doc s). rewrite Hq.
    pose proof (view_preloadTabContent (b_data_tab b) (targetContent fr)) as Hv.
    match goal with
    | |- bk (preloadTabContent ?tab ?c (Switch ?f) ?t).1 = _ =>
        specialize (Hv f t); apply view_inj in Hv as (-> & _)
    end.
    rewrite bk_upd_button by done. unfold push_hash. cbn.
    by destruct (has_pushState s).
  - by apply (active_link_same s).
Qed.

Lemma resume_preload_keys c aw fr r s p :
  resume (InPreload c aw (Switch fr)) r s = Some p →
  bk p.1 = bk s ∧ activeTab p.1 = activeTab s.
Proof.
  intros Hres.
  destruct aw, r; try discriminate; cbn [resume] in Hres; injection Hres as <-;
    cbn [fst]; unfold preload_catch, preload_throw, preload_return.
  all: try match goal with
       | |- context [switch_catch ?e ?f ?t] =>
           destruct (bk_switch_catch e f t) as (-> & -> & _)
       end; try done.
  - match goal with
    | |- context [preload_images c (Switch fr) ?t] =>
        pose proof (view_preload_images c fr t) as Hv
    end.
    by apply view_inj in Hv as (-> & _ & _ & _ & _ & -> & _).
  - pose proof (view_performTabTransition fr s) as Hv.
    by apply view_inj in Hv as (-> & _ & _ & _ & _ & -> & _).
Qed.

Lemma active_link_resume t r s p :
  Inv (set_tasks [t] s) → active_link (set_tasks [t] s) → tasks s = [] →
  resume t r s = Some p → active_link p.1.
Proof.
  intros HI HJ Hts Hres. pose proof (proj1 HI) as Hc.
  unfold control_ok in Hc. cbn [tasks set_tasks] in Hc. destruct Hc as (_ & Hok & _).
  destruct t as [c aw [fr|]|fr timer]; [|done|].
  - destruct (resume_preload_keys c aw fr r s p Hres) as [Hb Ha].
    by apply (active_link_same (set_tasks [InPreload c aw (Switch fr)] s)).
  - destruct timer, r; try discriminate; cbn [resume] in Hres; injection Hres as <-;
      cbn [fst].
    + intros t _ Hsw. exfalso. unfold swapped in Hsw.
      destruct (rest_swap_classes fr s) as (_ & _ & _ & _ & Ht).
      cbn [tasks spawn emit set_tasks] in Hsw. by rewrite Ht, Hts in Hsw.
    + intros t Ht _. destruct Hok as [(k & Hk & Htab) _].
      change (bk (set_tasks ?l s)) with (bk s) in Hk.
      set (s1 := upd_panel (targetContent fr) fade_in s) in *.
      pose proof (view_switch_complete fr s1) as Hv.
      apply view_eq in Hv as (Hb & _ & _ & _ & Ha & _).
      rewrite Ha in Ht. rewrite Hb.
      assert (Hb1 : bk s1 = bk s) by done.
      rewrite Hb1.
      assert (Hfst : fst <$> alter_all (k_set_active false) (tabButtons s1) (bk s)
                     = fst <$> bk s) by apply fst_alter_all_set.
      destruct (lookup_fst_image _ _ (button fr) k (eq_sym Hfst) Hk) as (k' & Hk' & Hk1).
      exists (button fr), (k'.1, true). split_and!; [|simpl; congruence|done].
      by rewrite list_lookup_alter_eq, Hk'.
Qed.

Lemma active_link_step e s : Inv s → active_link s → active_link (step e s).
Proof.
  intros HI HJ. destruct e as [btn|i r]; simpl.
  - by apply active_link_switchToTab.
  - destruct (tasks s !! i) as [t|] eqn:Et; [|done].
    destruct (busy_tasks s t i (proj1 HI) Et) as [Hts ->].
    rewrite Hts. cbn [delete list_delete].
    destruct (resume t r _) as [[s' st]|] eqn:Er; [|done].
    apply (active_link_resume t r (set_tasks [] s) (s', st)); [| |done..].
    + by apply (Inv_ext s).
    + apply (active_link_same s); try done. unfold swapped. cbn. by rewrite Hts.
Qed.

Lemma active_link_reachable d n hash push es :
  markup_ok d → active_link (run es (new_Tabs d n hash push)).
Proof.
  intros Hd.
  assert (H0 : Inv (new_Tabs d n hash push) ∧ active_link (new_Tabs d n hash push)).
  { split; [by apply Inv_init, Inv_fresh|].
    rewrite new_Tabs_init. unfold init. case_match; [done|].
    assert (HI : Inv (fresh_Tabs d n hash push)) by (by apply Inv_fresh).
    assert (HJ : active_link (fresh_Tabs d n hash push)) by done.
    apply (active_link_same (setInitialActiveTab (fresh_Tabs d n hash push))).
    - pose proof (view_updateTabAccessibility
                    (setInitialActiveTab (fresh_Tabs d n hash push))) as Hv.
      by apply view_inj in Hv as (-> & _).
    - pose proof (view_updateTabAccessibility
                    (setInitialActiveTab (fresh_Tabs d n hash push))) as Hv.
      by apply view_inj in Hv as (_ & _ & _ & _ & _ & -> & _).
    - unfold swapped. by rewrite tasks_updateTabAccessibility.
    - unfold setInitialActiveTab. repeat case_match; try done;
        by apply active_link_switchToTab. }
  destruct H0 as [HI HJ]. unfold run.
  generalize dependent (new_Tabs d n hash push).
  induction es as [|e es IH]; intros s HI HJ; simpl; [done|].
  apply IH; [by apply Inv_step|by apply active_link_step].
Qed.
End ActiveLink.

(** X3.  From well-formed markup, in every reachable state that is not
    between the two timers of a cross-fade -- in every idle state in
    particular -- the tab that [getActiveTab()] returns is the tab of an
    attached trigger that carries the [active] class. *)
Theorem active_tab_has_active_trigger d n hash push es t :
  markup_ok d →
  getActiveTab (run es (new_Tabs d n hash push)) = Some t →
  swapped (run es (new_Tabs d n hash push)) = false →
  ∃ h b, buttons (doc (run es (new_Tabs d n hash push))) !! h = Some b ∧
         b_attached b = true ∧ b_data_tab b = Some t ∧ b_active b = true.
Proof.
  intros Hd Ht Hsw.
  pose proof (Inv_reachable d n hash push es Hd) as [_ Hdom].
  destruct (active_link_reachable d n hash push es Hd t Ht Hsw) as (h & k & Hk & Hk1 & Hk2).
  unfold bk in Hk. rewrite list_lookup_fmap in Hk.
  destruct (buttons _ !! h) as [b|] eqn:Eb; [|done]. injection Hk as <-.
  exists h, b. split_and!; try done.
  apply (attached_b _ Hdom h (b_key b)). unfold bk. by rewrite list_lookup_fmap, Eb.
Qed.

Lemma active_tab_has_active_trigger_witness :
  ∃ h b, buttons (doc (run [Activate 2; Resume 0 TimerFired; Resume 0 TimerFired]
                         (new_Tabs page_ABC 1 "" true))) !! h = Some b ∧
         b_attached b = true ∧ b_data_tab b = Some "C"%string ∧ b_active b = true.
Proof.
  assert (H1 : getActiveTab (run [Activate 2; Resume 0 TimerFired; Resume 0 TimerFired]
                               (new_Tabs page_ABC 1 "" true)) = Some "C"%string)
    by (vm_compute; reflexivity).
  assert (H2 : swapped (run [Activate 2; Resume 0 TimerFired; Resume 0 TimerFired]
                          (new_Tabs page_ABC 1 "" true)) = false)
    by (vm_compute; reflexivity).
  exact (active_tab_has_active_trigger page_ABC 1 "" true
           [Activate 2; Resume 0 TimerFired; Resume 0 TimerFired] "C"
           page_ABC_ok H1 H2).
Defined.

(** X4.  When the fetch of a tab's content was rejected, the next
    request for the same tab is accepted and fetches the same URL again
    (pushing a second history entry for the tab when the history API is
    there): re-activating the tab is the retry. *)
Theorem failed_fetch_is_retried s0 btn b c p url :
  tasks s0 = [] → transitioning s0 = false →
  buttons (doc s0) !! btn = Some b → b_active b = false →
  select_id (interp (b_data_tab b)) (doc s0) = Found c →
  panels (doc s0) !! c = Some p →
  shouldLoad p = true → p_data_load_url p = Some url → url ≠ ""%string →
  let s2 := run [Activate btn; Resume 0 FetchRejected] s0 in
  let s3 := step (Activate btn) s2 in
  transitioning s2 = false ∧ tasks s2 = [] ∧
  transitioning s3 = true ∧
  (∃ fr, button fr = btn ∧ tasks s3 = [InPreload c AwFetch (Switch fr)]) ∧
  log s3 = log s2 ++
           (if has_pushState s0
            then [PushState ("#" ++ interp (b_data_tab b))%string] else []) ++
           [Fetch url].
Proof.
  intros Hts Htr Hb Hact Hq Hp Hload Hurl Hne s2 s3.
  destruct (remote_switch_starts s0 btn b c p url Htr Hb Hact Hq Hp Hload Hurl Hne)
    as (fr & Hfr & Hs1).
  set (retry := {| markup := RetryAffordance; lazy_imgs := []; src_imgs := [] |}).
  assert (Hs2 : s2 = (switch_catch NetworkError fr
                        (upd_panel c (p_set_inner retry)
                           (set_tasks []
                              (emit [Fetch url]
                                 (upd_button btn (b_set_loading true)
                                    (push_hash (interp (b_data_tab b))
                                       (set_transitioning true s0))))))).1).
  { unfold s2, run. cbn [foldl]. unfold step at 2. rewrite Hs1. cbn [fst].
    unfold step. unfold push_hash. cbn [has_pushState set_transitioning].
    destruct (has_pushState s0); cbn; rewrite Hts; reflexivity. }
  clearbody s2.
  set (b2 := b_set_loading false (b_set_loading true b)).
  set (p2 := p_set_inner retry p).
  assert (Hb2 : buttons (doc s2) !! btn = Some b2).
  { rewrite Hs2. unfold push_hash. cbn [has_pushState set_transitioning].
    destruct (has_pushState s0); cbn; rewrite Hfr;
      by rewrite list_lookup_alter_eq, list_lookup_alter_eq, Hb. }
  assert (Hp2 : panels (doc s2) !! c = Some p2).
  { rewrite Hs2. unfold push_hash. cbn [has_pushState set_transitioning].
    destruct (has_pushState s0); cbn; by rewrite list_lookup_alter_eq, Hp. }
  assert (Hq2 : select_id (interp (b_data_tab b2)) (doc s2) = Found c).
  { rewrite <- Hq. apply select_id_keys. rewrite Hs2. unfold pk, push_hash.
    cbn [has_pushState set_transitioning].
    destruct (has_pushState s0); cbn; by rewrite image_alter. }
  assert (Hts2 : tasks s2 = []).
  { rewrite Hs2. unfold push_hash. cbn [has_pushState set_transitioning].
    by destruct (has_pushState s0). }
  assert (Htr2 : transitioning s2 = false) by (by rewrite Hs2).
  assert (Hpush2 : has_pushState s2 = has_pushState s0).
  { rewrite Hs2. unfold push_hash. cbn [has_pushState set_transitioning].
    by destruct (has_pushState s0) eqn:E. }
  destruct (remote_switch_starts s2 btn b2 c p2 url Htr2 Hb2 Hact Hq2 Hp2 Hload Hurl Hne)
    as (fr' & Hfr' & Hs3).
  split_and!; [exact Htr2|exact Hts2| | |].
  - unfold s3, step. rewrite Hs3. cbn [fst]. unfold push_hash.
    cbn [has_pushState set_transitioning]. by destruct (has_pushState s2).
  - exists fr'. split; [done|]. unfold s3, step. rewrite Hs3. cbn [fst].
    unfold push_hash. cbn [has_pushState set_transitioning].
    destruct (has_pushState s2); cbn; by rewrite Hts2.
  - unfold s3, step. rewrite Hs3. cbn [fst].
    unfold push_hash. cbn [has_pushState set_transitioning]. rewrite Hpush2.
    destruct (has_pushState s0); cbn; by rewrite <- ?app_assoc.
Qed.

Lemma failed_fetch_is_retried_witness :
  let s2 := run [Activate 1; Resume 0 FetchRejected] (new_Tabs page_remote 1 "" true) in
  let s3 := step (Activate 1) s2 in
  transitioning s2 = false ∧ tasks s2 = [] ∧
  transitioning s3 = true ∧
  (∃ fr, button fr = 1 ∧ tasks s3 = [InPreload 1 AwFetch (Switch fr)]) ∧
  log s3 = log s2 ++
           (if has_pushState (new_Tabs page_remote 1 "" true)
            then [PushState ("#" ++ interp (b_data_tab
                    (b_set_aria false (Some "B"%string) (trigger "B" false))))%string]
            else []) ++
           [Fetch "b.html"].
Proof.
  assert (H1 : tasks (new_Tabs page_remote 1 "" true) = []) by (vm_compute; reflexivity).
  assert (H2 : transitioning (new_Tabs page_remote 1 "" true) = false)
    by (vm_compute; reflexivity).
  assert (H3 : buttons (doc (new_Tabs page_remote 1 "" true)) !! 1 =
               Some (b_set_aria false (Some "B"%string) (trigger "B" false)))
    by (vm_compute; reflexivity).
  assert (H4 : select_id (interp (b_data_tab
                 (b_set_aria false (Some "B"%string) (trigger "B" false))))
                 (doc (new_Tabs page_remote 1 "" true)) = Found 1)
    by (vm_compute; reflexivity).
  assert (H5 : panels (doc (new_Tabs page_remote 1 "" true)) !! 1 =
               Some (p_set_aria false (Some "B"%string) (remote_panel "B" "b.html")))
    by (vm_compute; reflexivity).
  assert (H6 : "b.html"%string ≠ ""%string) by discriminate.
  exact (failed_fetch_is_retried (new_Tabs page_remote 1 "" true) 1 _ 1 _ "b.html"
           H1 H2 H3 eq_refl H4 H5 eq_refl eq_refl H6).
Defined.

Section LocalSwitch.
Context (s0 : State) (btn : handle) (b : Button) (c : handle) (p : Panel).
Hypothesis Htr : transitioning s0 = false.
Hypothesis Hb : buttons (doc s0) !! btn = Some b.
Hypothesis Hact : b_active b = false.
Hypothesis Hq : select_id (interp (b_data_tab b)) (doc s0) = Found c.
Hypothesis Hp : panels (doc s0) !! c = Some p.
Hypothesis Hload : shouldLoad p = false.

(** A request for a panel that needs no fetch goes straight to its
    images. *)
Lemma local_switch_starts :
  ∃ fr, button fr = btn ∧
        switchToTab btn s0 =
        preload_images c (Switch fr)
          (upd_button btn (b_set_loading true)
             (push_hash (interp (b_data_tab b)) (set_transitioning true s0))).
Proof.
  eexists {| button := btn |}. split; [reflexivity|].
  unfold switchToTab. rewrite Hb, Htr, Hact. cbn [orb].
  change (doc (set_transitioning true s0)) with (doc s0). rewrite Hq.
  unfold preloadTabContent.
  assert (Hp' : panels (doc (upd_button btn (b_set_loading true)
                  (push_hash (interp (b_data_tab b)) (set_transitioning true s0)))) !! c
                = Some p).
  { unfold push_hash. cbn. by destruct (has_pushState s0). }
  rewrite Hp', Hload. reflexivity.
Qed.
End LocalSwitch.

(** X5.  When an image of the target panel fails to load, the switch is
    abandoned; but every lazy image was already given its [src] and lost
    its [data-src], so the next request for the same tab loads no image
    at all and goes straight to the cross-fade: a failed image is never
    requested again. *)
Theorem failed_image_is_not_retried s0 btn b c p :
  tasks s0 = [] → transitioning s0 = false →
  buttons (doc s0) !! btn = Some b → b_active b = false →
  select_id (interp (b_data_tab b)) (doc s0) = Found c →
  panels (doc s0) !! c = Some p →
  shouldLoad p = false → lazy_imgs (p_inner p) ≠ [] →
  let push := if has_pushState s0
              then [PushState ("#" ++ interp (b_data_tab b))%string] else [] in
  let s1 := step (Activate btn) s0 in
  let s2 := step (Resume 0 ImageFailed) s1 in
  let s3 := step (Activate btn) s2 in
  log s1 = log s0 ++ push ++ (LoadImage <$> lazy_imgs (p_inner p)) ∧
  log s2 = log s1 ++ [ConsoleError ImageError] ∧
  transitioning s2 = false ∧ tasks s2 = [] ∧ activeTab s2 = activeTab s0 ∧
  log s3 = log s2 ++ push ++ [SetTimeout 300] ∧
  ∃ fr, button fr = btn ∧ tasks s3 = [InTransition fr FadeOut].
Proof.
  intros Hts Htr Hb Hact Hq Hp Hload Himgs push s1 s2 s3.
  destruct (local_switch_starts s0 btn b c p Htr Hb Hact Hq Hp Hload)
    as (fr & Hfr & Hs1).
  set (started := λ imgs,
         spawn (InPreload c AwImages (Switch fr))
           (emit (LoadImage <$> imgs)
              (upd_panel c (λ q, p_set_inner (start_images (p_inner q)) q)
                 (upd_button btn (b_set_loading true)
                    (push_hash (interp (b_data_tab b)) (set_transitioning true s0)))))).
  assert (Hs1' : s1 = started (lazy_imgs (p_inner p))).
  { unfold s1, step. rewrite Hs1. unfold preload_images.
    assert (Hp' : panels (doc (upd_button btn (b_set_loading true)
                    (push_hash (interp (b_data_tab b)) (set_transitioning true s0)))) !! c
                  = Some p).
    { unfold push_hash. cbn. by destruct (has_pushState s0). }
    rewrite Hp'. by destruct (lazy_imgs (p_inner p)). }
  clearbody s1.
  assert (Hs2 : s2 = (switch_catch ImageError fr
                        (set_tasks [] (started (lazy_imgs (p_inner p))))).1).
  { unfold s2, step. rewrite Hs1'. unfold started, push_hash.
    cbn [has_pushState set_transitioning].
    destruct (has_pushState s0); cbn; rewrite Hts; reflexivity. }
  clearbody s2.
  set (b2 := b_set_loading false (b_set_loading true b)).
  set (p2 := p_set_inner (start_images (p_inner p)) p).
  assert (Hb2 : buttons (doc s2) !! btn = Some b2).
  { rewrite Hs2. unfold started, push_hash. cbn [has_pushState set_transitioning].
    destruct (has_pushState s0); cbn; rewrite Hfr;
      by rewrite list_lookup_alter_eq, list_lookup_alter_eq, Hb. }
  assert (Hp2 : panels (doc s2) !! c = Some p2).
  { rewrite Hs2. unfold started, push_hash. cbn [has_pushState set_transitioning].
    destruct (has_pushState s0); cbn; by rewrite list_lookup_alter_eq, Hp. }
  assert (Hq2 : select_id (interp (b_data_tab b2)) (doc s2) = Found c).
  { rewrite <- Hq. apply select_id_keys. rewrite Hs2. unfold pk, started, push_hash.
    cbn [has_pushState set_transitioning].
    destruct (has_pushState s0); cbn; by rewrite image_alter. }
  assert (Hts2 : tasks s2 = []).
  { rewrite Hs2. unfold started, push_hash. cbn [has_pushState set_transitioning].
    by destruct (has_pushState s0). }
  assert (Htr2 : transitioning s2 = false) by (by rewrite Hs2).
  assert (Hpush2 : has_pushState s2 = has_pushState s0).
  { rewrite Hs2. unfold started, push_hash. cbn [has_pushState set_transitioning].
    by destruct (has_pushState s0) eqn:E. }
  destruct (local_switch_starts s2 btn b2 c p2 Htr2 Hb2 Hact Hq2 Hp2 Hload)
    as (fr' & Hfr' & Hs3).
  assert (Hs3' : switchToTab btn s2 =
                 performTabTransition fr'
                   (emit []
                      (upd_panel c (λ q, p_set_inner (start_images (p_inner q)) q)
                         (upd_button btn (b_set_loading true)
                            (push_hash (interp (b_data_tab b2))
                               (set_transitioning true s2)))))).
  { rewrite Hs3. unfold preload_images.
    assert (Hp' : panels (doc (upd_button btn (b_set_loading true)
                    (push_hash (interp (b_data_tab b2)) (set_transitioning true s2)))) !! c
                  = Some p2).
    { unfold push_hash. cbn. by destruct (has_pushState s2). }
    rewrite Hp'. reflexivity. }
  split_and!.
  - rewrite Hs1'. unfold started, push, push_hash. cbn [has_pushState set_transitioning].
    destruct (has_pushState s0); cbn; by rewrite <- ?app_assoc.
  - rewrite Hs2, Hs1'. reflexivity.
  - exact Htr2.
  - exact Hts2.
  - rewrite Hs2. unfold started, push_hash. cbn [has_pushState set_transitioning].
    by destruct (has_pushState s0).
  - unfold s3, step. rewrite Hs3'. unfold push, performTabTransition, push_hash.
    cbn [has_pushState set_transitioning]. rewrite Hpush2.
    destruct (has_pushState s0), (currentContent fr'); cbn;
      by rewrite ?app_nil_r, <- ?app_assoc.
  - exists fr'. split; [done|]. unfold s3, step. rewrite Hs3'.
    unfold performTabTransition, push_hash.
    cbn [has_pushState set_transitioning].
    destruct (has_pushState s2), (currentContent fr'); cbn; by rewrite Hts2.
Qed.

Lemma failed_image_is_not_retried_witness :
  let push := if has_pushState (new_Tabs page_gallery 1 "" true)
              then [PushState ("#" ++ interp (b_data_tab
                      (b_set_aria false (Some "G"%string) (trigger "G" false))))%string]
              else [] in
  let s1 := step (Activate 1) (new_Tabs page_gallery 1 "" true) in
  let s2 := step (Resume 0 ImageFailed) s1 in
  let s3 := step (Activate 1) s2 in
  log s1 = log (new_Tabs page_gallery 1 "" true) ++ push ++
           (LoadImage <$> lazy_imgs (p_inner
              (p_set_aria false (Some "G"%string)
                 (lazy_panel "G" ["g1.png"%string; "g2.png"%string])))) ∧
  log s2 = log s1 ++ [ConsoleError ImageError] ∧
  transitioning s2 = false ∧ tasks s2 = [] ∧
  activeTab s2 = activeTab (new_Tabs page_gallery 1 "" true) ∧
  log s3 = log s2 ++ push ++ [SetTimeout 300] ∧
  ∃ fr, button fr = 1 ∧ tasks s3 = [InTransition fr FadeOut].
Proof.
  assert (H1 : tasks (new_Tabs page_gallery 1 "" true) = []) by (vm_compute; reflexivity).
  assert (H2 : transitioning (new_Tabs page_gallery 1 "" true) = false)
    by (vm_compute; reflexivity).
  assert (H3 : buttons (doc (new_Tabs page_gallery 1 "" true)) !! 1 =
               Some (b_set_aria false (Some "G"%string) (trigger "G" false)))
    by (vm_compute; reflexivity).
  assert (H4 : select_id (interp (b_data_tab
                 (b_set_aria false (Some "G"%string) (trigger "G" false))))
                 (doc (new_Tabs page_gallery 1 "" true)) = Found 1)
    by (vm_compute; reflexivity).
  assert (H5 : panels (doc (new_Tabs page_gallery 1 "" true)) !! 1 =
               Some (p_set_aria false (Some "G"%string)
                       (lazy_panel "G" ["g1.png"%string; "g2.png"%string])))
    by (vm_compute; reflexivity).
  assert (H6 : lazy_imgs (p_inner (p_set_aria false (Some "G"%string)
                 (lazy_panel "G" ["g1.png"%string; "g2.png"%string]))) ≠ [])
    by discriminate.
  exact (failed_image_is_not_retried (new_Tabs page_gallery 1 "" true) 1 _ 1 _
           H1 H2 H3 eq_refl H4 H5 eq_refl H6).
Defined.

Section AccessibilityTwice.
Implicit Types (s : State) (hs : list handle).

Lemma accessibility_of_dom h s :
  accessibility_of h s = set_doc (doc (accessibility_of h s)) s ∧
  title (doc (accessibility_of h s)) = title (doc s).
Proof.
  unfold accessibility_of. destruct (buttons (doc s) !! h); [|by destruct s].
  by destruct (query_id _ _).
Qed.

Lemma set_doc_trans s x y :
  y = set_doc (doc y) x → x = set_doc (doc x) s → y = set_doc (doc y) s.
Proof.
  destruct s, x, y. unfold set_doc. simpl. intros [= -> -> -> -> -> -> -> -> ->].
  by intros [= -> -> -> -> -> -> -> -> ->].
Qed.

Lemma accessibility_loop_dom hs s :
  forEach hs accessibility_of s = set_doc (doc (forEach hs accessibility_of s)) s ∧
  title (doc (forEach hs accessibility_of s)) = title (doc s).
Proof.
  revert s. induction hs as [|h hs IH]; intros s; [by destruct s|].
  change (forEach (h :: hs) accessibility_of s)
    with (forEach hs accessibility_of (accessibility_of h s)).
  destruct (IH (accessibility_of h s)) as [IH1 IH2].
  destruct (accessibility_of_dom h s) as [H1 H2].
  split; [|congruence]. by apply (set_doc_trans s (accessibility_of h s)).
Qed.

Lemma b_aria_of_idemp b : b_aria_of (b_aria_of b) = b_aria_of b.
Proof. done. Qed.

Lemma p_set_aria_idemp a t p : p_set_aria a t (p_set_aria a t p) = p_set_aria a t p.
Proof. done. Qed.
End AccessibilityTwice.


(** ** Removing the tab that is being switched to *)

Section RemovedTarget.
Local Open Scope nat_scope.

Lemma all_matches_empty {A} (sel : A → bool) (l : list A) :
  (∀ i x, l !! i = Some x → sel x = false) → all_matches sel l = [].
Proof.
  intros H. apply elem_of_nil_inv. intros i Hi.
  apply elem_of_all_matches in Hi as (x & Hx & Hs).
  rewrite (H i x Hx) in Hs. done.
Qed.

(** After [updateActiveStates] for a detached target nothing that a
    selector can reach carries [active]. *)
Lemma none_active_after_reset {K} (l : list ((bool * K) * bool)) hs tgt i k :
  (∀ j x, l !! j = Some x → x.1.1 = true → j ∈ hs) →
  (∀ x, l !! tgt = Some x → x.1.1 = false) →
  alter (k_set_active true) tgt (alter_all (k_set_active false) hs l) !! i = Some k →
  k_active k = false.
Proof.
  intros Hall Htgt Hi. destruct (k_active k) eqn:Hk; [exfalso|done].
  pose proof (only_target_after_reset l hs tgt i k Hall Hi Hk) as ->.
  assert (Hf : fst <$> alter (k_set_active true) tgt
                         (alter_all (k_set_active false) hs l) = fst <$> l).
  { by rewrite fst_alter_set, fst_alter_all_set. }
  destruct (lookup_fst_image l _ tgt k Hf Hi) as (x & Hx & Hx1).
  unfold k_active in Hk. apply andb_true_iff in Hk as [Hatt _].
  rewrite <- Hx1, (Htgt x Hx) in Hatt. done.
Qed.

Lemma active_keys_buttons (s : State) :
  (∀ i k, bk s !! i = Some k → k_active k = false) →
  all_matches sel_tab_btn_active (buttons (doc s)) = [].
Proof.
  intros H. apply all_matches_empty. intros i b Hb.
  apply (H i (b_key b)). unfold bk. by rewrite list_lookup_fmap, Hb.
Qed.

Lemma active_keys_panels (s : State) :
  (∀ i k, pk s !! i = Some k → k_active k = false) →
  all_matches sel_tab_content_active (panels (doc s)) = [].
Proof.
  intros H. apply all_matches_empty. intros i p Hp.
  apply (H i (p_key p)). unfold pk. by rewrite list_lookup_fmap, Hp.
Qed.
End RemovedTarget.





(** ** Keyboard navigation *)

Section Keyboard.
Implicit Types (l : list handle) (s : State).

Lemma NoDup_matches_from {A} (sel : A → bool) k (xs : list A) :
  NoDup (matches_from sel k xs).
Proof.
  revert k. induction xs as [|x xs IH]; intros k; simpl; [constructor|].
  destruct (sel x); [|apply IH]. constructor; [|apply IH].
  intros (y & Hle & _)%elem_of_matches_from. lia.
Qed.

Lemma NoDup_tabButtons d n hash push es :
  NoDup (tabButtons (run es (new_Tabs d n hash push))).
Proof.
  destruct (stable_reachable d n hash push es) as [_ _ _ Hreg].
  apply registry_eq in Hreg as [-> _]. apply NoDup_matches_from.
Qed.

Lemma indexOf_lookup l i h : NoDup l → l !! i = Some h → indexOf l h = Z.of_nat i.
Proof.
  intros Hnd Hi. unfold indexOf.
  assert (H : first_match (λ y, Nat.eqb y h) l = Some i); [|by rewrite H].
  apply first_match_Some. exists h. split_and!; [done|apply Nat.eqb_refl|].
  intros j y Hj Hlt. apply Nat.eqb_neq. intros ->.
  pose proof (NoDup_lookup l i j h Hnd Hi Hj). lia.
Qed.

Lemma indexOf_range l h : (-1 ≤ indexOf l h < Z.of_nat (length l))%Z.
Proof.
  unfold indexOf. destruct (first_match _ l) as [i|] eqn:E; [|lia].
  apply first_match_Some in E as (x & Hi & _). apply lookup_lt_Some in Hi. lia.
Qed.

Lemma item_nat l (i : nat) : item l (Z.of_nat i) = l !! i.
Proof.
  unfold item. destruct (Z.ltb_spec (Z.of_nat i) 0); [lia|]. by rewrite Nat2Z.id.
Qed.

Lemma focus_item_nat l (i : nat) h : l !! i = Some h → focus_item l (Z.of_nat i) = FocusCalled h.
Proof. intros Hi. unfold focus_item. by rewrite item_nat, Hi. Qed.

(** The index arithmetic of the two arrow handlers, on positions. *)
Lemma focusNextTab_at s (i : nat) h :
  tabButtons s !! ((i + 1) mod length (tabButtons s)) = Some h →
  i < length (tabButtons s) →
  focusNextTab (Z.of_nat i) s = FocusCalled h.
Proof.
  intros Hh Hi. unfold focusNextTab.
  destruct (Z.ltb_spec (Z.of_nat i) (Z.of_nat (length (tabButtons s)) - 1)).
  - rewrite Nat.mod_small in Hh by lia.
    replace (Z.of_nat i + 1)%Z with (Z.of_nat (i + 1)) by lia. by apply focus_item_nat.
  - assert (i + 1 = length (tabButtons s)) as Heq by lia.
    rewrite Heq, Nat.Div0.mod_same in Hh. by apply (focus_item_nat _ 0).
Qed.

Lemma focusPreviousTab_at s (i : nat) h :
  tabButtons s !! ((i + length (tabButtons s) - 1) mod length (tabButtons s)) = Some h →
  i < length (tabButtons s) →
  focusPreviousTab (Z.of_nat i) s = FocusCalled h.
Proof.
  intros Hh Hi. unfold focusPreviousTab.
  destruct (Z.gtb_spec (Z.of_nat i) 0).
  - replace (i + length (tabButtons s) - 1) with ((i - 1) + 1 * length (tabButtons s))
      in Hh by lia.
    rewrite Nat.Div0.mod_add, Nat.mod_small in Hh by lia.
    replace (Z.of_nat i - 1)%Z with (Z.of_nat (i - 1)) by lia. by apply focus_item_nat.
  - assert (i = 0) as -> by lia. simpl in Hh.
    rewrite Nat.mod_small in Hh by lia.
    replace (Z.of_nat (length (tabButtons s)) - 1)%Z
      with (Z.of_nat (length (tabButtons s) - 1)) by lia.
    by apply focus_item_nat.
Qed.

Lemma keydown_next s btn key :
  key = "ArrowRight"%string ∨ key = "ArrowDown"%string →
  handleTabKeydown btn key s = focusNextTab (indexOf (tabButtons s) btn) s.
Proof. by intros [-> | ->]. Qed.

Lemma keydown_previous s btn key :
  key = "ArrowLeft"%string ∨ key = "ArrowUp"%string →
  handleTabKeydown btn key s = focusPreviousTab (indexOf (tabButtons s) btn) s.
Proof. by intros [-> | ->]. Qed.
End Keyboard.

Section KeyboardSteps.
Implicit Types (l : list handle) (s : State).

Lemma press_next s i h h' :
  NoDup (tabButtons s) → tabButtons s !! i = Some h →
  tabButtons s !! ((i + 1) mod length (tabButtons s)) = Some h' →
  handleTabKeydown h "ArrowRight" s = FocusCalled h' ∧
  handleTabKeydown h "ArrowDown" s = FocusCalled h'.
Proof.
  intros Hnd Hi Hn. pose proof (lookup_lt_Some _ _ _ Hi) as Hlt.
  rewrite !keydown_next by auto. rewrite (indexOf_lookup _ i h Hnd Hi).
  split; by apply focusNextTab_at.
Qed.

Lemma press_previous s i h h' :
  NoDup (tabButtons s) → tabButtons s !! i = Some h →
  tabButtons s !! ((i + length (tabButtons s) - 1) mod length (tabButtons s)) = Some h' →
  handleTabKeydown h "ArrowLeft" s = FocusCalled h' ∧
  handleTabKeydown h "ArrowUp" s = FocusCalled h'.
Proof.
  intros Hnd Hi Hn. pose proof (lookup_lt_Some _ _ _ Hi) as Hlt.
  rewrite !keydown_previous by auto. rewrite (indexOf_lookup _ i h Hnd Hi).
  split; by apply focusPreviousTab_at.
Qed.

Lemma next_previous_index i len :
  i < len → ((i + 1) mod len + len - 1) mod len = i.
Proof.
  intros Hi. destruct (decide (i + 1 < len)) as [Hlt|Hge].
  - rewrite (Nat.mod_small (i + 1)) by done.
    replace (i + 1 + len - 1) with (i + 1 * len) by lia.
    rewrite Nat.Div0.mod_add. by apply Nat.mod_small.
  - assert (i + 1 = len) as Heq by lia. rewrite Heq at 1.
    rewrite Nat.Div0.mod_same. simpl. replace (len - 1) with i by lia.
    by apply Nat.mod_small.
Qed.

Lemma previous_next_index i len :
  i < len → ((i + len - 1) mod len + 1) mod len = i.
Proof.
  intros Hi. destruct (decide (i = 0)) as [->|Hne].
  - simpl. rewrite (Nat.mod_small (len - 1)) by lia.
    replace (len - 1 + 1) with len by lia. apply Nat.Div0.mod_same.
  - replace (i + len - 1) with (i - 1 + 1 * len) by lia.
    rewrite Nat.Div0.mod_add, (Nat.mod_small (i - 1)) by lia.
    replace (i - 1 + 1) with i by lia. by apply Nat.mod_small.
Qed.
End KeyboardSteps.

(** X9.  In every reachable state the arrow keys move the focus
    cyclically through [tabButtons]: on the trigger at position [i] of
    [len], ArrowRight and ArrowDown call [focus()] on the trigger at
    [(i + 1) mod len], ArrowLeft and ArrowUp on the one at
    [(i - 1) mod len], Home on the first and End on the last; and
    ArrowLeft undoes ArrowRight and conversely. *)
Theorem arrow_keys_move_focus_cyclically d n hash push es i h :
  let s := run es (new_Tabs d n hash push) in
  tabButtons s !! i = Some h →
  let len := length (tabButtons s) in
  ∃ next prev first final,
    tabButtons s !! ((i + 1) mod len) = Some next ∧
    tabButtons s !! ((i + len - 1) mod len) = Some prev ∧
    tabButtons s !! 0 = Some first ∧ tabButtons s !! (len - 1) = Some final ∧
    handleTabKeydown h "ArrowRight" s = FocusCalled next ∧
    handleTabKeydown h "ArrowDown" s = FocusCalled next ∧
    handleTabKeydown h "ArrowLeft" s = FocusCalled prev ∧
    handleTabKeydown h "ArrowUp" s = FocusCalled prev ∧
    handleTabKeydown h "Home" s = FocusCalled first ∧
    handleTabKeydown h "End" s = FocusCalled final ∧
    press "ArrowLeft" s next = h ∧ press "ArrowRight" s prev = h.
Proof.
  intros s Hi len.
  pose proof (NoDup_tabButtons d n hash push es) as Hnd. fold s in Hnd.
  pose proof (lookup_lt_Some _ _ _ Hi) as Hlt. fold len in Hlt.
  assert (Hni : (i + 1) mod len < len) by (apply Nat.mod_upper_bound; lia).
  assert (Hpi : (i + len - 1) mod len < len) by (apply Nat.mod_upper_bound; lia).
  destruct (lookup_lt_is_Some_2 (tabButtons s) _ Hni) as [next Hnext].
  destruct (lookup_lt_is_Some_2 (tabButtons s) _ Hpi) as [prev Hprev].
  destruct (lookup_lt_is_Some_2 (tabButtons s) 0) as [first Hfirst]; [fold len; lia|].
  destruct (lookup_lt_is_Some_2 (tabButtons s) (len - 1)) as [final Hfinal];
    [fold len; lia|].
  exists next, prev, first, final.
  destruct (press_next s i h next Hnd Hi Hnext) as [Hr Hd].
  destruct (press_previous s i h prev Hnd Hi Hprev) as [Hl Hu].
  split_and!; try done.
  - unfold handleTabKeydown, focusFirstTab. cbn. by apply (focus_item_nat _ 0).
  - unfold handleTabKeydown, focusLastTab. cbn.
    replace (Z.of_nat (length (tabButtons s)) - 1)%Z with (Z.of_nat (len - 1))
      by (unfold len; lia).
    by apply focus_item_nat.
  - unfold press.
    destruct (press_previous s _ next h Hnd Hnext) as [-> _]; [|done].
    fold len. rewrite next_previous_index by done. done.
  - unfold press.
    destruct (press_next s _ prev h Hnd Hprev) as [-> _]; [|done].
    fold len. rewrite previous_next_index by done. done.
Qed.

Lemma arrow_keys_move_focus_cyclically_witness :
  let s := run [] (new_Tabs page_ABC 1 "" true) in
  let len := length (tabButtons s) in
  ∃ next prev first final,
    tabButtons s !! ((2 + 1) mod len) = Some next ∧
    tabButtons s !! ((2 + len - 1) mod len) = Some prev ∧
    tabButtons s !! 0 = Some first ∧ tabButtons s !! (len - 1) = Some final ∧
    handleTabKeydown 2 "ArrowRight" s = FocusCalled next ∧
    handleTabKeydown 2 "ArrowDown" s = FocusCalled next ∧
    handleTabKeydown 2 "ArrowLeft" s = FocusCalled prev ∧
    handleTabKeydown 2 "ArrowUp" s = FocusCalled prev ∧
    handleTabKeydown 2 "Home" s = FocusCalled first ∧
    handleTabKeydown 2 "End" s = FocusCalled final ∧
    press "ArrowLeft" s next = 2 ∧ press "ArrowRight" s prev = 2.
Proof.
  assert (H : tabButtons (run [] (new_Tabs page_ABC 1 "" true)) !! 2 = Some 2)
    by (vm_compute; reflexivity).
  exact (arrow_keys_move_focus_cyclically page_ABC 1 "" true [] 2 2 H).
Defined.

(** X10.  Pressed on any element at all, a navigation key (an arrow,
    Home or End) calls [focus()] on a trigger listed in [tabButtons]
    whenever that list is not empty, and throws a [TypeError] on
    [undefined.focus()] exactly when it is empty.  The handler never
    switches tabs on these keys. *)
Theorem navigation_keys_stay_in_list s btn key :
  key ∈ ["ArrowLeft"; "ArrowUp"; "ArrowRight"; "ArrowDown"; "Home"; "End"]%string →
  (tabButtons s = [] ∧ handleTabKeydown btn key s = FocusThrew) ∨
  (∃ h, h ∈ tabButtons s ∧ handleTabKeydown btn key s = FocusCalled h).
Proof.
  intros Hkey.
  assert (Hitem : ∀ z, (0 ≤ z < Z.of_nat (length (tabButtons s)))%Z →
            ∃ h, h ∈ tabButtons s ∧ focus_item (tabButtons s) z = FocusCalled h).
  { intros z Hz. destruct (lookup_lt_is_Some_2 (tabButtons s) (Z.to_nat z)) as [h Hh];
      [lia|].
    exists h. split; [by eapply list_elem_of_lookup_2|].
    rewrite <- (Z2Nat.id z) by lia. by apply focus_item_nat. }
  pose proof (indexOf_range (tabButtons s) btn) as Hidx.
  destruct (tabButtons s) as [|h0 l] eqn:El.
  - left. split; [done|].
    repeat (apply elem_of_cons in Hkey as [->|Hkey]); try (by apply elem_of_nil in Hkey);
      unfold handleTabKeydown, focusPreviousTab, focusNextTab, focusFirstTab,
        focusLastTab; rewrite El; by vm_compute.
  - right. rewrite <- El in *.
    assert (Hlen : (0 < Z.of_nat (length (tabButtons s)))%Z) by (rewrite El; simpl; lia).
    repeat (apply elem_of_cons in Hkey as [->|Hkey]); try (by apply elem_of_nil in Hkey).
    + rewrite keydown_previous by auto. unfold focusPreviousTab.
      apply Hitem. destruct (Z.gtb_spec (indexOf (tabButtons s) btn) 0); lia.
    + rewrite keydown_previous by auto. unfold focusPreviousTab.
      apply Hitem. destruct (Z.gtb_spec (indexOf (tabButtons s) btn) 0); lia.
    + rewrite keydown_next by auto. unfold focusNextTab.
      apply Hitem. destruct (Z.ltb_spec (indexOf (tabButtons s) btn)
                               (Z.of_nat (length (tabButtons s)) - 1)); lia.
    + rewrite keydown_next by auto. unfold focusNextTab.
      apply Hitem. destruct (Z.ltb_spec (indexOf (tabButtons s) btn)
                               (Z.of_nat (length (tabButtons s)) - 1)); lia.
    + apply Hitem. lia.
    + apply Hitem. lia.
Qed.

Lemma navigation_keys_stay_in_list_witness :
  (tabButtons (new_Tabs page_ABC 1 "" true) = [] ∧
   handleTabKeydown 7 "ArrowLeft" (new_Tabs page_ABC 1 "" true) = FocusThrew) ∨
  (∃ h, h ∈ tabButtons (new_Tabs page_ABC 1 "" true) ∧
        handleTabKeydown 7 "ArrowLeft" (new_Tabs page_ABC 1 "" true) = FocusCalled h).
Proof.
  assert (H : "ArrowLeft"%string ∈
              ["ArrowLeft"; "ArrowUp"; "ArrowRight"; "ArrowDown"; "Home"; "End"]%string)
    by (vm_compute; left).
  exact (navigation_keys_stay_in_list (new_Tabs page_ABC 1 "" true) 7 "ArrowLeft" H).
Defined.

(** X11.  ArrowRight walks the whole tab list: pressed [k] times
    starting from the trigger at position [i], it leaves the focus on
    the trigger at position [(i + k) mod len].  So every trigger is
    reached, and after [len] presses the focus is back where it
    started. *)
Theorem arrow_right_walks_the_tab_list d n hash push es i h k :
  let s := run es (new_Tabs d n hash push) in
  tabButtons s !! i = Some h →
  tabButtons s !! ((i + k) mod length (tabButtons s)) =
    Some (Nat.iter k (press "ArrowRight" s) h) ∧
  Nat.iter (length (tabButtons s)) (press "ArrowRight" s) h = h.
Proof.
  intros s Hi.
  pose proof (NoDup_tabButtons d n hash push es) as Hnd. fold s in Hnd.
  pose proof (lookup_lt_Some _ _ _ Hi) as Hlt.
  set (len := length (tabButtons s)) in *.
  assert (Hwalk : ∀ j, tabButtons s !! ((i + j) mod len) =
                       Some (Nat.iter j (press "ArrowRight" s) h)).
  { induction j as [|j IH]; simpl.
    - by rewrite Nat.add_0_r, Nat.mod_small.
    - set (cur := Nat.iter j (press "ArrowRight" s) h) in *.
      assert (Hn : ((i + j) mod len + 1) mod len < len)
        by (apply Nat.mod_upper_bound; lia).
      destruct (lookup_lt_is_Some_2 (tabButtons s) _ Hn) as [nx Hnx].
      destruct (press_next s _ cur nx Hnd IH Hnx) as [Hr _].
      unfold press at 1. rewrite Hr, <- Hnx. f_equal.
      rewrite Nat.Div0.add_mod_idemp_l. f_equal. lia. }
  split; [apply Hwalk|].
  pose proof (Hwalk len) as Hback.
  replace (i + len) with (i + 1 * len) in Hback by lia.
  rewrite Nat.Div0.mod_add, Nat.mod_small, Hi in Hback by done.
  by injection Hback.
Qed.

Lemma arrow_right_walks_the_tab_list_witness :
  let s := run [] (new_Tabs page_ABC 1 "" true) in
  tabButtons s !! ((1 + 5) mod length (tabButtons s)) =
    Some (Nat.iter 5 (press "ArrowRight" s) 1) ∧
  Nat.iter (length (tabButtons s)) (press "ArrowRight" s) 1 = 1.
Proof.
  assert (H : tabButtons (run [] (new_Tabs page_ABC 1 "" true)) !! 1 = Some 1)
    by (vm_compute; reflexivity).
  exact (arrow_right_walks_the_tab_list page_ABC 1 "" true [] 1 1 5 H).
Defined.

(** ** Content supplied by the page *)

Section SuppliedContent.
Implicit Types (s : State).

Lemma stable_setTabContent tabId html imgs s x :
  stable s x → stable s (setTabContent tabId html imgs x).
Proof.
  intros H. unfold setTabContent. destruct (query_id tabId (doc x)) as [c|]; [|done].
  destruct H as [H1 H2 H3 H4]. split; cbn; try done.
  - by rewrite !image_alter.
  - intros c' Hc'. specialize (H3 c' Hc').
    rewrite list_lookup_fmap in *.
    destruct (decide (c = c')) as [->|Hne].
    + rewrite !list_lookup_alter_eq. by destruct (panels (doc x) !! c').
    + by rewrite !list_lookup_alter_ne.
Qed.

Lemma setTabContent_panel tabId html imgs s c :
  getTabContent tabId s = Some c →
  ∃ p0, panels (doc s) !! c = Some p0 ∧
        panels (doc (setTabContent tabId html imgs s)) !! c =
          Some (p_set_loaded
                  (p_set_inner {| markup := Html html; lazy_imgs := imgs; src_imgs := [] |}
                     p0)).
Proof.
  unfold getTabContent, setTabContent. intros Hq. rewrite Hq.
  apply first_match_Some in Hq as (p0 & Hp0 & _). exists p0. split; [done|].
  cbn. by rewrite !list_lookup_alter_eq, Hp0.
Qed.
End SuppliedContent.



Section InflightBody.
Implicit Types (s : State) (c : handle).

Definition markups (s : State) : list Markup := (λ p, markup (p_inner p)) <$> panels (doc s).

Lemma markups_upd_panel h f s :
  (∀ p, markup (p_inner (f p)) = markup (p_inner p)) →
  markups (upd_panel h f s) = markups s.
Proof. intros Hf. unfold markups. cbn. by apply image_alter. Qed.

Lemma markups_switch_catch e fr s : markups (switch_catch e fr s).1 = markups s.
Proof. done. Qed.

Lemma markups_preload_return k s : markups (preload_return k s).1 = markups s.
Proof.
  destruct k as [fr|]; [|done]. unfold preload_return, performTabTransition. cbn [fst].
  change (markups (spawn ?t (emit ?e ?x))) with (markups x).
  destruct (currentContent fr); [|done]. by apply markups_upd_panel.
Qed.

Lemma markups_preload_images c k s : markups (preload_images c k s).1 = markups s.
Proof.
  unfold preload_images.
  destruct (match panels (doc s) !! c with Some p => _ | None => _ end).
  - rewrite markups_preload_return.
    change (markups (emit ?e ?x)) with (markups x). by apply markups_upd_panel.
  - cbn [fst]. change (markups (spawn ?t (emit ?e ?x))) with (markups x).
    by apply markups_upd_panel.
Qed.
End InflightBody.



(** ** The responsive menu *)

(** The parts of the menu elements that no handler writes. *)
Definition e_struct (e : Elem) : bool * list handle * option handle * option handle :=
  (e_tab_toggle e, e_within e, e_next e, e_icon e).

Definition e_glyph (e : Elem) : bool * bool := (e_fa_bars e, e_fa_times e).

(** The menu of toggle [t], if it has one, is closed. *)
Definition closed (m : list Elem) (t : handle) : Prop :=
  ∀ tg sib sb, m !! t = Some tg → e_next tg = Some sib → m !! sib = Some sb →
               e_active sb = false.

(** [m'] has the structure of [m] and no [active] class that [m] lacks. *)
Definition shrinks (m m' : list Elem) : Prop :=
  e_struct <$> m' = e_struct <$> m ∧
  ∀ j e', m' !! j = Some e' → e_active e' = true →
          ∃ e, m !! j = Some e ∧ e_active e = true.

Section Menu.
Implicit Types (m : list Elem) (t sib : handle) (icon : option handle).

Lemma struct_alter_icon f icon m :
  (∀ e, e_struct (f e) = e_struct e) → e_struct <$> alter_icon f icon m = e_struct <$> m.
Proof. intros Hf. destruct icon; [by apply image_alter|done]. Qed.

Lemma active_alter_icon f icon m :
  (∀ e, e_active (f e) = e_active e) → e_active <$> alter_icon f icon m = e_active <$> m.
Proof. intros Hf. destruct icon; [by apply image_alter|done]. Qed.

Lemma struct_close_menu t sib icon m :
  e_struct <$> close_menu t sib icon m = e_struct <$> m.
Proof.
  unfold close_menu. rewrite struct_alter_icon by done. by rewrite !image_alter.
Qed.

Lemma struct_open_menu t sib icon m :
  e_struct <$> open_menu t sib icon m = e_struct <$> m.
Proof.
  unfold open_menu. rewrite struct_alter_icon by done. by rewrite !image_alter.
Qed.

Lemma active_close_menu t sib icon m :
  e_active <$> close_menu t sib icon m =
  alter (λ _, false) t (alter (λ _, false) sib (e_active <$> m)).
Proof.
  unfold close_menu. rewrite active_alter_icon by done.
  rewrite (list_fmap_alter e_active _ (λ _, false)) by (apply Forall_forall; done).
  f_equal. apply list_fmap_alter, Forall_forall. done.
Qed.

Lemma active_open_menu t sib icon m :
  e_active <$> open_menu t sib icon m =
  alter (λ _, true) t (alter (λ _, true) sib (e_active <$> m)).
Proof.
  unfold open_menu. rewrite active_alter_icon by done.
  rewrite (list_fmap_alter e_active _ (λ _, true)) by (apply Forall_forall; done).
  f_equal. apply list_fmap_alter, Forall_forall. done.
Qed.

Lemma glyph_close_menu t sib icon m :
  e_glyph <$> close_menu t sib icon m =
  match icon with
  | Some i => alter (λ _, (true, false)) i (e_glyph <$> m)
  | None => e_glyph <$> m
  end.
Proof.
  unfold close_menu. destruct icon as [i|]; simpl.
  - rewrite (list_fmap_alter e_glyph _ (λ _, (true, false))) by (apply Forall_forall; done).
    f_equal. by rewrite !image_alter.
  - by rewrite !image_alter.
Qed.

Lemma glyph_open_menu t sib icon m :
  e_glyph <$> open_menu t sib icon m =
  match icon with
  | Some i => alter (λ _, (false, true)) i (e_glyph <$> m)
  | None => e_glyph <$> m
  end.
Proof.
  unfold open_menu. destruct icon as [i|]; simpl.
  - rewrite (list_fmap_alter e_glyph _ (λ _, (false, true))) by (apply Forall_forall; done).
    f_equal. by rewrite !image_alter.
  - by rewrite !image_alter.
Qed.

Lemma lookup_image {A B} (g : A → B) (l l' : list A) j :
  g <$> l' = g <$> l → g <$> l' !! j = g <$> l !! j.
Proof. intros H. by rewrite <- !list_lookup_fmap, H. Qed.

Lemma untouched_close_menu t sib icon m j :
  j ≠ t → j ≠ sib → icon ≠ Some j → close_menu t sib icon m !! j = m !! j.
Proof.
  intros Ht Hs Hi. unfold close_menu, alter_icon.
  destruct icon as [i|]; rewrite ?list_lookup_alter_ne by congruence; done.
Qed.

Lemma untouched_open_menu t sib icon m j :
  j ≠ t → j ≠ sib → icon ≠ Some j → open_menu t sib icon m !! j = m !! j.
Proof.
  intros Ht Hs Hi. unfold open_menu, alter_icon.
  destruct icon as [i|]; rewrite ?list_lookup_alter_ne by congruence; done.
Qed.

Lemma lookup_two_alters (v : bool) t sib (l : list bool) j x :
  l !! j = Some x → j = t ∨ j = sib →
  alter (λ _, v) t (alter (λ _, v) sib l) !! j = Some v.
Proof.
  intros Hj Hor. destruct (decide (t = j)) as [->|Hne].
  - rewrite list_lookup_alter_eq. destruct (decide (sib = j)) as [->|Hne'].
    + by rewrite list_lookup_alter_eq, Hj.
    + by rewrite list_lookup_alter_ne, Hj.
  - rewrite list_lookup_alter_ne by done. destruct Hor as [->| ->]; [done|].
    by rewrite list_lookup_alter_eq, Hj.
Qed.

(** One call of [toggleTabMenu] on a toggle that has a menu. *)
Lemma toggleTabMenu_once m t tg sib sb :
  m !! t = Some tg → e_next tg = Some sib → m !! sib = Some sb →
  let opened := negb (e_active sb) in
  let m1 := toggleTabMenu t m in
  e_struct <$> m1 = e_struct <$> m ∧
  e_active <$> m1 !! sib = Some opened ∧
  e_active <$> m1 !! t = Some opened ∧
  (∀ i, e_icon tg = Some i → is_Some (m !! i) →
        e_glyph <$> m1 !! i = Some (negb opened, opened)) ∧
  (∀ j, j ≠ t → j ≠ sib → e_icon tg ≠ Some j → m1 !! j = m !! j).
Proof.
  intros Ht Hn Hs opened m1. unfold m1, toggleTabMenu. rewrite Ht, Hn, Hs.
  unfold opened. destruct (e_active sb); simpl.
  - split_and!.
    + apply struct_close_menu.
    + rewrite <- list_lookup_fmap, active_close_menu.
      apply (lookup_two_alters _ _ _ _ _ (e_active sb)); [|by right].
      by rewrite list_lookup_fmap, Hs.
    + rewrite <- list_lookup_fmap, active_close_menu.
      apply (lookup_two_alters _ _ _ _ _ (e_active tg)); [|by left].
      by rewrite list_lookup_fmap, Ht.
    + intros i Hi [ic Hic]. rewrite <- list_lookup_fmap, glyph_close_menu, Hi.
      by rewrite list_lookup_alter_eq, list_lookup_fmap, Hic.
    + intros j ? ? ?. by apply untouched_close_menu.
  - split_and!.
    + apply struct_open_menu.
    + rewrite <- list_lookup_fmap, active_open_menu.
      apply (lookup_two_alters _ _ _ _ _ (e_active sb)); [|by right].
      by rewrite list_lookup_fmap, Hs.
    + rewrite <- list_lookup_fmap, active_open_menu.
      apply (lookup_two_alters _ _ _ _ _ (e_active tg)); [|by left].
      by rewrite list_lookup_fmap, Ht.
    + intros i Hi [ic Hic]. rewrite <- list_lookup_fmap, glyph_open_menu, Hi.
      by rewrite list_lookup_alter_eq, list_lookup_fmap, Hic.
    + intros j ? ? ?. by apply untouched_open_menu.
Qed.
End Menu.

(** X14.  [toggleTabMenu] flips the menu that follows the toggle: the
    menu's [active] class is inverted, the toggle's own [active] class
    and the icon ([fa-times] when open, [fa-bars] when closed) are set to
    match it, and no other element changes.  A second call puts the menu
    back as it was. *)
Theorem toggleTabMenu_flips_the_menu m t tg sib sb :
  m !! t = Some tg → e_next tg = Some sib → m !! sib = Some sb →
  let opened := negb (e_active sb) in
  let m1 := toggleTabMenu t m in
  e_active <$> m1 !! sib = Some opened ∧
  e_active <$> m1 !! t = Some opened ∧
  (∀ i, e_icon tg = Some i → is_Some (m !! i) →
        e_glyph <$> m1 !! i = Some (negb opened, opened)) ∧
  (∀ j, j ≠ t → j ≠ sib → e_icon tg ≠ Some j → m1 !! j = m !! j) ∧
  e_active <$> toggleTabMenu t m1 !! sib = Some (e_active sb).
Proof.
  intros Ht Hn Hs opened m1.
  destruct (toggleTabMenu_once m t tg sib sb Ht Hn Hs) as (Hst & H1 & H2 & H3 & H4).
  fold m1 opened in Hst, H1, H2, H3, H4.
  split_and!; try done.
  pose proof (lookup_image e_struct m m1 t Hst) as Hst_t. rewrite Ht in Hst_t.
  destruct (m1 !! t) as [tg1|] eqn:Et1; [|done].
  destruct (m1 !! sib) as [sb1|] eqn:Es1; [|done].
  assert (Hn1 : e_next tg1 = Some sib).
  { simpl in Hst_t. injection Hst_t as _ _ -> _. done. }
  destruct (toggleTabMenu_once m1 t tg1 sib sb1 Et1 Hn1 Es1) as (_ & H1' & _).
  rewrite H1'. simpl in H1. injection H1 as ->. unfold opened.
  by rewrite negb_involutive.
Qed.

Lemma toggleTabMenu_flips_the_menu_witness :
  let opened := negb (e_active {| e_tab_toggle := false; e_within := [0];
                                  e_active := false; e_fa_bars := false;
                                  e_fa_times := false; e_next := None;
                                  e_icon := None |}) in
  let m1 := toggleTabMenu 0 sample_menu in
  e_active <$> m1 !! 1 = Some opened ∧
  e_active <$> m1 !! 0 = Some opened ∧
  (∀ i, e_icon {| e_tab_toggle := true; e_within := [0]; e_active := false;
                  e_fa_bars := true; e_fa_times := false; e_next := Some 1;
                  e_icon := Some 2 |} = Some i → is_Some (sample_menu !! i) →
        e_glyph <$> m1 !! i = Some (negb opened, opened)) ∧
  (∀ j, j ≠ 0 → j ≠ 1 →
        e_icon {| e_tab_toggle := true; e_within := [0]; e_active := false;
                  e_fa_bars := true; e_fa_times := false; e_next := Some 1;
                  e_icon := Some 2 |} ≠ Some j → m1 !! j = sample_menu !! j) ∧
  e_active <$> toggleTabMenu 0 m1 !! 1 =
    Some (e_active {| e_tab_toggle := false; e_within := [0]; e_active := false;
                      e_fa_bars := false; e_fa_times := false; e_next := None;
                      e_icon := None |}).
Proof.
  exact (toggleTabMenu_flips_the_menu sample_menu 0 _ 1 _ eq_refl eq_refl eq_refl).
Defined.

Section CloseMenu.
Implicit Types (m : list Elem) (t sib : handle) (ts : list handle).

Lemma shrinks_refl m : shrinks m m.
Proof. split; [done|]. intros j e Hj He. by exists e. Qed.

Lemma shrinks_trans m x y : shrinks m x → shrinks x y → shrinks m y.
Proof.
  intros [H1 H2] [G1 G2]. split; [congruence|].
  intros j e Hj He. destruct (G2 j e Hj He) as (e1 & Hj1 & He1). eauto.
Qed.

Lemma shrinks_close_menu t sib icon m : shrinks m (close_menu t sib icon m).
Proof.
  split; [apply struct_close_menu|]. intros j e' Hj He'.
  assert (Ha : e_active <$> close_menu t sib icon m !! j = Some true)
    by (by rewrite Hj; simpl; rewrite He').
  rewrite <- list_lookup_fmap, active_close_menu in Ha.
  destruct (decide (t = j)) as [->|Hne].
  { rewrite list_lookup_alter_eq in Ha.
    by destruct (alter (λ _, false) sib (e_active <$> m) !! j). }
  rewrite list_lookup_alter_ne in Ha by done.
  destruct (decide (sib = j)) as [->|Hne'].
  { rewrite list_lookup_alter_eq in Ha. by destruct ((e_active <$> m) !! j). }
  rewrite list_lookup_alter_ne, list_lookup_fmap in Ha by done.
  destruct (m !! j) as [e|]; [|done]. exists e. split; [done|]. simpl in Ha. congruence.
Qed.

Lemma shrinks_close_if_open t m : shrinks m (close_if_open t m).
Proof.
  unfold close_if_open. repeat case_match; try apply shrinks_refl.
  apply shrinks_close_menu.
Qed.

Lemma shrinks_fold ts m : shrinks m (foldl (λ acc t, close_if_open t acc) m ts).
Proof.
  revert m. induction ts as [|t ts IH]; intros m; simpl; [apply shrinks_refl|].
  apply (shrinks_trans m (close_if_open t m)); [apply shrinks_close_if_open|apply IH].
Qed.

Lemma shrinks_closeTabMenu m : shrinks m (closeTabMenu m).
Proof. apply shrinks_fold. Qed.

(** A closed menu stays closed when classes are only removed. *)
Lemma closed_shrinks m m' t : shrinks m m' → closed m t → closed m' t.
Proof.
  intros [Hst Hact] Hc tg' sib sb' Ht Hn Hs.
  pose proof (lookup_image e_struct m m' t Hst) as Hst_t. rewrite Ht in Hst_t.
  destruct (m !! t) as [tg|] eqn:Et; [|done].
  assert (Hn0 : e_next tg = Some sib).
  { simpl in Hst_t. injection Hst_t as _ _ <- _. done. }
  destruct (e_active sb') eqn:Ea; [|done].
  destruct (Hact sib sb' Hs Ea) as (sb & Hsb & Ha).
  rewrite (Hc tg sib sb Et Hn0 Hsb) in Ha. done.
Qed.

Lemma closed_close_if_open t m : closed (close_if_open t m) t.
Proof.
  intros tg' sib sb' Ht Hn Hs.
  pose proof (shrinks_close_if_open t m) as [Hst Hact].
  pose proof (lookup_image e_struct m _ t Hst) as Hst_t. rewrite Ht in Hst_t.
  destruct (m !! t) as [tg|] eqn:Et; [|done].
  assert (Hn0 : e_next tg = Some sib).
  { simpl in Hst_t. injection Hst_t as _ _ <- _. done. }
  unfold close_if_open in Hs. rewrite Et, Hn0 in Hs.
  destruct (m !! sib) as [sb|] eqn:Es.
  - destruct (e_active sb) eqn:Ea.
    + assert (Hf : e_active <$> close_menu t sib (e_icon tg) m !! sib = Some false).
      { rewrite <- list_lookup_fmap, active_close_menu.
        apply (lookup_two_alters _ _ _ _ _ (e_active sb)); [|by right].
        by rewrite list_lookup_fmap, Es. }
      rewrite Hs in Hf. simpl in Hf. congruence.
    + congruence.
  - congruence.
Qed.

Lemma closed_fold ts m t :
  t ∈ ts → closed (foldl (λ acc t, close_if_open t acc) m ts) t.
Proof.
  revert m. induction ts as [|t0 ts IH]; intros m; [by intros ?%elem_of_nil|].
  intros Hin. simpl. destruct (decide (t ∈ ts)) as [Hts|Hts]; [by apply IH|].
  apply elem_of_cons in Hin as [->|]; [|done].
  apply (closed_shrinks (close_if_open t0 m)); [apply shrinks_fold|].
  apply closed_close_if_open.
Qed.

Lemma close_if_open_closed t m : closed m t → close_if_open t m = m.
Proof.
  intros Hc. unfold close_if_open.
  destruct (m !! t) as [tg|] eqn:Et; [|done].
  destruct (e_next tg) as [sib|] eqn:En; [|done].
  destruct (m !! sib) as [sb|] eqn:Es; [|done].
  by rewrite (Hc tg sib sb Et En Es).
Qed.

Lemma fold_closed ts m :
  (∀ t, t ∈ ts → closed m t) → foldl (λ acc t, close_if_open t acc) m ts = m.
Proof.
  induction ts as [|t ts IH]; intros Hall; simpl; [done|].
  rewrite close_if_open_closed by (apply Hall; left). apply IH.
  intros t' Ht'. apply Hall. by right.
Qed.

Lemma toggles_struct m m' :
  e_struct <$> m' = e_struct <$> m →
  all_matches e_tab_toggle m' = all_matches e_tab_toggle m.
Proof.
  intros H. apply matches_from_image.
  by apply (image_through e_struct _ (λ k, k.1.1.1)).
Qed.

Lemma closeTabMenu_closed m t tg :
  closeTabMenu m !! t = Some tg → e_tab_toggle tg = true → closed (closeTabMenu m) t.
Proof.
  intros Ht Htog. apply closed_fold.
  rewrite <- (toggles_struct m (closeTabMenu m)) by apply shrinks_closeTabMenu.
  apply elem_of_all_matches. eauto.
Qed.
End CloseMenu.

(** X15.  After [closeTabMenu] no toggle of the container has an open
    menu: the element that follows it does not carry [active].  The call
    only removes [active] classes and never changes what follows what;
    and it is idempotent. *)
Theorem closeTabMenu_closes_every_menu m :
  let m1 := closeTabMenu m in
  (∀ t tg sib sb, m1 !! t = Some tg → e_tab_toggle tg = true →
                  e_next tg = Some sib → m1 !! sib = Some sb → e_active sb = false) ∧
  (∀ j e1, m1 !! j = Some e1 → e_active e1 = true →
           ∃ e, m !! j = Some e ∧ e_active e = true) ∧
  e_struct <$> m1 = e_struct <$> m ∧
  closeTabMenu m1 = m1.
Proof.
  intros m1. pose proof (shrinks_closeTabMenu m) as [Hst Hact]. fold m1 in Hst, Hact.
  split_and!; [|done..|].
  - intros t tg sib sb Ht Htog. by apply (closeTabMenu_closed m t tg).
  - unfold closeTabMenu at 1. apply fold_closed. intros t Ht.
    apply elem_of_all_matches in Ht as (tg & Ht & Htog).
    by apply (closeTabMenu_closed m t tg).
Qed.

Section Resize.
Implicit Types (m : list Elem) (ch : Chrome) (t j : handle).

Lemma shrinks_close_all_if_open m t : shrinks m (close_all_if_open m t).
Proof.
  unfold close_all_if_open. repeat case_match; try apply shrinks_refl.
  apply shrinks_closeTabMenu.
Qed.

Lemma shrinks_close_all ts m : shrinks m (foldl close_all_if_open m ts).
Proof.
  revert m. induction ts as [|t ts IH]; intros m; simpl; [apply shrinks_refl|].
  apply (shrinks_trans m (close_all_if_open m t));
    [apply shrinks_close_all_if_open|apply IH].
Qed.

Lemma closed_close_all_if_open m t tg :
  m !! t = Some tg → e_tab_toggle tg = true → closed (close_all_if_open m t) t.
Proof.
  intros Ht Htog. unfold close_all_if_open. rewrite Ht.
  destruct (e_next tg) as [sib|] eqn:En.
  - destruct (m !! sib) as [sb|] eqn:Es.
    + destruct (e_active sb) eqn:Ea.
      * pose proof (shrinks_closeTabMenu m) as [Hst _].
        pose proof (lookup_image e_struct m _ t Hst) as Hst_t. rewrite Ht in Hst_t.
        destruct (closeTabMenu m !! t) as [tg1|] eqn:Et1; [|done].
        apply (closeTabMenu_closed m t tg1 Et1).
        simpl in Hst_t. injection Hst_t as -> _ _ _. done.
      * intros tg' sib' sb' Ht' Hn' Hs'. congruence.
    + intros tg' sib' sb' Ht' Hn' Hs'. congruence.
  - intros tg' sib' sb' Ht' Hn' Hs'. congruence.
Qed.

Lemma closed_close_all ts m t tg :
  t ∈ ts → m !! t = Some tg → e_tab_toggle tg = true →
  closed (foldl close_all_if_open m ts) t.
Proof.
  revert m tg. induction ts as [|t0 ts IH]; intros m tg; [by intros ?%elem_of_nil|].
  intros Hin Ht Htog. simpl.
  pose proof (shrinks_close_all_if_open m t0) as [Hst _].
  pose proof (lookup_image e_struct m _ t Hst) as Hst_t. rewrite Ht in Hst_t.
  destruct (close_all_if_open m t0 !! t) as [tg1|] eqn:Et1; [|done].
  assert (Htog1 : e_tab_toggle tg1 = true).
  { simpl in Hst_t. injection Hst_t as -> _ _ _. done. }
  destruct (decide (t ∈ ts)) as [Hts|Hts]; [by apply (IH _ tg1)|].
  apply elem_of_cons in Hin as [->|]; [|done].
  apply (closed_shrinks (close_all_if_open m t0)); [apply shrinks_close_all|].
  by apply (closed_close_all_if_open m t0 tg).
Qed.

Lemma resize_container_narrow w ch j :
  w ≤ 640 →
  resize_container w ch j =
  {| elems := foldl close_all_if_open (elems ch)
                (all_matches (λ e, e_tab_toggle e && bool_decide (j ∈ e_within e))
                   (elems ch));
     containers := alter c_set_mobile j (containers ch); sizes := sizes ch |}.
Proof.
  intros Hw. unfold resize_container. by rewrite (proj2 (Nat.leb_le w 640) Hw).
Qed.

Lemma resize_container_wide w ch j :
  640 < w →
  resize_container w ch j =
  {| elems := elems ch; containers := alter c_set_desktop j (containers ch);
     sizes := sizes ch |}.
Proof.
  intros Hw. unfold resize_container. by rewrite (proj2 (Nat.leb_gt w 640) Hw).
Qed.

Lemma shrinks_resize_container w ch j : shrinks (elems ch) (elems (resize_container w ch j)).
Proof.
  destruct (decide (w ≤ 640)) as [Hw|Hw].
  - rewrite resize_container_narrow by done. apply shrinks_close_all.
  - rewrite resize_container_wide by lia. apply shrinks_refl.
Qed.

Lemma shrinks_resize w js ch : shrinks (elems ch) (elems (foldl (resize_container w) ch js)).
Proof.
  revert ch. induction js as [|j js IH]; intros ch; simpl; [apply shrinks_refl|].
  apply (shrinks_trans _ (elems (resize_container w ch j)));
    [apply shrinks_resize_container|apply IH].
Qed.

Lemma wide_resize w js ch :
  640 < w → elems (foldl (resize_container w) ch js) = elems ch.
Proof.
  intros Hw. revert ch. induction js as [|j js IH]; intros ch; simpl; [done|].
  rewrite IH. by rewrite resize_container_wide.
Qed.

Lemma containers_resize w js ch :
  containers (foldl (resize_container w) ch js) =
  alter_all (if w <=? 640 then c_set_mobile else c_set_desktop) js (containers ch).
Proof.
  revert ch. induction js as [|j js IH]; intros ch; [done|].
  change (foldl (resize_container w) ch (j :: js))
    with (foldl (resize_container w) (resize_container w ch j) js).
  rewrite IH. unfold alter_all at 2. simpl. f_equal.
  unfold resize_container. by destruct (w <=? 640).
Qed.

Lemma length_alter_all {A} (f : A → A) hs (l : list A) :
  length (alter_all f hs l) = length l.
Proof.
  unfold alter_all. revert l. induction hs as [|h hs IH]; intros l; simpl; [done|].
  by rewrite IH, length_alter.
Qed.

Lemma sizes_resize w js ch : sizes (foldl (resize_container w) ch js) = sizes ch.
Proof.
  revert ch. induction js as [|j js IH]; intros ch; simpl; [done|].
  rewrite IH. unfold resize_container. by destruct (w <=? 640).
Qed.

Lemma closed_resize w js ch j t tg :
  w ≤ 640 → j ∈ js → elems ch !! t = Some tg → e_tab_toggle tg = true →
  j ∈ e_within tg → closed (elems (foldl (resize_container w) ch js)) t.
Proof.
  intros Hw. revert ch tg. induction js as [|j0 js IH]; intros ch tg;
    [by intros ?%elem_of_nil|].
  intros Hin Ht Htog Hj. simpl.
  pose proof (shrinks_resize_container w ch j0) as [Hst _].
  pose proof (lookup_image e_struct (elems ch) _ t Hst) as Hst_t. rewrite Ht in Hst_t.
  destruct (elems (resize_container w ch j0) !! t) as [tg1|] eqn:Et1; [|done].
  simpl in Hst_t. injection Hst_t as Htog1 Hin1 _ _.
  destruct (decide (j ∈ js)) as [Hjs|Hjs].
  { apply (IH _ tg1); [done..|congruence|congruence]. }
  apply elem_of_cons in Hin as [->|]; [|done].
  apply (closed_shrinks (elems (resize_container w ch j0))); [apply shrinks_resize|].
  rewrite resize_container_narrow by done. cbn [elems].
  apply (closed_close_all _ _ t tg); [|done..].
  apply elem_of_all_matches. exists tg. split; [done|].
  rewrite Htog. simpl. by apply bool_decide_eq_true.
Qed.
End Resize.

(** X16.  After [handleResize] every tab container of the instance
    carries exactly one of [tabs-mobile] and [tabs-desktop]: the former
    exactly when the window is at most 640 px wide.  In that case every
    toggle lying in one of the containers has its menu closed; above
    640 px no menu element is touched.  Menu classes are only ever
    removed. *)
Theorem handleResize_marks_and_closes w tcs sh ch :
  let ch1 := handleResize w tcs sh ch in
  length (containers ch1) = length (containers ch) ∧
  (∀ j c, containers ch1 !! j = Some c →
          c_tabs_mobile c = (w <=? 640) ∧ c_tabs_desktop c = negb (w <=? 640)) ∧
  (∀ t tg j sib sb,
     (w <=? 640) = true → elems ch1 !! t = Some tg → e_tab_toggle tg = true →
     j ∈ e_within tg → j < length (containers ch) →
     e_next tg = Some sib → elems ch1 !! sib = Some sb → e_active sb = false) ∧
  ((w <=? 640) = false → elems ch1 = elems ch) ∧
  (∀ j e1, elems ch1 !! j = Some e1 → e_active e1 = true →
           ∃ e, elems ch !! j = Some e ∧ e_active e = true).
Proof.
  intros ch1. unfold ch1, handleResize. cbn [elems containers sizes].
  set (js := seq 0 (length (containers ch))).
  pose proof (shrinks_resize w js ch) as [Hst Hact].
  split_and!.
  - by rewrite containers_resize, length_alter_all.
  - intros j c. rewrite containers_resize.
    rewrite lookup_alter_all by (by destruct (w <=? 640)).
    intros Hc. assert (Hlt : j < length (containers ch)).
    { destruct (decide (j ∈ js)).
      - destruct (containers ch !! j) eqn:E; [by apply lookup_lt_Some in E|done].
      - by apply lookup_lt_Some in Hc. }
    rewrite decide_True in Hc by (apply elem_of_seq; lia).
    destruct (containers ch !! j); [|done]. injection Hc as <-.
    by destruct (w <=? 640).
  - intros t tg j sib sb Hw Ht Htog Hin Hj Hn Hs.
    apply Nat.leb_le in Hw.
    pose proof (lookup_image e_struct (elems ch) _ t Hst) as Hst_t. rewrite Ht in Hst_t.
    destruct (elems ch !! t) as [tg0|] eqn:Et0; [|done].
    simpl in Hst_t. injection Hst_t as Htog0 Hin0 _ _.
    assert (Hc : closed (elems (foldl (resize_container w) ch js)) t).
    { apply (closed_resize w js ch j t tg0); [done| |done|congruence|congruence].
      apply elem_of_seq. lia. }
    by apply (Hc tg sib sb).
  - intros Hw. apply Nat.leb_gt in Hw. by apply wide_resize.
  - exact Hact.
Qed.

Section Heights.
Implicit Types (tcs : list handle) (sh : handle → nat) (sz : list PanelSize).

Definition max_step (sh : handle → nat) (acc : nat) (c : handle) : nat :=
  if acc <? sh c then sh c else acc.

Lemma fold_max sh tcs a :
  let M := foldl (max_step sh) a tcs in
  a ≤ M ∧ (∀ c, c ∈ tcs → sh c ≤ M) ∧ (M = a ∨ ∃ c, c ∈ tcs ∧ M = sh c).
Proof.
  revert a. induction tcs as [|c tcs IH]; intros a; simpl.
  - split_and!; [done| |by left]. by intros c ?%elem_of_nil.
  - destruct (IH (max_step sh a c)) as (H1 & H2 & H3).
    assert (Hstep : a ≤ max_step sh a c ∧ sh c ≤ max_step sh a c ∧
                    (max_step sh a c = a ∨ max_step sh a c = sh c)).
    { unfold max_step. destruct (Nat.ltb_spec a (sh c)); lia. }
    destruct Hstep as (Ha & Hc & Hor).
    split_and!; [lia| |].
    + intros c' [->|Hin]%elem_of_cons; [lia|by apply H2].
    + destruct H3 as [->|(c' & Hin & ->)].
      * destruct Hor as [->| ->]; [by left|]. right. exists c. split; [left|done].
      * right. exists c'. split; [by right|done].
Qed.
End Heights.

(** X17.  [adjustTabContentHeight] gives every panel of [tabContents]
    height [auto] and one common [min-height]: the largest [scrollHeight]
    reported for any of them, so at least the [scrollHeight] of each.  No
    other panel is touched; with no panels nothing is written. *)
Theorem adjustTabContentHeight_levels_panels tcs sh sz :
  let sz1 := adjustTabContentHeight tcs sh sz in
  ∃ M, (∀ c, c ∈ tcs → sh c ≤ M) ∧
       (tcs ≠ [] → ∃ c, c ∈ tcs ∧ M = sh c) ∧
       (∀ c p, c ∈ tcs → sz !! c = Some p →
               sz1 !! c = Some {| sz_height := Some "auto"%string;
                                  sz_minHeight := Some M |}) ∧
       (∀ c, c ∉ tcs → sz1 !! c = sz !! c) ∧
       (tcs = [] → sz1 = sz).
Proof.
  intros sz1. destruct (decide (tcs = [])) as [->|Hne].
  { exists 0. split_and!; [by intros c ?%elem_of_nil|done|by intros c p ?%elem_of_nil|
                          done|done]. }
  set (M := foldl (max_step sh) 0 tcs).
  destruct (fold_max sh tcs 0) as (_ & Hge & Hor). fold M in Hge, Hor.
  set (f1 := λ p, {| sz_height := Some "auto"%string; sz_minHeight := sz_minHeight p |}).
  set (f2 := λ p, {| sz_height := sz_height p; sz_minHeight := Some M |}).
  assert (Hsz1 : sz1 = alter_all f2 tcs (alter_all f1 tcs sz)).
  { unfold sz1. destruct tcs; [done|reflexivity]. }
  exists M. split_and!.
  - exact Hge.
  - intros _. destruct Hor as [HM|]; [|done].
    destruct tcs as [|c0 tcs']; [done|].
    exists c0. split; [left|].
    assert (sh c0 ≤ M) by (apply Hge; left). lia.
  - intros c p Hin Hp. rewrite Hsz1, !lookup_alter_all by done.
    rewrite !decide_True by done. by rewrite Hp.
  - intros c Hnin. rewrite Hsz1, !lookup_alter_all by done.
    by rewrite !decide_False.
  - done.
Qed.

(** ** debounce *)

Section DebounceFacts.
Context {A : Type}.
Implicit Types (d : Debounced A) (es : list (DebounceEvent A)) (ts : list (Timer A)).

(** Whatever is armed is the timer of the most recent call, and
    [timeout] names it. *)
Definition armed_ok (wait : nat) es d : Prop :=
  db_wait d = wait ∧
  (∀ i, db_timeout d = Some i → i < db_fresh d) ∧
  match db_timers d with
  | [] => True
  | [tm] => db_timeout d = Some (tm_id tm) ∧
            ∃ t a, last_call es = Some (t, a) ∧ tm_due tm = t + wait ∧ tm_args tm = a
  | _ => False
  end.

Lemma last_call_call es now (a : A) : last_call (es ++ [Call now a]) = Some (now, a).
Proof. unfold last_call. rewrite omap_app. simpl. by rewrite last_snoc. Qed.

Lemma last_call_fire es now id : last_call (es ++ [Fire now id]) = last_call es.
Proof. unfold last_call. rewrite omap_app. simpl. by rewrite app_nil_r. Qed.

Lemma clear_armed d wait es :
  armed_ok wait es d → clearTimeout (db_timeout d) (db_timers d) = [].
Proof.
  intros (_ & _ & H). destruct (db_timers d) as [|tm [|]]; try done.
  - by destruct (db_timeout d).
  - destruct H as [-> _]. simpl. rewrite filter_cons. by rewrite decide_False by auto.
Qed.

Lemma armed_ok_call wait es d now a :
  armed_ok wait es d → armed_ok wait (es ++ [Call now a]) (executedFunction now a d).
Proof.
  intros H. pose proof (clear_armed d wait es H) as Hc.
  destruct H as (Hw & Hf & _). unfold executedFunction. rewrite Hc.
  split_and!; cbn; [done| |].
  - intros i [= <-]. lia.
  - split; [done|]. exists now, a. by rewrite last_call_call, Hw.
Qed.

(** What firing does: nothing, or one call of [func] that leaves no
    timer armed. *)
Lemma fire_spec wait es d now id :
  armed_ok wait es d →
  fire now id d = d ∨
  ∃ t a, last_call es = Some (t, a) ∧ t + wait ≤ now ∧
         db_timers (fire now id d) = [] ∧
         db_calls (fire now id d) = db_calls d ++ [(now, a)] ∧
         db_timeout (fire now id d) = db_timeout d ∧
         db_fresh (fire now id d) = db_fresh d ∧ db_wait (fire now id d) = db_wait d.
Proof.
  intros (Hw & Hf & H). unfold fire.
  destruct (db_timers d) as [|tm [|]] eqn:Et; try done; [by left|].
  destruct H as (Hto & t & a & Hl & Hdue & Ha).
  destruct (list_find _ [tm]) as [[k tm']|] eqn:Efind; [|by left].
  apply list_find_Some in Efind as (Hk & Hid & _).
  destruct k as [|k]; [|done]. injection Hk as <-.
  destruct (Nat.leb_spec (tm_due tm) now) as [Hle|]; [|by left].
  assert (Hfil : filter (λ t0 : Timer A, tm_id t0 ≠ id) [tm] = []).
  { rewrite filter_cons, decide_False by auto. done. }
  rewrite Hfil. right. exists t, a. cbn.
  split_and!; try done; [lia|by destruct (db_timeout d)|by rewrite Ha].
Qed.

Lemma armed_ok_fire wait es d now id :
  armed_ok wait es d → armed_ok wait (es ++ [Fire now id]) (fire now id d).
Proof.
  intros H. destruct (fire_spec wait es d now id H) as [->|(t & a & _ & _ & Ht & _ & Hto & Hfr & Hw)].
  - destruct H as (Hw & Hf & H). split_and!; [done..|].
    destruct (db_timers d) as [|tm [|]]; try done. by rewrite last_call_fire.
  - destruct H as (Hw' & Hf & _). split_and!; [congruence| |by rewrite Ht].
    intros i. rewrite Hto, Hfr. apply Hf.
Qed.

Lemma debounce_run_snoc es e d :
  debounce_run (es ++ [e]) d = debounce_step (debounce_run es d) e.
Proof. unfold debounce_run. by rewrite foldl_app. Qed.

Lemma armed_ok_run wait es : armed_ok wait es (debounce_run es (debounce wait)).
Proof.
  induction es as [|e es IH] using rev_ind; [by split_and!|].
  rewrite debounce_run_snoc. destruct e as [now a|now id]; simpl.
  - by apply armed_ok_call.
  - by apply armed_ok_fire.
Qed.
End DebounceFacts.

(** X18.  A debounced function, after any sequence of calls and timer
    callbacks: at most one timer is armed, and it belongs to the most
    recent call (due [wait] ms after it, carrying its arguments).  A call
    never runs [func]; it disarms what was pending and arms a timer of
    its own.  [func] runs only when a timer fires: with the arguments of
    the most recent call, no earlier than [wait] ms after it, and then
    nothing is left armed -- so a burst of calls leads to one run of
    [func], for the last of them; and the armed timer does run [func]
    when it fires after its delay. *)
Theorem debounce_runs_func_once_per_burst {A} (wait : nat) (es : list (DebounceEvent A))
    (e : DebounceEvent A) :
  let d := debounce_run es (debounce wait) in
  let d' := debounce_step d e in
  length (db_timers d) ≤ 1 ∧
  (∀ tm, tm ∈ db_timers d →
         ∃ t a, last_call es = Some (t, a) ∧ tm_due tm = t + wait ∧ tm_args tm = a) ∧
  match e with
  | Call now a =>
      db_calls d' = db_calls d ∧
      ∃ id, db_timers d' = [{| tm_id := id; tm_due := now + wait; tm_args := a |}]
  | Fire now id =>
      d' = d ∨
      ∃ t a, last_call es = Some (t, a) ∧ t + wait ≤ now ∧
             db_calls d' = db_calls d ++ [(now, a)] ∧ db_timers d' = []
  end ∧
  (∀ tm now, db_timers d = [tm] → tm_due tm ≤ now →
             db_calls (fire now (tm_id tm) d) = db_calls d ++ [(now, tm_args tm)]).
Proof.
  intros d d'. pose proof (armed_ok_run wait es) as H. fold d in H.
  split_and!; [| | |intros tm now Htm Hdue; unfold fire; rewrite Htm; simpl;
                    rewrite decide_True by done; simpl;
                    by rewrite (proj2 (Nat.leb_le _ _) Hdue)].
  - destruct H as (_ & _ & H). destruct (db_timers d) as [|tm [|]]; simpl; try done; lia.
  - intros tm Hin. destruct H as (_ & _ & H).
    destruct (db_timers d) as [|tm' [|]]; try done; [by apply elem_of_nil in Hin|].
    apply list_elem_of_singleton in Hin as ->. by destruct H as [_ ?].
  - destruct e as [now a|now id]; simpl in *.
    + split; [done|]. exists (db_fresh d). unfold d', debounce_step, executedFunction.
      cbn. rewrite (clear_armed d wait es H). by destruct H as [-> _].
    + destruct (fire_spec wait es d now id H) as [?|(t & a & ? & ? & ? & ? & _)];
        [by left|right]. by exists t, a.
Qed.

(** ** Listeners *)

Section Listeners.
Implicit Types (ls : list Listener) (bs : list handle).

Definition by_closure (l : Listener) : Prop := ∃ line k, ls_callback l = Closure line k.

Lemma addEventListener_spec t ty f ls l :
  l ∈ addEventListener t ty f ls ↔
  l ∈ ls ∨ l = {| ls_target := t; ls_type := ty; ls_callback := f |}.
Proof.
  unfold addEventListener. case_bool_decide as Hin.
  - split; [by left|]. by intros [?| ->].
  - rewrite elem_of_app, list_elem_of_singleton. done.
Qed.

Lemma removeEventListener_other t ty f ls :
  (∀ l, l ∈ ls → ls_callback l ≠ f) → removeEventListener t ty f ls = ls.
Proof.
  intros H. unfold removeEventListener. induction ls as [|l ls IH]; [done|].
  rewrite filter_cons, decide_True.
  - f_equal. apply IH. intros l' Hl'. apply H. by right.
  - intros ->. by apply (H _ (list_elem_of_here _ _)).
Qed.

Lemma forEach_indexed_closures bs f ls :
  (∀ k b acc, Forall by_closure acc → Forall by_closure (f k b acc)) →
  Forall by_closure ls → Forall by_closure (forEach_indexed bs f ls).
Proof.
  intros Hf. unfold forEach_indexed.
  generalize (imap pair bs). intros kbs. revert ls.
  induction kbs as [|kb kbs IH]; intros ls Hls; simpl; [done|]. apply IH, Hf, Hls.
Qed.

Lemma addEventListener_closure t ty line k ls :
  Forall by_closure ls → Forall by_closure (addEventListener t ty (Closure line k) ls).
Proof.
  intros H. apply Forall_forall. intros l [Hl| ->]%addEventListener_spec.
  - by apply (proj1 (Forall_forall _ _) H).
  - by exists line, k.
Qed.

Lemma bindEvents_closures bs tgs ls :
  Forall by_closure ls → Forall by_closure (bindEvents bs tgs ls).
Proof.
  intros H. unfold bindEvents.
  repeat apply addEventListener_closure.
  repeat (apply forEach_indexed_closures;
          [intros; by repeat apply addEventListener_closure|]).
  done.
Qed.

Lemma addEventListener_mono t ty f ls l : l ∈ ls → l ∈ addEventListener t ty f ls.
Proof. intros H. apply addEventListener_spec. by left. Qed.

Lemma forEach_indexed_mono bs f ls l :
  (∀ k b acc, l ∈ acc → l ∈ f k b acc) → l ∈ ls → l ∈ forEach_indexed bs f ls.
Proof.
  intros Hf. unfold forEach_indexed.
  generalize (imap pair bs). intros kbs. revert ls.
  induction kbs as [|kb kbs IH]; intros ls Hls; simpl; [done|]. apply IH, Hf, Hls.
Qed.

Lemma forEach_indexed_adds bs f ls l k b :
  bs !! k = Some b →
  (∀ acc, l ∈ f k b acc) → (∀ k' b' acc, l ∈ acc → l ∈ f k' b' acc) →
  l ∈ forEach_indexed bs f ls.
Proof.
  intros Hk Hadd Hmono. unfold forEach_indexed.
  assert (Hin : (k, b) ∈ imap pair bs).
  { apply elem_of_lookup_imap. eauto. }
  revert Hin. generalize (imap pair bs). intros kbs. revert ls.
  induction kbs as [|kb kbs IH]; intros ls; [by intros ?%elem_of_nil|].
  intros [<-|Hin]%elem_of_cons; simpl.
  - assert (Hm : ∀ acc, l ∈ acc → l ∈ foldl (λ acc kx, f kx.1 kx.2 acc) acc kbs).
    { clear IH. induction kbs as [|kb kbs IH]; intros acc Hacc; simpl; [done|].
      apply IH, Hmono, Hacc. }
    apply Hm, Hadd.
  - by apply IH.
Qed.

Lemma destroy_closures bs ls : Forall by_closure ls → destroy bs ls = ls.
Proof.
  intros H.
  assert (Hm : ∀ name l, l ∈ ls → ls_callback l ≠ Method name).
  { intros name l Hl. apply (proj1 (Forall_forall _ _) H) in Hl as (line & k & ->).
    done. }
  unfold destroy.
  assert (Hfold : foldl (λ acc button,
              removeEventListener (OnTrigger button) "keydown" (Method "handleTabKeydown")
                (removeEventListener (OnTrigger button) "click" (Method "handleTabClick")
                   acc)) ls bs = ls).
  { induction bs as [|b bs IH]; simpl; [done|].
    do 2 rewrite (removeEventListener_other _ _ _ ls) by apply Hm. apply IH. }
  rewrite Hfold. by do 2 rewrite (removeEventListener_other _ _ _ ls) by apply Hm.
Qed.
End Listeners.

(** X19.  [destroy] detaches nothing that [bindEvents] attached.  Every
    listener was registered with a function made on the spot (an arrow
    function or the result of [debounce]), and [destroy] asks to remove
    the methods of the class, which were never registered: the listener
    table is the same after [destroy], and in particular every trigger
    keeps the click listener that switches tabs and its keydown
    listener. *)
Theorem destroy_detaches_nothing bs tgs ls0 :
  Forall (λ l, ∃ line k, ls_callback l = Closure line k) ls0 →
  let ls := bindEvents bs tgs ls0 in
  destroy bs ls = ls ∧
  ∀ k b, bs !! k = Some b →
         {| ls_target := OnTrigger b; ls_type := "click"%string;
            ls_callback := Closure 52 k |} ∈ destroy bs ls ∧
         {| ls_target := OnTrigger b; ls_type := "keydown"%string;
            ls_callback := Closure 53 k |} ∈ destroy bs ls.
Proof.
  intros H0 ls.
  assert (Hd : destroy bs ls = ls) by (by apply destroy_closures, bindEvents_closures).
  split; [done|]. intros k b Hk. rewrite Hd. unfold ls, bindEvents.
  split.
  - do 3 apply addEventListener_mono.
    do 2 (apply forEach_indexed_mono; [intros; by repeat apply addEventListener_mono|]).
    apply (forEach_indexed_adds _ _ _ _ k b Hk).
    + intros acc. apply addEventListener_mono, addEventListener_spec. by right.
    + intros. by repeat apply addEventListener_mono.
  - do 3 apply addEventListener_mono.
    do 2 (apply forEach_indexed_mono; [intros; by repeat apply addEventListener_mono|]).
    apply (forEach_indexed_adds _ _ _ _ k b Hk).
    + intros acc. apply addEventListener_spec. by right.
    + intros. by repeat apply addEventListener_mono.
Qed.

Lemma destroy_detaches_nothing_witness :
  let ls := bindEvents [0; 1; 2] [0] [] in
  destroy [0; 1; 2] ls = ls ∧
  ∀ k b, [0; 1; 2] !! k = Some b →
         {| ls_target := OnTrigger b; ls_type := "click"%string;
            ls_callback := Closure 52 k |} ∈ destroy [0; 1; 2] ls ∧
         {| ls_target := OnTrigger b; ls_type := "keydown"%string;
            ls_callback := Closure 53 k |} ∈ destroy [0; 1; 2] ls.
Proof.
  exact (destroy_detaches_nothing [0; 1; 2] [0] [] (Forall_nil_2 _)).
Defined.

Section OutsideClick.
Lemma click_inside_fold (inside : list bool) (acc : bool) :
  foldl (λ (a c : bool), if c then true else a) acc inside =
  acc || bool_decide (true ∈ inside).
Proof.
  revert acc. induction inside as [|c inside IH]; intros acc; cbn [foldl].
  - rewrite bool_decide_false by (by intros ?%elem_of_nil). by rewrite orb_false_r.
  - rewrite IH. destruct c.
    + rewrite (bool_decide_true (true ∈ true :: inside)) by left.
      by rewrite orb_true_r.
    + destruct acc; [done|]. simpl. apply bool_decide_ext.
      rewrite elem_of_cons. naive_solver.
Qed.
End OutsideClick.

(** X20.  An outside click closes the menus only on a window narrower
    than 768 px and only when no [.tab-wrapper] contains the click
    target; otherwise it changes nothing.  This breakpoint is not the
    one [handleResize] uses: from 641 to 767 px the containers are
    marked [tabs-desktop], yet an outside click still closes the
    menus. *)
Theorem outside_click_uses_its_own_breakpoint w inside m tcs sh ch :
  (768 ≤ w → handleOutsideClick w inside m = m) ∧
  (true ∈ inside → handleOutsideClick w inside m = m) ∧
  (w < 768 → true ∉ inside → handleOutsideClick w inside m = closeTabMenu m) ∧
  (640 < w → ∀ j c, containers (handleResize w tcs sh ch) !! j = Some c →
                    c_tabs_desktop c = true ∧ c_tabs_mobile c = false).
Proof.
  unfold handleOutsideClick, isMobile. rewrite click_inside_fold. simpl.
  split_and!.
  - intros Hw. by rewrite (proj2 (Nat.ltb_ge w 768) Hw).
  - intros Hin. rewrite bool_decide_true by done. simpl. by destruct (w <? 768).
  - intros Hw Hin. rewrite (proj2 (Nat.ltb_lt w 768) Hw).
    by rewrite bool_decide_false.
  - intros Hw j c. unfold handleResize. cbn [containers].
    rewrite containers_resize, (proj2 (Nat.leb_gt w 640) Hw).
    rewrite lookup_alter_all by done.
    destruct (decide _) as [Hin|Hnin].
    + destruct (containers ch !! j); [|done]. by intros [= <-].
    + intros Hc. exfalso. apply Hnin, elem_of_seq.
      apply lookup_lt_Some in Hc. lia.
Qed.

(** ** The progress of a pending switch *)

(** How far the pending switch is from settling: the number of browser
    callbacks it may still need. *)
Definition stage (s : State) : nat :=
  match tasks s with
  | [] => 0
  | [InTransition _ FadeIn] => 1
  | [InTransition _ FadeOut] => 2
  | [InPreload _ AwImages _] => 3
  | [InPreload _ AwText _] => 4
  | [InPreload _ AwFetch _] => 5
  | _ => 6
  end.

Section Progress.
Implicit Types (s : State) (fr : Frame).

Lemma tasks_preload_images_exact c fr s :
  tasks (preload_images c (Switch fr) s).1 = tasks s ++ [InPreload c AwImages (Switch fr)] ∨
  tasks (preload_images c (Switch fr) s).1 = tasks s ++ [InTransition fr FadeOut].
Proof.
  unfold preload_images.
  destruct (match panels (doc s) !! c with Some p => _ | None => _ end);
    cbn [fst preload_return].
  - right. by rewrite tasks_performTabTransition.
  - by left.
Qed.

Lemma stage_resume t r s p :
  task_ok (set_tasks [t] s) t → tasks s = [] → resume t r s = Some p →
  stage p.1 < stage (set_tasks [t] s).
Proof.
  intros Hok Hts Hres.
  destruct t as [c aw [fr|]|fr timer]; [|done|].
  - destruct aw, r; try discriminate; cbn [resume] in Hres; injection Hres as <-;
      unfold stage; cbn [fst tasks set_tasks spawn emit].
    + rewrite Hts. simpl. lia.
    + unfold preload_catch, preload_throw.
      destruct (bk_switch_catch NetworkError fr (upd_panel c (p_set_inner
        {| markup := RetryAffordance; lazy_imgs := []; src_imgs := [] |}) s))
        as (_ & _ & ->). cbn. rewrite Hts. lia.
    + match goal with
      | |- context [preload_images c (Switch fr) ?x] =>
          destruct (tasks_preload_images_exact c fr x) as [-> | ->]
      end; cbn; rewrite Hts; simpl; lia.
    + unfold preload_catch, preload_throw.
      destruct (bk_switch_catch BodyError fr (upd_panel c (p_set_inner
        {| markup := RetryAffordance; lazy_imgs := []; src_imgs := [] |}) s))
        as (_ & _ & ->). cbn. rewrite Hts. lia.
    + unfold preload_return. rewrite tasks_performTabTransition, Hts. simpl. lia.
    + unfold preload_throw.
      destruct (bk_switch_catch ImageError fr s) as (_ & _ & ->). rewrite Hts. lia.
  - destruct timer, r; try discriminate; cbn [resume] in Hres; injection Hres as <-;
      unfold stage; cbn [fst tasks set_tasks spawn emit].
    + destruct (rest_swap_classes fr s) as (_ & _ & _ & _ & ->). rewrite Hts. simpl. lia.
    + rewrite tasks_switch_complete. cbn. rewrite Hts. lia.
Qed.
End Progress.

(** X21.  A pending switch cannot be prolonged.  In every reachable
    state the switch is at one of five stages (awaiting the fetch, the
    response body, the images, the 300 ms timer, the 50 ms timer) or
    nothing is pending.  While a switch is pending [transitioning] is
    set; with nothing pending the flag is clear, provided that every
    trigger's [data-tab] is an identifier (otherwise a request whose
    lookup threw may have left it set).  Every browser callback
    that the pending task accepts moves it to a strictly later stage or
    settles it, and a request never moves it back: a switch settles after
    at most five callbacks. *)
Theorem every_callback_advances_the_switch d n hash push es i r btn :
  markup_ok d →
  let s := run es (new_Tabs d n hash push) in
  stage s ≤ 5 ∧
  (0 < stage s → transitioning s = true) ∧
  (ids_are_identifiers d → stage s = 0 → transitioning s = false) ∧
  (is_Some (step_status (Resume i r) s) → stage (step (Resume i r) s) < stage s) ∧
  (transitioning s = true → stage (step (Activate btn) s) = stage s).
Proof.
  intros Hd s. pose proof (Inv_reachable d n hash push es Hd) as HI. fold s in HI.
  pose proof (proj1 HI) as Hc. unfold control_ok in Hc.
  assert (Hdrop : transitioning s = true → stage (step (Activate btn) s) = stage s).
  { intros Htr. simpl. by rewrite dropped_request. }
  destruct (tasks s) as [|t [|]] eqn:Ets; [| |done].
  - assert (H0 : stage s = 0) by (unfold stage; by rewrite Ets).
    rewrite H0. split_and!; [lia|lia| | |by rewrite <- H0].
    + intros Hok _. destruct (transitioning s) eqn:Htr; [|done].
      by destruct (never_wedged d n hash push es Hd Hok).
    + simpl. rewrite Ets. by intros [? ?].
  - destruct Hc as (Htr & Hok & _).
    assert (Hst : 0 < stage s ≤ 5).
    { unfold stage. rewrite Ets. destruct t as [c [] [fr|]|fr []]; simpl in *; try done; lia. }
    split_and!; [lia|done|lia| |done].
    simpl. rewrite Ets. destruct i as [|i]; [|by intros [? ?]]. cbn [lookup list_lookup].
    cbn [delete list_delete].
    destruct (resume t r (set_tasks [] s)) as [[s' st]|] eqn:Er; [|by intros [? ?]].
    intros _.
    assert (Hs : s = set_tasks [t] (set_tasks [] s)).
    { rewrite <- Ets. by destruct s. }
    pose proof (stage_resume t r (set_tasks [] s) (s', st)) as Hlt.
    rewrite <- Hs in Hlt. by apply Hlt.
Qed.

Lemma every_callback_advances_the_switch_witness :
  let s := run [Activate 1] (new_Tabs page_remote 1 "" true) in
  stage s ≤ 5 ∧
  (0 < stage s → transitioning s = true) ∧
  (ids_are_identifiers page_remote → stage s = 0 → transitioning s = false) ∧
  (is_Some (step_status (Resume 0 FetchResolved) s) →
   stage (step (Resume 0 FetchResolved) s) < stage s) ∧
  (transitioning s = true → stage (step (Activate 0) s) = stage s).
Proof.
  exact (every_callback_advances_the_switch page_remote 1 "" true [Activate 1] 0
           FetchResolved 0 page_remote_ok).
Defined.

(** X22.  The [tab-loading] class marks the pending switch only: in
    every reachable state a trigger that carries it is the trigger of the
    switch in progress, and [transitioning] is set. *)
Theorem loading_marks_the_pending_trigger d n hash push es h b :
  markup_ok d →
  let s := run es (new_Tabs d n hash push) in
  buttons (doc s) !! h = Some b → b_loading b = true →
  transitioning s = true ∧ ∃ fr, pending_frame s = Some fr ∧ button fr = h.
Proof.
  intros Hd s Hb Hl. pose proof (Inv_reachable d n hash push es Hd) as HI. fold s in HI.
  pose proof (proj1 HI) as Hc. unfold control_ok in Hc.
  assert (Hld : ld s !! h = Some true).
  { unfold ld. by rewrite list_lookup_fmap, Hb; simpl; rewrite Hl. }
  unfold pending_frame.
  destruct (tasks s) as [|t [|]] eqn:Ets; [| |done].
  - by destruct (Hc h).
  - destruct Hc as (Htr & _ & Hon). split; [done|].
    specialize (Hon h Hld). destruct (task_frame t) as [fr|]; [|done].
    exists fr. split; [done|]. simpl in Hon. congruence.
Qed.

Lemma loading_marks_the_pending_trigger_witness :
  let s := run [Activate 2] (new_Tabs page_ABC 1 "" true) in
  transitioning s = true ∧ ∃ fr, pending_frame s = Some fr ∧ button fr = 2.
Proof.
  assert (H1 : buttons (doc (run [Activate 2] (new_Tabs page_ABC 1 "" true))) !! 2 =
               Some (b_set_loading true
                       (b_set_aria false (Some "C"%string) (trigger "C" false))))
    by (vm_compute; reflexivity).
  exact (loading_marks_the_pending_trigger page_ABC 1 "" true [Activate 2] 2 _
           page_ABC_ok H1 eq_refl).
Defined.

(** ** What is shown after a completed switch *)

Section Shown.
Implicit Types (s : State) (fr : Frame).

Definition p_style (p : Panel) : bool * option string * option string :=
  (p_active p, p_opacity p, p_transform p).

Lemma mark_active_panels b c s :
  panels (doc (mark_active b c s)) =
  alter (λ p, fade_in (p_set_active true p)) c
    (alter_all (λ p, fade_out (p_set_active false p)) (tabContents s) (panels (doc s))).
Proof.
  unfold mark_active, updateTabTitleDisplay.
  rewrite forEach_upd_button. cbn [tabContents set_doc].
  rewrite forEach_upd_panel. by repeat case_match.
Qed.

Lemma style_updateTabAccessibility s c :
  p_style <$> panels (doc (updateTabAccessibility s)) !! c =
  p_style <$> panels (doc s) !! c.
Proof.
  destruct (accessibility_loop (tabButtons s) s) as [_ Hp].
  unfold updateTabAccessibility. rewrite Hp.
  destruct (last_source s (tabButtons s) c); [|done].
  by destruct (panels (doc s) !! c).
Qed.

Lemma text_updateTabAccessibility s h :
  b_text <$> buttons (doc (updateTabAccessibility s)) !! h =
  b_text <$> buttons (doc s) !! h.
Proof.
  destruct (accessibility_loop (tabButtons s) s) as [Hb _].
  unfold updateTabAccessibility. rewrite Hb.
  destruct (decide _); [|done]. by destruct (buttons (doc s) !! h).
Qed.

Lemma text_mark_active b c s h :
  b_text <$> buttons (doc (mark_active b c s)) !! h = b_text <$> buttons (doc s) !! h.
Proof.
  rewrite mark_active_buttons. apply lookup_image.
  rewrite image_alter by done. by apply image_alter_all.
Qed.

Lemma title_updateTabAccessibility s :
  title (doc (updateTabAccessibility s)) = title (doc s).
Proof. apply accessibility_loop_dom. Qed.

Lemma title_mark_active b c s btn :
  buttons (doc s) !! b = Some btn → is_Some (title (doc s)) →
  title (doc (mark_active b c s)) = Some (b_text btn).
Proof.
  intros Hb [ti Hti]. unfold mark_active.
  set (s1 := upd_panel c _ (upd_button b _ _)).
  assert (Ht1 : title (doc s1) = Some ti).
  { unfold s1. cbn. rewrite forEach_upd_panel. cbn. rewrite forEach_upd_button. done. }
  assert (Hb1 : ∃ b1, buttons (doc s1) !! b = Some b1 ∧ b_text b1 = b_text btn).
  { unfold s1. cbn. rewrite forEach_upd_panel. cbn. rewrite forEach_upd_button. cbn.
    rewrite list_lookup_alter_eq.
    assert (Htx : b_text <$> alter_all (b_set_active false) (tabButtons s)
                    (buttons (doc s)) = b_text <$> buttons (doc s))
      by (by apply image_alter_all).
    pose proof (lookup_image b_text (buttons (doc s)) _ b Htx) as Hl.
    rewrite Hb in Hl. destruct (alter_all _ _ _ !! b) as [b0|]; [|done].
    exists (b_set_active true b0). split; [done|]. simpl in *. congruence. }
  destruct Hb1 as (b1 & Hb1 & Htx). unfold updateTabTitleDisplay.
  rewrite Ht1, Hb1. cbn. by rewrite Htx.
Qed.
End Shown.

(** X23.  When a switch completes (the 50 ms timer fires), the target
    panel is the only panel with the [active] class and the only one
    shown: its inline style is opacity 1 and [translateY(0)], while every
    other panel has opacity 0 and [translateY(10px)].  If the page has an
    [#active-tab-title] element, it now shows the text of the activated
    trigger. *)
Theorem only_the_target_panel_is_shown d n hash push es i fr :
  markup_ok d →
  let s := run es (new_Tabs d n hash push) in
  tasks s !! i = Some (InTransition fr FadeIn) →
  let s' := step (Resume i TimerFired) s in
  (∀ c p, panels (doc s') !! c = Some p →
          p_active p = bool_decide (c = targetContent fr) ∧
          p_opacity p = Some (if bool_decide (c = targetContent fr)
                              then "1" else "0")%string ∧
          p_transform p = Some (if bool_decide (c = targetContent fr)
                                then "translateY(0)" else "translateY(10px)")%string) ∧
  (is_Some (title (doc s)) →
   ∃ b, buttons (doc s') !! button fr = Some b ∧ title (doc s') = Some (b_text b)).
Proof.
  intros Hd s Hi s'.
  pose proof (Inv_reachable d n hash push es Hd) as HI. fold s in HI.
  destruct (busy_tasks s _ i (proj1 HI) Hi) as [Hts ->].
  set (x := upd_panel (targetContent fr) fade_in (set_tasks [] s)).
  assert (Hs' : s' = (switch_complete fr x).1).
  { unfold s', step. rewrite Hts. reflexivity. }
  destruct (switch_complete_doc fr x) as [Hbs Hps].
  set (m := mark_active (button fr) (targetContent fr) x) in *.
  destruct HI as [Hc Hdom].
  assert (Hall : ∀ c p, panels (doc x) !! c = Some p → c ∈ tabContents x).
  { intros c p Hp. change (tabContents x) with (tabContents s).
    rewrite (all_tabContents _ Hdom). apply elem_of_all_matches.
    unfold x in Hp. cbn in Hp. apply lookup_lt_Some in Hp.
    rewrite length_alter in Hp.
    destruct (lookup_lt_is_Some_2 (pk s) c) as [k Hk].
    { unfold pk. by rewrite length_fmap. }
    exists k. split; [done|]. by apply (attached_p _ Hdom c). }
  split.
  - intros c p Hp. rewrite Hs', Hps in Hp.
    assert (Hst : p_style <$> panels (doc m) !! c = Some (p_style p)).
    { rewrite <- style_updateTabAccessibility. by rewrite Hp. }
    unfold m in Hst. rewrite mark_active_panels, list_lookup_alter in Hst.
    destruct (decide (targetContent fr = c)) as [->|Hne].
    + rewrite bool_decide_true by done.
      destruct (alter_all _ _ _ !! c) as [p0|]; [|done].
      simpl in Hst. injection Hst as <- <- <-. done.
    + rewrite bool_decide_false by done.
      rewrite lookup_alter_all in Hst by done.
      destruct (panels (doc x) !! c) as [p0|] eqn:Ep0; [|by destruct (decide _)].
      rewrite decide_True in Hst by eauto.
      simpl in Hst. injection Hst as <- <- <-. done.
  - intros Hti.
    assert (Hfr : ∃ b0, buttons (doc x) !! button fr = Some b0).
    { unfold control_ok in Hc. rewrite Hts in Hc. destruct Hc as (_ & [(k & Hk & _) _] & _).
      unfold bk in Hk. rewrite list_lookup_fmap in Hk.
      destruct (buttons (doc s) !! button fr) as [b0|] eqn:Eb; [|done]. by exists b0. }
    destruct Hfr as [b0 Hb0].
    assert (Htitle : title (doc s') = Some (b_text b0)).
    { rewrite Hs'. change (title (doc (switch_complete fr x).1))
        with (title (doc (updateTabAccessibility m))).
      rewrite title_updateTabAccessibility. by apply title_mark_active. }
    assert (Htext : b_text <$> buttons (doc s') !! button fr = Some (b_text b0)).
    { rewrite Hs', Hbs, list_lookup_alter_eq.
      pose proof (text_updateTabAccessibility m (button fr)) as H1.
      pose proof (text_mark_active (button fr) (targetContent fr) x (button fr)) as H2.
      fold m in H2. rewrite Hb0 in H2. rewrite H2 in H1.
      destruct (buttons (doc (updateTabAccessibility m)) !! button fr); [|done].
      simpl in *. congruence. }
    destruct (buttons (doc s') !! button fr) as [b|]; [|done].
    exists b. split; [done|]. simpl in Htext. congruence.
Qed.

Lemma only_the_target_panel_is_shown_witness :
  let s := run [Activate 2; Resume 0 TimerFired] (new_Tabs page_ABC 1 "" true) in
  let fr := {| button := 2; targetTab := Some "C"%string; targetContent := 2;
               currentButton := Some 1; currentContent := Some 1 |} in
  let s' := step (Resume 0 TimerFired) s in
  (∀ c p, panels (doc s') !! c = Some p →
          p_active p = bool_decide (c = targetContent fr) ∧
          p_opacity p = Some (if bool_decide (c = targetContent fr)
                              then "1" else "0")%string ∧
          p_transform p = Some (if bool_decide (c = targetContent fr)
                                then "translateY(0)" else "translateY(10px)")%string) ∧
  (is_Some (title (doc s)) →
   ∃ b, buttons (doc s') !! button fr = Some b ∧ title (doc s') = Some (b_text b)).
Proof.
  assert (H1 : tasks (run [Activate 2; Resume 0 TimerFired]
                        (new_Tabs page_ABC 1 "" true)) !! 0 =
               Some (InTransition {| button := 2; targetTab := Some "C"%string;
                                     targetContent := 2; currentButton := Some 1;
                                     currentContent := Some 1 |} FadeIn))
    by (vm_compute; reflexivity).
  exact (only_the_target_panel_is_shown page_ABC 1 "" true
           [Activate 2; Resume 0 TimerFired] 0 _ page_ABC_ok H1).
Defined.

(** ** A switch in which nothing fails *)

Section Success.
Implicit Types (s x : State) (fr : Frame).

(** The locals of the [switchToTab] call that a request starts. *)
Definition frame_of (btn : handle) (b : Button) (c : handle) (s : State) : Frame :=
  {| button := btn; targetTab := b_data_tab b; targetContent := c;
     currentButton := first_match sel_tab_btn_active (buttons (doc s));
     currentContent := first_match sel_tab_content_active (panels (doc s)) |}.

Lemma switch_starts s btn b c :
  transitioning s = false → buttons (doc s) !! btn = Some b → b_active b = false →
  select_id (interp (b_data_tab b)) (doc s) = Found c →
  switchToTab btn s =
  preloadTabContent (b_data_tab b) c (Switch (frame_of btn b c s))
    (upd_button btn (b_set_loading true)
       (push_hash (interp (b_data_tab b)) (set_transitioning true s))).
Proof.
  intros Htr Hb Hact Hq. unfold switchToTab. rewrite Hb, Htr, Hact. cbn [orb].
  change (doc (set_transitioning true s)) with (doc s). by rewrite Hq.
Qed.

Lemma panels_push_hash tab s h f :
  panels (doc (upd_button h f (push_hash tab (set_transitioning true s)))) =
  panels (doc s).
Proof. unfold push_hash. cbn. by destruct (has_pushState s). Qed.

Lemma markups_upd_button_push tab s h f :
  markups (upd_button h f (push_hash tab (set_transitioning true s))) = markups s.
Proof. unfold markups. by rewrite panels_push_hash. Qed.

Lemma tasks_push_hash tab s h f :
  tasks (upd_button h f (push_hash tab (set_transitioning true s))) = tasks s.
Proof. unfold push_hash. cbn. by destruct (has_pushState s). Qed.

Lemma preloadTabContent_loads tab c k s p :
  panels (doc s) !! c = Some p → loads p = true →
  ∃ url, (preloadTabContent tab c k s) =
         (spawn (InPreload c AwFetch k) (emit [Fetch url] s), Suspended).
Proof.
  intros Hp Hl. unfold loads in Hl. apply andb_true_iff in Hl as [Hs Hu].
  unfold preloadTabContent. rewrite Hp, Hs.
  destruct (p_data_load_url p) as [u|]; [|done].
  apply negb_true_iff in Hu. rewrite Hu. by exists u.
Qed.

Lemma preloadTabContent_local tab c k s p :
  panels (doc s) !! c = Some p → loads p = false →
  preloadTabContent tab c k s = preload_images c k s.
Proof.
  intros Hp Hl. unfold loads in Hl. unfold preloadTabContent. rewrite Hp.
  destruct (shouldLoad p); [|done]. simpl in Hl.
  destruct (p_data_load_url p) as [u|]; [|done].
  apply negb_false_iff in Hl. by rewrite Hl.
Qed.

(** Where [preload_images] leaves the switch. *)
Definition after_images (c : handle) (fr : Frame) (imgs : list string) : Task :=
  match imgs with
  | [] => InTransition fr FadeOut
  | _ :: _ => InPreload c AwImages (Switch fr)
  end.

Lemma tasks_preload_images_of c fr s p :
  panels (doc s) !! c = Some p →
  tasks (preload_images c (Switch fr) s).1 =
  tasks s ++ [after_images c fr (lazy_imgs (p_inner p))].
Proof.
  intros Hp. unfold preload_images. rewrite Hp.
  destruct (lazy_imgs (p_inner p)); cbn [fst preload_return after_images]; [|done].
  by rewrite tasks_performTabTransition.
Qed.

Lemma markups_updateTabAccessibility s : markups (updateTabAccessibility s) = markups s.
Proof.
  apply list_eq. intros c. unfold markups. rewrite !list_lookup_fmap.
  destruct (accessibility_loop (tabButtons s) s) as [_ Hp].
  unfold updateTabAccessibility. rewrite Hp.
  destruct (last_source s (tabButtons s) c); [|done].
  by destruct (panels (doc s) !! c).
Qed.

Lemma markups_switch_complete fr s : markups (switch_complete fr s).1 = markups s.
Proof.
  destruct (switch_complete_doc fr s) as [_ Hp]. unfold markups at 1. rewrite Hp.
  fold (markups (updateTabAccessibility
                   (mark_active (button fr) (targetContent fr) s))).
  rewrite markups_updateTabAccessibility. unfold markups.
  rewrite mark_active_panels, image_alter by done. by apply image_alter_all.
Qed.

Lemma markups_swap_classes fr s : markups (swap_classes fr s) = markups s.
Proof.
  unfold swap_classes, markups. cbn.
  rewrite image_alter by done.
  destruct (currentButton fr), (currentContent fr); cbn; by rewrite ?image_alter.
Qed.

(** The images have arrived: on to the cross-fade. *)
Lemma images_loaded c fr s :
  tasks s = [InPreload c AwImages (Switch fr)] →
  let s' := step (Resume 0 ImagesLoaded) s in
  tasks s' = [InTransition fr FadeOut] ∧ markups s' = markups s.
Proof.
  intros Hts s'. unfold s', step. rewrite Hts. cbn [lookup list_lookup resume].
  cbn [delete list_delete]. unfold preload_return.
  change (tasks (performTabTransition fr (set_tasks [] s)).1 = [InTransition fr FadeOut]
          ∧ markups (preload_return (Switch fr) (set_tasks [] s)).1 = markups s).
  split; [by rewrite tasks_performTabTransition|].
  by rewrite (markups_preload_return (Switch fr)).
Qed.

(** The two timers of the cross-fade. *)
Lemma fade_out_fired fr s :
  tasks s = [InTransition fr FadeOut] →
  let s' := step (Resume 0 TimerFired) s in
  tasks s' = [InTransition fr FadeIn] ∧ markups s' = markups s.
Proof.
  intros Hts s'. unfold s', step. rewrite Hts. cbn [lookup list_lookup resume].
  cbn [delete list_delete fst].
  destruct (rest_swap_classes fr (set_tasks [] s)) as (_ & _ & _ & _ & Ht).
  split.
  - cbn [tasks spawn emit set_tasks]. by rewrite Ht.
  - change (markups (spawn ?t (emit ?e ?x))) with (markups x).
    by rewrite markups_swap_classes.
Qed.

Lemma one_match {A} (sel : A → bool) (l : list A) (h : handle) (a : A) :
  at_most_one sel l → l !! h = Some a → sel a = true → all_matches sel l = [h].
Proof.
  intros Hone Hh Hx. apply all_matches_singleton; [|by eexists].
  intros i y Hi. destruct (decide (i = h)) as [->|Hne].
  - rewrite bool_decide_true by done. congruence.
  - rewrite bool_decide_false by done. destruct (sel y) eqn:Hy; [|done].
    by specialize (Hone i h y a Hi Hh Hy Hx).
Qed.

(** The fade-in timer fires in a state that satisfies the invariant. *)
Lemma fade_in_fired fr s :
  Inv s → tasks s = [InTransition fr FadeIn] →
  let s' := step (Resume 0 TimerFired) s in
  transitioning s' = false ∧ tasks s' = [] ∧ activeTab s' = targetTab fr ∧
  last (log s') = Some (TabChangeWindow (targetTab fr)) ∧
  all_matches sel_tab_btn_active (buttons (doc s')) = [button fr] ∧
  all_matches sel_tab_content_active (panels (doc s')) = [targetContent fr] ∧
  markups s' = markups s.
Proof.
  intros HI Hts s'. pose proof (Inv_step (Resume 0 TimerFired) s HI) as [_ Hdom'].
  fold s' in Hdom'.
  set (x := upd_panel (targetContent fr) fade_in (set_tasks [] s)).
  assert (Hs' : s' = (switch_complete fr x).1).
  { unfold s', step. rewrite Hts. reflexivity. }
  pose proof (view_switch_complete fr x) as Hv.
  apply view_eq in Hv as (Hbk & Hpk & _ & _ & Hact & Htr).
  rewrite <- Hs' in Hbk, Hpk, Hact, Htr.
  destruct HI as [Hc Hdom]. unfold control_ok in Hc. rewrite Hts in Hc.
  destruct Hc as (_ & [(k & Hk & _) Hcont] & _).
  assert (Hpx : pk x = pk s) by (unfold x; by rewrite pk_upd_panel).
  assert (Hkp : ∃ kp, pk s !! targetContent fr = Some kp).
  { unfold kp_id in Hcont. apply first_match_Some in Hcont as (kp & ? & _). by exists kp. }
  destruct Hkp as [kp Hkp].
  split_and!; try done.
  - rewrite Hs'. by rewrite tasks_switch_complete.
  - rewrite Hs', log_switch_complete. by rewrite last_app.
  - transitivity (all_matches k_active (bk s')).
    { apply matches_from_image. unfold bk. by rewrite <- list_fmap_compose. }
    assert (Hl : ∃ k', alter_all (k_set_active false) (tabButtons x) (bk x) !! button fr
                       = Some k').
    { apply lookup_lt_is_Some_2. rewrite length_alter_all.
      change (bk x) with (bk s). by apply lookup_lt_Some in Hk. }
    destruct Hl as [k' Hk'].
    apply (one_match _ _ _ (k'.1, true)); [apply (one_button _ Hdom')| |].
    + by rewrite Hbk, list_lookup_alter_eq, Hk'.
    + unfold k_active. simpl. rewrite andb_true_r.
      apply (attached_b _ Hdom' (button fr) (k'.1, true)).
      by rewrite Hbk, list_lookup_alter_eq, Hk'.
  - transitivity (all_matches k_active (pk s')).
    { apply matches_from_image. unfold pk. by rewrite <- list_fmap_compose. }
    assert (Hl : ∃ k', alter_all (k_set_active false) (tabContents x) (pk x)
                         !! targetContent fr = Some k').
    { apply lookup_lt_is_Some_2. rewrite length_alter_all, Hpx.
      by apply lookup_lt_Some in Hkp. }
    destruct Hl as [k' Hk'].
    apply (one_match _ _ _ (k'.1, true)); [apply (one_panel _ Hdom')| |].
    + by rewrite Hpk, list_lookup_alter_eq, Hk'.
    + unfold k_active. simpl. rewrite andb_true_r.
      apply (attached_p _ Hdom' (targetContent fr) (k'.1, true)).
      by rewrite Hpk, list_lookup_alter_eq, Hk'.
  - rewrite Hs', markups_switch_complete. unfold x. by rewrite markups_upd_panel.
Qed.

Lemma fetch_resolved c k s :
  tasks s = [InPreload c AwFetch k] →
  let s' := step (Resume 0 FetchResolved) s in
  tasks s' = [InPreload c AwText k] ∧ panels (doc s') = panels (doc s).
Proof. intros Hts s'. unfold s', step. by rewrite Hts. Qed.

Lemma body_resolved c fr s p html imgs :
  tasks s = [InPreload c AwText (Switch fr)] → panels (doc s) !! c = Some p →
  let s' := step (Resume 0 (BodyResolved html imgs)) s in
  tasks s' = [after_images c fr imgs] ∧ markups s' !! c = Some (Html html).
Proof.
  intros Hts Hp s'.
  set (fresh := {| markup := Html html; lazy_imgs := imgs; src_imgs := [] |}).
  set (x := upd_panel c p_set_loaded
              (upd_panel c (p_set_inner fresh) (set_tasks [] s))).
  assert (Hs' : s' = (preload_images c (Switch fr) x).1).
  { unfold s', step. rewrite Hts. reflexivity. }
  assert (Hx : panels (doc x) !! c = Some (p_set_loaded (p_set_inner fresh p))).
  { unfold x. cbn. by rewrite !list_lookup_alter_eq, Hp. }
  rewrite Hs'. split.
  - by rewrite (tasks_preload_images_of c fr x _ Hx).
  - rewrite markups_preload_images. unfold markups.
    by rewrite list_lookup_fmap, Hx.
Qed.

(** [transitioning] is set before each of the callbacks [rs] is
    delivered. *)
Fixpoint busy_before (rs : list Resolution) (s : State) : Prop :=
  match rs with
  | [] => True
  | r :: rs' => transitioning s = true ∧ busy_before rs' (step (Resume 0 r) s)
  end.

Lemma busy_before_app rs rs' s :
  busy_before rs s → busy_before rs' (run (Resume 0 <$> rs) s) →
  busy_before (rs ++ rs') s.
Proof.
  revert s. induction rs as [|r rs IH]; intros s; simpl; [done|].
  intros [Htr H] H'. split; [done|]. by apply IH.
Qed.

Lemma Inv_busy s t : Inv s → tasks s = [t] → transitioning s = true.
Proof. intros [Hc _] Hts. unfold control_ok in Hc. rewrite Hts in Hc. by destruct Hc. Qed.

(** What a completed switch with frame [fr] leaves behind. *)
Definition switched_to (fr : Frame) (s' : State) : Prop :=
  transitioning s' = false ∧ tasks s' = [] ∧ activeTab s' = targetTab fr ∧
  last (log s') = Some (TabChangeWindow (targetTab fr)) ∧
  all_matches sel_tab_btn_active (buttons (doc s')) = [button fr] ∧
  all_matches sel_tab_content_active (panels (doc s')) = [targetContent fr].

(** From the images on, a switch runs to completion. *)
Lemma finish_switch c fr l s :
  Inv s → tasks s = [after_images c fr l] →
  let rs := match l with [] => [] | _ :: _ => [ImagesLoaded] end
            ++ [TimerFired; TimerFired] in
  let s' := run (Resume 0 <$> rs) s in
  busy_before rs s ∧ switched_to fr s' ∧ markups s' = markups s.
Proof.
  intros HI Hts rs s'.
  set (x := run (Resume 0 <$> match l with [] => [] | _ :: _ => [ImagesLoaded] end) s).
  assert (Hx : Inv x ∧ tasks x = [InTransition fr FadeOut] ∧ markups x = markups s ∧
               busy_before (match l with [] => [] | _ :: _ => [ImagesLoaded] end) s).
  { unfold x. destruct l as [|i l];
      cbn [fmap list_fmap run foldl after_images busy_before] in *.
    - done.
    - split; [by apply Inv_step|].
      destruct (images_loaded c fr s Hts) as [? ?].
      split_and!; [done|done| |done]. exact (Inv_busy s _ HI Hts). }
  destruct Hx as (HIx & Htx & Hmx & Hbx).
  assert (Hs' : s' = step (Resume 0 TimerFired) (step (Resume 0 TimerFired) x)).
  { unfold s', rs, x, run. by rewrite fmap_app, foldl_app. }
  destruct (fade_out_fired fr x Htx) as [Hty Hmy].
  pose proof (Inv_step (Resume 0 TimerFired) x HIx) as HIy.
  destruct (fade_in_fired fr _ HIy Hty) as (? & ? & ? & ? & ? & ? & Hm).
  split_and!.
  - apply busy_before_app; [done|]. fold x. simpl.
    split_and!; [exact (Inv_busy x _ HIx Htx)|exact (Inv_busy _ _ HIy Hty)|done].
  - rewrite Hs'. by split_and!.
  - by rewrite Hs', Hm, Hmy.
Qed.

(** Where a request that is accepted leaves the switch. *)
Definition first_task (c : handle) (fr : Frame) (p : Panel) : Task :=
  if loads p then InPreload c AwFetch (Switch fr)
  else after_images c fr (lazy_imgs (p_inner p)).

Lemma switch_starts_task s btn b c p :
  transitioning s = false → tasks s = [] →
  buttons (doc s) !! btn = Some b → b_active b = false →
  select_id (interp (b_data_tab b)) (doc s) = Found c →
  panels (doc s) !! c = Some p →
  let s1 := (switchToTab btn s).1 in
  tasks s1 = [first_task c (frame_of btn b c s) p] ∧ markups s1 = markups s.
Proof.
  intros Htr Hts Hb Hact Hq Hp s1. unfold s1, first_task.
  rewrite (switch_starts s btn b c) by done.
  set (fr := frame_of btn b c s).
  set (x := upd_button btn (b_set_loading true)
              (push_hash (interp (b_data_tab b)) (set_transitioning true s))).
  assert (Hpx : panels (doc x) !! c = Some p) by (unfold x; by rewrite panels_push_hash).
  assert (Htx : tasks x = []) by (unfold x; by rewrite tasks_push_hash).
  assert (Hmx : markups x = markups s) by apply markups_upd_button_push.
  clearbody x. destruct (loads p) eqn:Hl.
  - destruct (preloadTabContent_loads (b_data_tab b) c (Switch fr) x p Hpx Hl)
      as [url ->].
    cbn [fst tasks spawn emit set_tasks]. by rewrite Htx.
  - rewrite (preloadTabContent_local _ _ _ _ p Hpx Hl).
    rewrite (tasks_preload_images_of c fr x p Hpx), markups_preload_images.
    by rewrite Htx.
Qed.

(** A pending switch to which the browser delivers everything it waits
    for runs to completion, and is pending all the while. *)
Lemma pending_switch_completes x c fr p p' html imgs :
  Inv x → tasks x = [first_task c fr p] → panels (doc x) !! c = Some p' →
  let rs := success_path p html imgs in
  let s' := run (Resume 0 <$> rs) x in
  busy_before rs x ∧ switched_to fr s' ∧
  markups s' !! c = (if loads p then Some (Html html) else markups x !! c).
Proof.
  intros HI Hts Hp rs s'. unfold s', rs, success_path, first_task in *. clear s' rs.
  destruct (loads p) eqn:Hl.
  - destruct (fetch_resolved c _ x Hts) as [HtA HpA].
    set (xA := step (Resume 0 FetchResolved) x) in *.
    assert (HpA' : panels (doc xA) !! c = Some p') by (by rewrite HpA).
    destruct (body_resolved c fr xA p' html imgs HtA HpA') as [HtB HmB].
    set (xB := step (Resume 0 (BodyResolved html imgs)) xA) in *.
    assert (HIA : Inv xA) by (by apply Inv_step).
    assert (HIB : Inv xB) by (by apply Inv_step).
    destruct (finish_switch c fr imgs xB HIB HtB) as (Hbusy & Hsw & Hm).
    change (run (Resume 0 <$> [FetchResolved; BodyResolved html imgs] ++ ?l) x)
      with (run (Resume 0 <$> l) xB).
    split_and!; [|done|by rewrite Hm].
    cbn [app busy_before]. fold xA. fold xB.
    split_and!; [exact (Inv_busy x _ HI Hts)|exact (Inv_busy xA _ HIA HtA)|done].
  - destruct (finish_switch c fr (lazy_imgs (p_inner p)) x HI Hts) as (Hbusy & Hsw & Hm).
    cbn [app]. split_and!; [done..|by rewrite Hm].
Qed.

(** Requests made before the callbacks [ws] of a pending switch. *)
Definition pestered (ws : list (list handle * Resolution)) : list Event :=
  ws ≫= (λ w, (Activate <$> w.1) ++ [Resume 0 w.2]).

Lemma dropped_requests bs s : transitioning s = true → run (Activate <$> bs) s = s.
Proof.
  intros Htr. induction bs as [|b bs IH]; [done|].
  unfold run in *. simpl. by rewrite dropped_request.
Qed.

Lemma pestered_run ws s :
  busy_before (snd <$> ws) s → run (pestered ws) s = run (Resume 0 <$> (snd <$> ws)) s.
Proof.
  revert s. induction ws as [|[bs r] ws IH]; intros s; [done|].
  simpl. intros [Htr Hb]. unfold pestered, run in *. simpl.
  rewrite !foldl_app. fold (run (Activate <$> bs) s).
  rewrite dropped_requests by done. simpl. by apply IH.
Qed.
End Success.

(** From any state that satisfies the invariant. *)
Lemma switch_completes_from_Inv (s : State) (btn c : handle) (b : Button)
    (p : Panel) (html : string) (imgs : list string) :
  Inv s → transitioning s = false →
  buttons (doc s) !! btn = Some b → b_active b = false →
  select_id (interp (b_data_tab b)) (doc s) = Found c →
  panels (doc s) !! c = Some p →
  let s1 := step (Activate btn) s in
  let s' := run (Activate btn :: (Resume 0 <$> success_path p html imgs)) s in
  busy_before (success_path p html imgs) s1 ∧
  transitioning s' = false ∧ tasks s' = [] ∧ activeTab s' = b_data_tab b ∧
  last (log s') = Some (TabChangeWindow (b_data_tab b)) ∧
  all_matches sel_tab_btn_active (buttons (doc s')) = [btn] ∧
  all_matches sel_tab_content_active (panels (doc s')) = [c] ∧
  (markup ∘ p_inner) <$> panels (doc s') !! c =
    Some (if loads p then Html html else markup (p_inner p)).
Proof.
  intros HI Htr Hb Hact Hq Hp s1 s'.
  pose proof (idle_tasks s (proj1 HI) Htr) as Hts.
  destruct (switch_starts_task s btn b c p Htr Hts Hb Hact Hq Hp) as [Ht1 Hm1].
  fold (step (Activate btn) s) in Ht1, Hm1. fold s1 in Ht1, Hm1.
  assert (HI1 : Inv s1) by (by apply Inv_step).
  assert (Hp1 : ∃ p1, panels (doc s1) !! c = Some p1).
  { assert (Hst : stable s s1) by apply stable_step, stable_refl.
    destruct (stable_panel_fwd s s1 c p Hst Hp) as (p1 & ? & _). by exists p1. }
  destruct Hp1 as [p1 Hp1].
  destruct (pending_switch_completes s1 c (frame_of btn b c s) p p1 html imgs
              HI1 Ht1 Hp1) as (Hbusy & (? & ? & ? & ? & ? & ?) & Hm).
  change s' with (run (Resume 0 <$> success_path p html imgs) s1).
  split_and!; try done.
  transitivity (markups (run (Resume 0 <$> success_path p html imgs) s1) !! c).
  { unfold markups. by rewrite list_lookup_fmap. }
  rewrite Hm. destruct (loads p); [done|].
  rewrite Hm1. unfold markups. by rewrite list_lookup_fmap, Hp.
Qed.



(** * Requests during a switch, and start-up *)

Section Busy.
Implicit Types (s : State).

Lemma run_until_idle_wedged evs s :
  wedged s → transitioning (run_until_idle evs s) = true.
Proof.
  intros Hw. induction evs as [|e evs IH]; simpl; [by destruct Hw|].
  rewrite (wedged_step e s Hw). destruct Hw as [-> ?]. apply IH.
Qed.

Lemma idle_callbacks rs s : tasks s = [] → run (Resume 0 <$> rs) s = s.
Proof.
  intros Hts. induction rs as [|r rs IH]; [done|].
  unfold run in *. simpl. by rewrite Hts.
Qed.
End Busy.

(** C1.  While a switch is in progress ([transitioning] is set) a further
    [switchToTab] call returns at once and changes nothing: no fetch, no
    timer, no history entry and no event is added to the log, no task is
    spawned, so whatever happens afterwards the run with the second
    request equals the run without it.  When the browser delivers what
    the first switch waits for (the response and its body, the images,
    the two timers), with any number of requests for any triggers made
    before each delivery, the outcome is the state the first switch
    reaches alone (on a page where every [data-tab] is an identifier;
    elsewhere the accessibility pass of the real code may throw when a
    switch completes): [transitioning] is false, the active tab is the
    target of the first request, its [tabChange] event is the last thing
    logged and its trigger is the one active trigger.  Whenever the
    controller is idle again, after whatever events, the active tab is
    that target if the switch completed, and is unchanged if its load
    failed.  (If the flag is set because the lookup of the first request
    threw, no switch is pending: every later request is dropped all the
    same and the active tab stays as it was.) *)
Theorem busy_request_is_dropped d n hash push es b1 b2 b :
  markup_ok d →
  let s0 := run es (new_Tabs d n hash push) in
  let s1 := step (Activate b1) s0 in
  transitioning s0 = false → transitioning s1 = true →
  buttons (doc s0) !! b1 = Some b →
  (∀ evs, transitioning (run evs s1) = true →
          switchToTab b2 (run evs s1) = (run evs s1, Settled Fulfilled)) ∧
  (∀ rest, run (Activate b2 :: rest) s1 = run rest s1) ∧
  (∀ c p html imgs ws,
     ids_are_identifiers d →
     select_id (interp (b_data_tab b)) (doc s0) = Found c →
     panels (doc s0) !! c = Some p →
     snd <$> ws = success_path p html imgs →
     let s' := run (pestered ws) s1 in
     s' = run (Resume 0 <$> success_path p html imgs) s1 ∧
     transitioning s' = false ∧ tasks s' = [] ∧
     activeTab s' = b_data_tab b ∧
     last (log s') = Some (TabChangeWindow (b_data_tab b)) ∧
     all_matches sel_tab_btn_active (buttons (doc s')) = [b1] ∧
     all_matches sel_tab_content_active (panels (doc s')) = [c]) ∧
  (select_id (interp (b_data_tab b)) (doc s0) = Invalid →
   tasks s1 = [] ∧ activeTab s1 = activeTab s0 ∧ ∀ evs, run evs s1 = s1) ∧
  (∀ evs, let s' := run_until_idle evs s1 in
          transitioning s' = false →
          (activeTab s' = b_data_tab b ∧
           last (log s') = Some (TabChangeWindow (b_data_tab b))) ∨
          (activeTab s' = activeTab s0 ∧
           ∃ err, last (log s') = Some (ConsoleError err))).
Proof.
  intros Hd s0 s1 Hidle Hbusy Hb.
  assert (HI0 : Inv s0) by (by apply Inv_reachable).
  assert (Hact : b_active b = false).
  { destruct (b_active b) eqn:E; [|done]. unfold s1, step, switchToTab in Hbusy.
    rewrite Hb, Hidle, E in Hbusy. simpl in Hbusy. congruence. }
  split_and!.
  - intros evs. apply dropped_request.
  - intros rest. unfold run at 1. simpl. by rewrite (dropped_request b2 s1 Hbusy).
  - intros c p html imgs ws _ Hq Hp Hws s'.
    destruct (switch_completes_from_Inv s0 b1 c b p html imgs HI0 Hidle Hb Hact Hq Hp)
      as (Hbb & ? & ? & ? & ? & ? & ? & _).
    fold s1 in Hbb.
    assert (Hs' : s' = run (Resume 0 <$> success_path p html imgs) s1).
    { unfold s'. rewrite pestered_run; by rewrite Hws. }
    rewrite Hs'. split_and!; done.
  - intros Hq. pose proof (idle_tasks s0 (proj1 HI0) Hidle) as Hts.
    assert (Hs1 : s1 = set_transitioning true s0).
    { unfold s1, step, switchToTab. rewrite Hb, Hidle, Hact. cbn [orb].
      change (doc (set_transitioning true s0)) with (doc s0). by rewrite Hq. }
    rewrite Hs1. split_and!; [done..|]. intros evs. by apply wedged_run.
  - pose proof (idle_tasks s0 (proj1 HI0) Hidle) as Hts.
    destruct (switchToTab_spec b1 s0 Hts Hidle) as [Hnop|[Hmiss|[Hstart|Hthrew]]].
    + unfold s1 in Hbusy. simpl in Hbusy. rewrite Hnop in Hbusy. simpl in Hbusy.
      congruence.
    + destruct Hmiss as (b' & _ & _ & _ & Heq).
      unfold s1 in Hbusy. simpl in Hbusy. by rewrite Heq in Hbusy.
    + destruct Hstart as (b' & fr & Hb' & _ & _ & Htab & _ & Hp & Ha & _).
      rewrite Hb in Hb'. injection Hb' as <-.
      intros evs s' Hs'.
      assert (HI1 : Inv s1) by (by apply Inv_step).
      destruct (run_until_idle_settles evs s1 fr HI1 Hp Hs')
        as [(_ & _ & Hact' & Hlog)|(_ & _ & Hact' & Hlog)].
      * left. by rewrite <- Htab.
      * right. split; [|done]. fold s' in Hact'. rewrite Hact'. apply Ha.
    + destruct Hthrew as (b' & _ & _ & _ & Heq).
      intros evs s' Hs'. exfalso.
      assert (Hw : wedged s1).
      { unfold s1. simpl. rewrite Heq. by split. }
      unfold s' in Hs'. rewrite (run_until_idle_wedged evs s1 Hw) in Hs'. done.
Qed.

Lemma busy_request_is_dropped_witness :
  let s1 := step (Activate 2) (run [] (new_Tabs page_ABC 1 "" true)) in
  run (Activate 0 :: [Resume 0 TimerFired]) s1 = run [Resume 0 TimerFired] s1 ∧
  (let s' := run (pestered [([0; 1], TimerFired); ([0], TimerFired)]) s1 in
   s' = run [Resume 0 TimerFired; Resume 0 TimerFired] s1 ∧
   transitioning s' = false ∧ activeTab s' = Some "C"%string ∧
   all_matches sel_tab_btn_active (buttons (doc s')) = [2]).
Proof.
  assert (H0 : transitioning (run [] (new_Tabs page_ABC 1 "" true)) = false)
    by (vm_compute; reflexivity).
  assert (H1 : transitioning (step (Activate 2)
                 (run [] (new_Tabs page_ABC 1 "" true))) = true)
    by (vm_compute; reflexivity).
  assert (H2 : buttons (doc (run [] (new_Tabs page_ABC 1 "" true))) !! 2 =
               Some (b_set_aria false (Some "C"%string) (trigger "C" false)))
    by (vm_compute; reflexivity).
  destruct (busy_request_is_dropped page_ABC 1 "" true [] 2 0 _ page_ABC_ok
              H0 H1 H2) as (_ & Hdrop & Htotal & _ & _).
  split; [apply (Hdrop [Resume 0 TimerFired])|].
  assert (H3 : select_id (interp (b_data_tab
                 (b_set_aria false (Some "C"%string) (trigger "C" false))))
                 (doc (run [] (new_Tabs page_ABC 1 "" true))) = Found 2)
    by (vm_compute; reflexivity).
  assert (H4 : panels (doc (run [] (new_Tabs page_ABC 1 "" true))) !! 2 =
               Some (p_set_aria false (Some "C"%string) (static_panel "C" false)))
    by (vm_compute; reflexivity).
  assert (H5 : snd <$> [([0; 1], TimerFired); ([0], TimerFired)] =
               success_path (p_set_aria false (Some "C"%string) (static_panel "C" false))
                 ""%string []) by (vm_compute; reflexivity).
  assert (H6 : ids_are_identifiers page_ABC) by (repeat constructor).
  destruct (Htotal 2 _ ""%string [] [([0; 1], TimerFired); ([0], TimerFired)]
              H6 H3 H4 H5) as (Hs & Htr & _ & Ha & _ & Hb & _).
  exact (conj Hs (conj Htr (conj Ha Hb))).
Defined.

(** ** Start-up resolution, as specified and as coded *)

(** The fragment that [location.hash] carries, if any. *)
Definition fragment_of (hash : string) : option string :=
  if bool_decide (hash = ""%string) then None else Some (slice1 hash).

(** The resolution order in the words of the specification.  A tab is
    given by the name its trigger declares and by whether the markup
    marks it active; the result is the position of the chosen tab in the
    registry: the tab the fragment names if there is one, otherwise the
    first tab marked active, otherwise the first tab. *)
Definition spec_initial_tab (fragment : option string)
    (tabs : list (option string * bool)) : option nat :=
  match fragment ≫= (λ f, first_match (λ t, bool_decide (t.1 = Some f)) tabs) with
  | Some i => Some i
  | None =>
      match first_match (λ t, t.2) tabs with
      | Some i => Some i
      | None => match tabs with [] => None | _ :: _ => Some 0 end
      end
  end.

Definition declared_tabs (d : Document) : list (option string * bool) :=
  (λ b, (b_data_tab b, b_active b)) <$> buttons d.

(** The trigger at position [i] becomes the one active trigger once the
    browser has delivered some callbacks to what construction started. *)
Definition initially_active (d : Document) (n : nat) (hash : string) (push : bool)
    (i : handle) : Prop :=
  ∃ rs, all_matches sel_tab_btn_active
          (buttons (doc (run (Resume 0 <$> rs) (new_Tabs d n hash push)))) = [i].

(** C5 as the specification words it: the tab that the specified order
    picks is the initially active one. *)
Definition resolved_as_specified (d : Document) (n : nat) (hash : string) (push : bool)
  : Prop :=
  ∀ i, spec_initial_tab (fragment_of hash) (declared_tabs d) = Some i →
       initially_active d n hash push i.


Section Resolution.
Implicit Types (s : State).

Lemma startup_request_spec d hash :
  Forall (λ b, b_attached b = true ∧ is_Some (b_data_tab b)) (buttons d) →
  startup_request d hash = spec_initial_tab (fragment_of hash) (declared_tabs d).
Proof.
  intros Hall.
  assert (Hname : ∀ f, query_data_tab f d =
                       first_match (λ t, bool_decide (t.1 = Some f)) (declared_tabs d)).
  { intros f. apply first_match_image. unfold declared_tabs.
    rewrite <- list_fmap_compose. apply list_fmap_ext. intros i b Hb.
    rewrite Forall_lookup in Hall. destruct (Hall i b Hb) as [Hatt _].
    unfold sel_data_tab. by rewrite Hatt. }
  assert (Hmark : first_match sel_tab_btn_data_active (buttons d) =
                  first_match (λ t, t.2) (declared_tabs d)).
  { apply first_match_image. unfold declared_tabs.
    rewrite <- list_fmap_compose. apply list_fmap_ext. intros i b Hb.
    rewrite Forall_lookup in Hall. destruct (Hall i b Hb) as [Hatt [t Ht]].
    unfold sel_tab_btn_data_active. by rewrite Hatt, Ht. }
  assert (Hfirst : all_matches sel_tab_btn (buttons d) !! 0 =
                   match declared_tabs d with [] => None | _ :: _ => Some 0 end).
  { unfold declared_tabs. destruct (buttons d) as [|b l]; [done|].
    apply Forall_cons in Hall as [[Hatt _] _].
    unfold all_matches. simpl. unfold sel_tab_btn at 1. by rewrite Hatt. }
  unfold startup_request, spec_initial_tab, fragment_of.
  destruct (bool_decide (hash = ""%string)); simpl.
  - rewrite Hmark. destruct (first_match _ (declared_tabs d)); [done|].
    rewrite Hfirst. by destruct (declared_tabs d).
  - rewrite Hname.
    destruct (first_match (λ t, bool_decide (t.1 = Some (slice1 hash))) _); [done|].
    rewrite Hmark. destruct (first_match _ (declared_tabs d)); [done|].
    rewrite Hfirst. by destruct (declared_tabs d).
Qed.

Lemma new_Tabs_request d n hash push i :
  n ≠ 0 → startup_request d hash = Some i →
  new_Tabs d n hash push =
  updateTabAccessibility (switchToTab i (fresh_Tabs d n hash push)).1.
Proof.
  intros Hn Hi. rewrite new_Tabs_init. unfold init.
  change (tabContainers (fresh_Tabs d n hash push)) with n.
  destruct (Nat.eqb_spec n 0) as [|_]; [done|].
  by rewrite setInitialActiveTab_request, Hi.
Qed.

Lemma actives_updateTabAccessibility s :
  b_active <$> buttons (doc (updateTabAccessibility s)) = b_active <$> buttons (doc s).
Proof.
  pose proof (view_updateTabAccessibility s) as Hv.
  apply view_inj in Hv as (Hb & _).
  assert (H : (λ k : bool * option string * bool, k.2) <$> bk (updateTabAccessibility s)
              = (λ k : bool * option string * bool, k.2) <$> bk s) by (by rewrite Hb).
  unfold bk in H. by rewrite <- !list_fmap_compose in H.
Qed.
End Resolution.


